(* ===== verification/_CoqProject ===== *)
-Q . S2P
Prelude.v
JsValue.v
ErrorUtils.v
Portfolio.v
Dashboard.v
QueryCache.v
CacheSpec.v
CacheRuns.v
BaseQuery.v
NumberFormat.v
Cards.v
StockTable.v
Charts.v
ChartOptions.v
Session.v
App.v
