(* ===== verification/Prelude.v ===== *)
(** * A verification development for the portfolio dashboard (8-byte-frontend)

    The repository is a React + Redux-Toolkit client (src/src/...) that polls
    [GET http://localhost:8000/api/portfolio] every 15 s through an RTK Query
    endpoint, keeps the answer in RTK Query's cache, and renders it as summary
    cards, charts and per-sector tables.  All aggregation is done server side;
    the client code selects, filters, formats and dispatches on what it gets.

    ** The parts of the program and how they interact

    - [api/app-api-slice.ts]: the RTK Query endpoint [getPortfolioInfo]
      (base URL, path, method, [keepUnusedDataFor: 15]); the hook
      [useGetPortfolioInfoQuery] it exports is called by the table component
      with [pollingInterval: 15000].  The cache and the poller themselves are
      library code (RTK Query), not code of this repository: they are modelled
      from the spec (section 4) and marked spec_modelled in PROJECT.json.
    - [api/api-types.ts]: the response's shape ([PortfolioResponse], [Stock],
      [SectorSummary], [PortfolioSummary]).  TypeScript types are erased at
      run time and the components use [as] casts, so the program really
      handles arbitrary JSON: the development models the decoded body as a
      JavaScript value and the TypeScript types as predicates on it.
    - [utils/error.utils.ts]: [getErrorFromException], the normalisation of
      a failure into the message of the error banner.
    - [components/portforlio-table.tsx]: [PortfolioTable], the page: it
      dispatches on [isLoading] / [error] / [data], extracts the sectors with
      [Object.entries(data).filter(key !== "portfolioSummary")] and renders a
      section per sector (an empty-sector card when [stocks.length === 0]).
    - [components/*-card.tsx], [*-chart.tsx], [sector-stock-table.tsx]:
      presentational components whose only logic is number formatting
      ([toFixed], [parseFloat], [Math.abs], [Math.min], [formatCurrency]) and
      the selection of series and colours; each chart builds an ECharts
      option object (data, styling and callbacks) and hands it to
      [ReactECharts].
    - [configs/app-theme.ts], [App.tsx], [main.tsx]: the colour constants
      and the antd theme built from them; the element tree that mounts the
      page inside the redux [Provider], the antd [ConfigProvider] and
      React's [StrictMode].  Mounting the page runs its hook's effect, which
      subscribes to the cache; in development StrictMode runs the effect,
      its cleanup and the effect again.
    - [api/local-session-manager.ts]: save, read and delete of the access
      token in [localStorage], with a testing token from a config module
      that the repository does not contain (dead code in the running app).

    ** Files of the development (in _CoqProject order)

    - [Prelude] (this file): the completion type of JavaScript evaluation
      (a value, or a thrown [TypeError]) with its monad instances, the
      notation scope [js_scope], [js_map] ([Array.prototype.map] with a
      callback that may throw), the tactic [simpl_js], the hint databases
      [js] and [js_simpl], and generic lemmas on filters and on strings
      ([String.append], [String.substring]).
    - [JsValue]: JavaScript values (numbers as exact rationals with the
      infinities and NaN, strings, arrays, objects as ordered property
      lists), [typeof], truthiness, property access ([GetV], which throws on
      [null] and [undefined]), [Object.entries] with the ordering of
      [OrdinaryOwnPropertyKeys], decimal printing [show_N] and reading
      [digits_value] of natural numbers.
    - [ErrorUtils]: [getErrorFromException] of utils/error.utils.ts,
      statement by statement.
    - [Portfolio]: the types of api/api-types.ts, one Module per interface,
      with the JSON value a record is sent as; the well-formedness of a
      response ([wf_response]) and its sectors in [Object.entries] order.
    - [Dashboard]: [PortfolioTable] of components/portforlio-table.tsx as a
      function of the hook result and the component state, returning a
      [page] or a [TypeError]; the [lastUpdated] state and its effect as
      state passing over renders.
    - [QueryCache]: the RTK Query cache and poller (library code, modelled
      from the spec) as a step relation on worlds (clock, entry map as a
      stdpp [gmap], requests in flight), parameterised by a [cache_config]
      in a Section and instantiated with the endpoint of
      api/app-api-slice.ts ([keepUnusedDataFor: 15], [pollingInterval:
      15000]); [hook_result] is what the hook hands to [PortfolioTable].
    - [CacheSpec]: the contract of spec section 4.1 as an abstract machine
      [spec_step] on the [getSnapshot] views of all keys; the abstraction
      [abs] of a timed world; the class [CacheContract] (what a cache
      promises the page: it starts empty and each step is allowed by the
      contract) with the timed model as its instance [timed_cache].
    - [CacheRuns]: the event loop's steps labelled by their callback
      ([event], [run_event], [enabled]), finite executions as event
      sequences ([run], with the executable [run_events]), and the polling
      deadline they guarantee.
    - [BaseQuery]: one request through [fetchBaseQuery] with the slice's
      [responseHandler] ([response.json()]): the body, or the error object
      RTK Query builds (FETCH_ERROR, PARSING_ERROR, a rejected status);
      [JSON.parse] is a variable of the Section.
    - [NumberFormat]: the ECMAScript number operations the components use
      (Number::divide and Number::multiply, [Math.abs], [Math.min],
      [Number.prototype.toFixed], [parseFloat], [toLocaleString], written
      from ECMA-262 and ECMA-402 on exact values), an equivalence [num_eq]
      of numbers with [Proper]
      instances for setoid rewriting, and [formatCurrency] of
      utils/format.utiils.ts (Intl en-IN, INR).
    - [Cards]: [PortfolioSummaryCard] and [SectorSummaryCard] as functions
      from the summary record to a record of what each card shows.
    - [StockTable]: [SectorStocksTable] of components/sector-stock-table.tsx:
      each column renderer, the row class, the rows and the header; the
      P/E renderer on an arbitrary JSON value.
    - [Charts]: the data of the three ECharts components (pie slices with
      their palette colours, the aligned bar series, the stock bars and the
      stock tooltip text), with the TypeErrors of their property reads.
    - [ChartOptions]: the three option objects, field by field, as trees
      ([opt]) of JSON values, arrays, objects and callbacks (the bar colour
      of a value, the stock tooltip, the animation delays).
    - [Session]: [LocalSessionManager] over [localStorage] as a stdpp
      [gmap], the testing token a variable of its Section.
    - [App]: [AppTheme] and [antdTheme]; the trees of App.tsx and main.tsx
      as [element]s; [mount_events], the cache events of mounting a tree.

    ** What the theorems show

    - ErrorUtils: the result of [getErrorFromException] on every branch,
      and the exact set of inputs on which it throws ([null] and an object
      whose only truthy field of three is a [response] without [data]).
    - Dashboard: the dispatch loading / error / no data / page; a
      well-formed response renders without throwing, one section per sector
      in key order; the exact inputs on which the page throws; the
      [lastUpdated] effect changes the timestamp exactly when the data
      changes, and does not re-trigger itself.
    - QueryCache: an invariant of every reachable state (by rule
      induction over [step]), at most one request in flight per key unless
      an entry is evicted during a request (and a concrete trace where that
      happens), the eviction life cycle, and the views a failed or
      successful poll gives the page.
    - CacheSpec: each step of the timed cache is at most two steps of the
      contract (a refinement); against any [CacheContract], a Success
      snapshot never shows the spinner or the error banner, and an Error
      snapshot carries the error that the banner shows.
    - CacheRuns: an armed poll timer is never behind the clock nor more
      than [intervalMs] ahead (invariant); liveness of polling: in every
      execution from a reachable state in which a key stays subscribed, the
      clock cannot move on by more than [intervalMs] without a poll of the
      key, after which a request for it is in flight; spec section 8's
      polling scenario run step by step (four attempts for three ticks).
    - BaseQuery: every transport failure, completed in the cache, shows
      the error banner without throwing, with the error body's [message]
      or the generic text (never a body's [error] field).
    - NumberFormat and Cards: [parseFloat] of [x.toFixed(2)] is [x] rounded
      to two places; the progress value of both cards is in [[0, 100]]; the
      behaviour with a zero investment (NaN, Infinity); the badge's sign;
      [formatCurrency] shows the amount rounded to paise, and is, up to
      its grouping commas, the text of [toFixed(2)] (an equivalence proved
      through the characterisation [fixed_digits_two] of ECMA-262's digit
      steps).
    - StockTable: the P/E fallback is reached exactly for a missing figure;
      the gain/loss sign; the portfolio share bar is not clamped; whole
      quantities are shown exactly; the rows in order, keyed and striped.
    - Charts: for a well-formed response the pie and bar series follow the
      sectors in order; the pie throws exactly on a missing summary; slice
      colours are distinct exactly up to ten sectors; the charts' colours
      agree with the cards' exactly when the API colour agrees with the sign.
    - ChartOptions: whenever the sector chart renders, its legend names
      exactly its series and every series has one bar per category.
    - Session: the token round trip without a testing token, and exactly
      when a saved token is read back.
    - App: the theme's success, error and primary tokens are the colours
      the components hard-code; mounting any element tree that holds the
      page (by induction on trees) issues exactly one request, with one
      subscriber per page, whether or not StrictMode replays the effects.

    ** Bounds and fuel

    [show_N n] runs [show_digits] with fuel [S (N.size n)]: [n < 2^size n
    <= 10^size n], so that many decimal digits suffice ([show_N_value]
    proves the printed text reads back as [n]).  [strip_zeros] is given
    [N.size n] steps, more than the number of decimal digits of [n].  The
    digit grouping [group_rev] gets the number of digits as fuel, more than
    the number of groups.  The
    timers of the cache are integers of milliseconds; time advances only to
    the next armed timer ([advance]), so no fuel is needed there.  The
    theorems on [toFixed] assume the value is below [10^21], where
    ECMA-262 switches to exponent notation (modelled as [large_to_string]).
    Executions ([run]) are finite lists of events; the liveness theorem is
    stated over every such list, so it bounds every schedule of callbacks
    the event loop may choose, not one.

    ** What is not modelled

    Layout markup (class names, fixed labels, icons other than the arrow
    choice) and what ECharts and antd draw from the options they are given
    (pure presentation); the chart callbacks are given the numbers that
    well-formed data hold; the locale of [toLocaleString] is taken to be
    en-US; the commented-out authentication code of app-api-slice.ts; the
    decoding of JSON itself ([JSON.parse] is a parameter); the redux store imported by App.tsx and the config module
    imported by the session manager, which the repository does not
    contain; React's rendering itself (only the effects of mounting are
    modelled).  Numbers are exact rationals, not IEEE
    doubles: the rounding of [/] and [*] to the nearest double and signed
    zeros are not modelled, only the program's own rounding ([toFixed],
    [formatCurrency]); Number::toString of a non-integer is not modelled
    (the performance number of the cards is kept as a number).
*)

From stdpp Require Export base list strings sets.
From Stdlib Require Export ZArith Lia.

(** ** Completions: the result of evaluating JavaScript that may throw *)

Inductive exn : Type :=
  | TypeError (msg : string).

Inductive completion (A : Type) : Type :=
  | Normal (a : A)
  | Throw (e : exn).
Arguments Normal {A} a.
Arguments Throw {A} e.

#[export] Instance completion_ret : MRet completion := fun A a => Normal a.
#[export] Instance completion_bind : MBind completion :=
  fun A B f c => match c with Normal a => f a | Throw e => Throw e end.
#[export] Instance completion_fmap : FMap completion :=
  fun A B f c => match c with Normal a => Normal (f a) | Throw e => Throw e end.

Declare Scope js_scope.
Delimit Scope js_scope with js.
Notation "'throw!' m" := (Throw (TypeError m)) (at level 10) : js_scope.

(** [Array.prototype.map] with a callback that may throw: the callback runs
    on the elements from left to right and the first throw propagates. *)
Fixpoint js_map {A B} (f : A -> completion B) (l : list A) : completion (list B) :=
  match l with
  | [] => Normal []
  | x :: l' =>
      match f x with
      | Throw e => Throw e
      | Normal y =>
          match js_map f l' with
          | Throw e => Throw e
          | Normal ys => Normal (y :: ys)
          end
      end
  end.

Definition is_normal {A} (c : completion A) : bool :=
  match c with Normal _ => true | Throw _ => false end.

Create HintDb js.
Create Rewrite HintDb js_simpl.

Section CompletionLemmas.
Context {A B : Type}.

Lemma bind_normal (a : A) (f : A -> completion B) : (Normal a ≫= f) = f a.
Proof. reflexivity. Qed.

Lemma bind_throw (e : exn) (f : A -> completion B) : (Throw e ≫= f) = Throw e.
Proof. reflexivity. Qed.

Lemma bind_normal_inv (c : completion A) (f : A -> completion B) (b : B) :
  (c ≫= f) = Normal b -> exists a, c = Normal a /\ f a = Normal b.
Proof. destruct c; simpl; [eauto | discriminate]. Qed.

Lemma js_map_normal_iff (f : A -> completion B) (l : list A) (ys : list B) :
  js_map f l = Normal ys <-> Forall2 (fun x y => f x = Normal y) l ys.
Proof.
  revert ys; induction l as [|x l IH]; intros ys; simpl.
  - split; [intros [= <-]; constructor | intros H; inversion H; reflexivity].
  - destruct (f x) as [y|e] eqn:Hf.
    + destruct (js_map f l) as [ys'|e] eqn:Hm.
      * split; [intros [= <-]; constructor; [done | by apply IH]|].
        intros H; inversion H as [|? y' ? ys'' Hy Hrest]; subst.
        rewrite Hf in Hy; injection Hy as ->. apply IH in Hrest.
        by injection Hrest as ->.
      * split; [discriminate|]. intros H; inversion H as [|? y' ? ys'' Hy Hrest]; subst.
        apply IH in Hrest. discriminate.
    + split; [discriminate|]. intros H; inversion H; subst. congruence.
Qed.

Lemma js_map_length (f : A -> completion B) (l : list A) (ys : list B) :
  js_map f l = Normal ys -> length ys = length l.
Proof. intros H%js_map_normal_iff. symmetry. by eapply Forall2_length. Qed.

(** A callback that never throws makes the whole map a plain [map]. *)
Lemma js_map_total (f : A -> completion B) (g : A -> B) (l : list A) :
  (forall x, x ∈ l -> f x = Normal (g x)) -> js_map f l = Normal (map g l).
Proof.
  induction l as [|x l IH]; intros Hf; simpl; [done|].
  rewrite Hf by set_solver. rewrite IH; [done|]. intros y Hy. apply Hf. set_solver.
Qed.

(** The map throws exactly when the callback throws on some element. *)
Lemma js_map_throw_iff (f : A -> completion B) (l : list A) :
  is_normal (js_map f l) = false <-> exists x, x ∈ l /\ is_normal (f x) = false.
Proof.
  induction l as [|x l IH]; simpl.
  - split; [discriminate | intros (? & Hx & _); set_solver].
  - destruct (f x) eqn:Hf; simpl.
    + destruct (js_map f l) as [ys|e'] eqn:Hm; simpl in *.
      * split; [discriminate|]. intros (y & Hy & Hn).
        apply elem_of_cons in Hy as [->|Hy]; [by rewrite Hf in Hn|].
        assert (Hc : is_normal (Normal ys) = false) by (apply IH; eauto).
        discriminate.
      * split; [|done]. intros _. destruct (proj1 IH eq_refl) as (y & ? & ?).
        exists y. split; [set_solver | done].
    + split; [|done]. intros _. exists x. split; [set_solver | by rewrite Hf].
Qed.
End CompletionLemmas.

#[export] Hint Rewrite @bind_normal @bind_throw : js_simpl.

(** [simpl_js] rewrites binds on known completions and simplifies. *)
Ltac simpl_js := repeat (autorewrite with js_simpl in *; simpl in *).

(** ** Shared lemmas on lists *)

Section FilterLemmas.
Context {A : Type} (P : A -> Prop) `{!forall x, Decision (P x)}.

Lemma filter_Forall_id (l : list A) : Forall P l -> filter P l = l.
Proof.
  induction 1 as [|x l Hx _ IH]; [done|].
  rewrite filter_cons_True by done. by rewrite IH.
Qed.

Lemma filter_Forall_nil (l : list A) : Forall (fun x => ~ P x) l -> filter P l = [].
Proof.
  induction 1 as [|x l Hx _ IH]; [done|].
  by rewrite filter_cons_False.
Qed.
End FilterLemmas.

(** ** Strings: append and [substring] *)

Section StringLemmas.
Local Open Scope string_scope.

(** stdpp makes [String.append] opaque to [simpl]; these are its two
    equations. *)
Lemma string_app_nil_l (t : string) : "" ++ t = t.
Proof. reflexivity. Qed.

Lemma string_app_cons (c : Ascii.ascii) (s t : string) : String c s ++ t = String c (s ++ t).
Proof. reflexivity. Qed.

Lemma string_app_nil_r (s : string) : s ++ "" = s.
Proof. induction s as [|c s IH]; [done|by rewrite string_app_cons, IH]. Qed.

Lemma string_app_assoc (s t u : string) : s ++ (t ++ u) = (s ++ t) ++ u.
Proof. induction s as [|c s IH]; [done|by rewrite !string_app_cons, IH]. Qed.

Lemma string_length_app (s t : string) : String.length (s ++ t) = String.length s + String.length t.
Proof. induction s as [|c s IH]; [by destruct t|rewrite string_app_cons; simpl; by rewrite IH]. Qed.

Lemma substring_full (s : string) : String.substring 0 (String.length s) s = s.
Proof. induction s as [|c s IH]; simpl; [done|by rewrite IH]. Qed.

Lemma substring_app_l (s t : string) : String.substring 0 (String.length s) (s ++ t) = s.
Proof. induction s as [|c s IH]; [by destruct t|rewrite string_app_cons; simpl; by rewrite IH]. Qed.

Lemma substring_app_r (s t : string) :
  String.substring (String.length s) (String.length t) (s ++ t) = t.
Proof. induction s as [|c s IH]; [apply substring_full|rewrite string_app_cons; simpl; exact IH]. Qed.

(** The first [n] characters followed by the rest give the string back. *)
Lemma substring_split (n : nat) (s : string) :
  String.substring 0 n s ++ String.substring n (String.length s - n) s = s.
Proof.
  revert n. induction s as [|c s IH]; intros [|n]; simpl; try done.
  - rewrite string_app_nil_l. change (String c (String.substring 0 (String.length s) s) = String c s).
    by rewrite substring_full.
  - by rewrite string_app_cons, IH.
Qed.

Lemma substring_length (n m : nat) (s : string) :
  n + m <= String.length s -> String.length (String.substring n m s) = m.
Proof.
  revert n m. induction s as [|c s IH]; intros [|n] [|m] Hle; simpl in *; try done; try lia.
  - f_equal. apply IH. lia.
  - apply IH. lia.
  - apply IH. lia.
Qed.
End StringLemmas.
