(* ===== verification/JsValue.v ===== *)
(** JavaScript values as the program handles them: the decoded JSON body of
    the portfolio endpoint and the error objects of RTK Query reach the
    components as [any] and are inspected with [typeof], truthiness tests,
    property reads and [Object.entries].  This file models those values and
    operations after the ECMAScript definitions the code relies on. *)

From S2P Require Import Prelude.
From Stdlib Require Import QArith Ascii Sorted.
Local Close Scope Q_scope.
Local Open Scope js_scope.

(** ** Values *)

(** A JavaScript number: an exact rational, the two infinities or NaN. *)
Inductive number : Type :=
  | NFin (q : Q)
  | NPosInf
  | NNegInf
  | NNaN.

#[warnings="-register-all"]
Inductive value : Type :=
  | VUndefined
  | VNull
  | VBool (b : bool)
  | VNum (n : number)
  | VStr (s : string)
  | VArr (elems : list value)
  | VObj (props : list (string * value)).

Definition num_of_Z (z : Z) : value := VNum (NFin (inject_Z z)).
Definition num_of_nat (n : nat) : value := num_of_Z (Z.of_nat n).

(** [typeof v]; functions and symbols do not occur in the program's data. *)
Definition typeof (v : value) : string :=
  match v with
  | VUndefined => "undefined"
  | VNull => "object"
  | VBool _ => "boolean"
  | VNum _ => "number"
  | VStr _ => "string"
  | VArr _ | VObj _ => "object"
  end.

(** ToBoolean: the test of [if (x)], [x && y] and [!x]. *)
Definition truthy (v : value) : bool :=
  match v with
  | VUndefined | VNull => false
  | VBool b => b
  | VNum (NFin q) => negb (Qeq_bool q 0)
  | VNum NNaN => false
  | VNum _ => true
  | VStr s => negb (String.eqb s "")
  | VArr _ | VObj _ => true
  end.

Definition nullish (v : value) : bool :=
  match v with VUndefined | VNull => true | _ => false end.

(** ** Array indices

    A property key is an array index when it is the canonical decimal
    string of an integer in [0, 2^32 - 2]: no sign, no leading zero. *)

Definition digit_val (c : Ascii.ascii) : option N :=
  let n := Ascii.N_of_ascii c in
  if (48 <=? n)%N && (n <=? 57)%N then Some (n - 48)%N else None.

Fixpoint digits_value (acc : N) (s : string) : option N :=
  match s with
  | EmptyString => Some acc
  | String c s' =>
      match digit_val c with
      | Some d => digits_value (10 * acc + d)%N s'
      | None => None
      end
  end.

Definition max_array_index : N := 4294967294%N.

Definition array_index (k : string) : option N :=
  match k with
  | EmptyString => None
  | String c rest =>
      if Ascii.eqb c "0"%char then
        (if String.eqb rest "" then Some 0%N else None)
      else
        match digits_value 0 k with
        | Some n => if (n <=? max_array_index)%N then Some n else None
        | None => None
        end
  end.

Definition is_array_index (k : string) : bool :=
  match array_index k with Some _ => true | None => false end.

(** The decimal string of a natural number, most significant digit first;
    [fuel] bounds the number of digits. *)
Definition digit_char (d : N) : Ascii.ascii := Ascii.ascii_of_N (48 + d).

Fixpoint show_digits (fuel : nat) (n : N) : string :=
  match fuel with
  | O => EmptyString
  | S fuel' =>
      (if (n <? 10)%N then EmptyString else show_digits fuel' (n / 10))
      ++ String (digit_char (n mod 10)) EmptyString
  end.

(** [n] has fewer than [N.size n] binary digits, hence fewer decimal ones. *)
Definition show_N (n : N) : string := show_digits (S (N.to_nat (N.size n))) n.

Definition index_string (n : N) : string := show_N n.

(** ** Property access *)

Fixpoint assoc_lookup {A} (k : string) (ps : list (string * A)) : option A :=
  match ps with
  | [] => None
  | (k', v) :: ps' => if String.eqb k k' then Some v else assoc_lookup k ps'
  end.

Definition string_chars (s : string) : list value :=
  map (fun c => VStr (String c EmptyString)) (String.list_ascii_of_string s).

(** [GetV(v, k)], the value of [v.k] or [v[k]]: reading a property of
    [undefined] or [null] throws a [TypeError]; a missing property reads
    as [undefined] (no property of the prototypes is read by the code). *)
Definition get (v : value) (k : string) : completion value :=
  match v with
  | VUndefined => throw! ("Cannot read properties of undefined (reading '" ++ k ++ "')")
  | VNull => throw! ("Cannot read properties of null (reading '" ++ k ++ "')")
  | VObj ps => Normal (default VUndefined (assoc_lookup k ps))
  | VArr es =>
      if String.eqb k "length" then Normal (num_of_nat (length es))
      else match array_index k with
           | Some i => Normal (default VUndefined (es !! N.to_nat i))
           | None => Normal VUndefined
           end
  | VStr s =>
      if String.eqb k "length" then Normal (num_of_nat (String.length s))
      else match array_index k with
           | Some i => Normal (default VUndefined (string_chars s !! N.to_nat i))
           | None => Normal VUndefined
           end
  | VBool _ | VNum _ => Normal VUndefined
  end.

(** A chain of reads [v.k1.k2...kn], each of which may throw. *)
Fixpoint get_path (v : value) (ks : list string) : completion value :=
  match ks with
  | [] => Normal v
  | k :: ks' => get v k ≫= fun w => get_path w ks'
  end.

(** [x === n] for a number literal [n]. *)
Definition strict_eq_num (v : value) (q : Q) : bool :=
  match v with
  | VNum (NFin p) => Qeq_bool p q
  | _ => false
  end.

(** ** Objects created by [JSON.parse] and their enumeration order *)

(** [CreateDataProperty]: an existing key keeps its position and takes the
    new value; a new key is appended. *)
Fixpoint obj_set (ps : list (string * value)) (k : string) (v : value) :
    list (string * value) :=
  match ps with
  | [] => [(k, v)]
  | (k', v') :: ps' =>
      if String.eqb k k' then (k', v) :: ps' else (k', v') :: obj_set ps' k v
  end.

(** The object a JSON object literal with members [kvs] decodes to: later
    duplicates overwrite earlier ones in place. *)
Definition json_object (kvs : list (string * value)) : value :=
  VObj (fold_left (fun ps '(k, v) => obj_set ps k v) kvs []).

Definition index_of_key {A} (p : string * A) : N := default 0%N (array_index p.1).

Fixpoint insert_by_index {A} (p : string * A) (ps : list (string * A)) : list (string * A) :=
  match ps with
  | [] => [p]
  | q :: ps' =>
      if (index_of_key p <=? index_of_key q)%N then p :: q :: ps'
      else q :: insert_by_index p ps'
  end.

Definition sort_by_index {A} (ps : list (string * A)) : list (string * A) :=
  fold_right insert_by_index [] ps.

(** [OrdinaryOwnPropertyKeys]: array indices in ascending numeric order,
    then the other string keys in creation order. *)
Definition own_entries {A} (ps : list (string * A)) : list (string * A) :=
  sort_by_index (filter (fun p => is_array_index p.1 = true) ps)
  ++ filter (fun p => is_array_index p.1 = false) ps.

(** [Object.entries(v)]: [ToObject] throws on [undefined] and [null]; a
    string enumerates its characters, an array its elements. *)
Definition object_entries (v : value) : completion (list (string * value)) :=
  match v with
  | VUndefined | VNull => throw! "Cannot convert undefined or null to object"
  | VObj ps => Normal (own_entries ps)
  | VArr es => Normal (imap (fun i e => (index_string (N.of_nat i), e)) es)
  | VStr s => Normal (imap (fun i e => (index_string (N.of_nat i), e)) (string_chars s))
  | VBool _ | VNum _ => Normal []
  end.

(** ** Lemmas *)

(** Reading a property throws exactly on [undefined] and [null]. *)
Lemma get_throws_iff (v : value) (k : string) :
  is_normal (get v k) = false <-> nullish v = true.
Proof.
  destruct v; simpl; try (split; [discriminate | done]); try done.
  - destruct (String.eqb k "length"); [|destruct (array_index k)]; split; done.
  - destruct (String.eqb k "length"); [|destruct (array_index k)]; split; done.
Qed.

Lemma get_obj (ps : list (string * value)) (k : string) :
  get (VObj ps) k = Normal (default VUndefined (assoc_lookup k ps)).
Proof. reflexivity. Qed.

Lemma get_not_nullish (v : value) (k : string) :
  nullish v = false -> exists w, get v k = Normal w.
Proof.
  intros Hn. destruct (get v k) as [w|e] eqn:Hg; [eauto|].
  assert (Hc : is_normal (get v k) = false) by (rewrite Hg; reflexivity).
  apply get_throws_iff in Hc. congruence.
Qed.

Lemma truthy_not_nullish (v : value) : truthy v = true -> nullish v = false.
Proof. by destruct v. Qed.

Lemma typeof_object_iff (v : value) :
  typeof v = "object" <-> v = VNull \/ (exists es, v = VArr es) \/ (exists ps, v = VObj ps).
Proof.
  destruct v; simpl; split; try discriminate; try (intros [?|[[? ?]|[? ?]]]; discriminate);
    eauto.
Qed.

Lemma strict_eq_num_nat (n : nat) : strict_eq_num (num_of_nat n) 0 = Nat.eqb n 0.
Proof.
  unfold strict_eq_num, num_of_nat, num_of_Z.
  destruct (Qeq_bool _ _) eqn:H; symmetry.
  - apply Qeq_bool_iff in H. unfold Qeq in H. simpl in H. apply Nat.eqb_eq. lia.
  - apply Qeq_bool_neq in H. apply Nat.eqb_neq. intros ->. apply H. reflexivity.
Qed.

#[export] Hint Rewrite get_obj strict_eq_num_nat : js_simpl.
#[export] Hint Resolve truthy_not_nullish : js.

(** ** Enumeration order *)

Definition map_values {A B} (f : A -> B) (ps : list (string * A)) : list (string * B) :=
  map (fun p => (p.1, f p.2)) ps.

Section OwnEntries.
Context {A B : Type} (f : A -> B).

Lemma insert_by_index_map (p : string * A) (ps : list (string * A)) :
  insert_by_index (p.1, f p.2) (map_values f ps) = map_values f (insert_by_index p ps).
Proof.
  induction ps as [|q ps IH]; simpl; [done|].
  unfold index_of_key; simpl. destruct (_ <=? _)%N; simpl; [done|].
  by rewrite <- IH.
Qed.

Lemma filter_map_values (P : string -> bool) (b : bool) (ps : list (string * A)) :
  filter (fun p => P p.1 = b) (map_values f ps) = map_values f (filter (fun p => P p.1 = b) ps).
Proof.
  induction ps as [|q ps IH]; [done|]. unfold map_values in *. simpl.
  rewrite !filter_cons. simpl. destruct (decide (P q.1 = b)); simpl; by rewrite IH.
Qed.

Lemma sort_by_index_map (ps : list (string * A)) :
  sort_by_index (map_values f ps) = map_values f (sort_by_index ps).
Proof.
  induction ps as [|q ps IH]; [done|].
  change (insert_by_index (q.1, f q.2) (sort_by_index (map_values f ps))
          = map_values f (insert_by_index q (sort_by_index ps))).
  rewrite IH. apply insert_by_index_map.
Qed.

(** The enumeration order depends on the keys only. *)
Lemma own_entries_map_values (ps : list (string * A)) :
  own_entries (map_values f ps) = map_values f (own_entries ps).
Proof.
  unfold own_entries. unfold map_values at 3. rewrite map_app. fold (map_values f).
  rewrite !filter_map_values.
  by rewrite ?sort_by_index_map.
Qed.

Lemma assoc_lookup_map_values (k : string) (ps : list (string * A)) :
  assoc_lookup k (map_values f ps) = f <$> assoc_lookup k ps.
Proof.
  induction ps as [|[k' v] ps IH]; [done|]. simpl.
  destruct (String.eqb k k'); [done | exact IH].
Qed.

Lemma insert_by_index_perm (p : string * A) (ps : list (string * A)) :
  insert_by_index p ps ≡ₚ p :: ps.
Proof.
  induction ps as [|q ps IH]; simpl; [done|].
  destruct (_ <=? _)%N; [done|]. rewrite IH. constructor.
Qed.

Lemma sort_by_index_perm (ps : list (string * A)) : sort_by_index ps ≡ₚ ps.
Proof.
  induction ps as [|q qs IH]; simpl; [done|]. by rewrite insert_by_index_perm, IH.
Qed.

(** [Object.entries] of an object enumerates each own property once. *)
Lemma own_entries_perm (ps : list (string * A)) : own_entries ps ≡ₚ ps.
Proof.
  unfold own_entries.
  transitivity (filter (fun p => is_array_index p.1 = true) ps
                ++ filter (fun p => is_array_index p.1 = false) ps).
  - f_equiv; by rewrite ?sort_by_index_perm.
  - induction ps as [|q ps IH]; simpl; [done|].
    rewrite !filter_cons. simpl.
    destruct (is_array_index q.1); repeat case_decide; simpl; try congruence.
    + by rewrite IH.
    + rewrite <- Permutation_middle. by rewrite IH.
Qed.

(** Without numeric keys, [Object.entries] keeps the creation order. *)
Lemma own_entries_no_index (ps : list (string * A)) :
  Forall (fun p => is_array_index p.1 = false) ps -> own_entries ps = ps.
Proof.
  intros H. unfold own_entries.
  rewrite filter_Forall_nil, filter_Forall_id; [done..|].
  eapply Forall_impl; [exact H|]. intros p Hp. by rewrite Hp.
Qed.
End OwnEntries.

(** ** Index keys come sorted *)

Section IndexOrder.
Context {A : Type}.

Definition index_le (p q : string * A) : Prop := (index_of_key p <= index_of_key q)%N.

Lemma insert_by_index_sorted (p : string * A) (ps : list (string * A)) :
  Sorted index_le ps -> Sorted index_le (insert_by_index p ps).
Proof.
  induction 1 as [|q ps Hs IH Hhd]; simpl; [by repeat constructor|].
  destruct (N.leb_spec (index_of_key p) (index_of_key q)) as [Hle|Hgt].
  - constructor; [by constructor|]. by constructor.
  - constructor; [exact IH|].
    destruct ps as [|r ps]; simpl; [constructor; unfold index_le; lia|].
    inversion Hhd; subst.
    destruct (N.leb_spec (index_of_key p) (index_of_key r)); constructor; unfold index_le in *; lia.
Qed.

Lemma sort_by_index_sorted (ps : list (string * A)) : Sorted index_le (sort_by_index ps).
Proof. induction ps as [|p ps IH]; simpl; [constructor|]. by apply insert_by_index_sorted. Qed.

Lemma sorted_filter (P : string * A -> Prop) `{!forall x, Decision (P x)} (ps : list (string * A)) :
  Sorted index_le ps -> Sorted index_le (filter P ps).
Proof.
  intros Hs. apply StronglySorted_Sorted.
  apply Sorted_StronglySorted in Hs; [|intros ???; unfold index_le; lia].
  induction Hs as [|p ps Hs IH Hall]; [constructor|]. rewrite filter_cons.
  case_decide; [|done]. constructor; [done|]. apply Forall_forall. intros q Hq.
  apply list_elem_of_filter in Hq as [_ Hq]. by rewrite Forall_forall in Hall; apply Hall.
Qed.
End IndexOrder.

(** ** Decimal digits *)

Lemma digit_val_char (d : N) : (d < 10)%N -> digit_val (digit_char d) = Some d.
Proof.
  intros Hd. unfold digit_val, digit_char. rewrite Ascii.N_ascii_embedding by lia.
  destruct (N.leb_spec 48 (48 + d)), (N.leb_spec (48 + d) 57); simpl; try lia.
  f_equal. lia.
Qed.

Lemma digits_value_app (acc : N) (s1 s2 : string) :
  digits_value acc (s1 ++ s2) =
    match digits_value acc s1 with Some a => digits_value a s2 | None => None end.
Proof.
  revert acc. induction s1 as [|c s1 IH]; intros acc; [done|]. simpl.
  destruct (digit_val c); [apply IH | done].
Qed.

Lemma digits_value_show (fuel : nat) (n : N) :
  (n < 10 ^ N.of_nat fuel)%N -> digits_value 0 (show_digits fuel n) = Some n.
Proof.
  revert n. induction fuel as [|fuel IH]; intros n Hn.
  - simpl in Hn. simpl. f_equal. lia.
  - rewrite Nat2N.inj_succ, N.pow_succ_r' in Hn. simpl.
    destruct (N.ltb_spec n 10) as [Hlt|Hge].
    + simpl. rewrite digit_val_char by (apply N.mod_lt; lia).
      f_equal. rewrite N.mod_small by done. lia.
    + rewrite digits_value_app, IH by (apply N.Div0.div_lt_upper_bound; lia).
      simpl. rewrite digit_val_char by (apply N.mod_lt; lia).
      f_equal. pose proof (N.div_mod n 10). lia.
Qed.

(** Printing a natural number in decimal and reading it back is the identity. *)
Lemma show_N_value (n : N) : digits_value 0 (show_N n) = Some n.
Proof.
  apply digits_value_show. pose proof (N.size_gt n) as Hs.
  assert (Hp : (2 ^ N.size n <= 10 ^ N.size n)%N) by (apply N.pow_le_mono_l; lia).
  rewrite Nat2N.inj_succ, N2Nat.id, N.pow_succ_r'. lia.
Qed.

Lemma digit_char_not_zero (d : N) : (0 < d < 10)%N -> Ascii.eqb (digit_char d) "0"%char = false.
Proof.
  intros Hd. apply Ascii.eqb_neq. intros E. unfold digit_char in E.
  apply (f_equal Ascii.N_of_ascii) in E. rewrite Ascii.N_ascii_embedding in E by lia.
  change (Ascii.N_of_ascii "0"%char) with 48%N in E. lia.
Qed.

(** A positive number is printed with a nonzero leading digit. *)
Lemma show_digits_head (fuel : nat) (n : N) :
  (0 < n < 10 ^ N.of_nat fuel)%N ->
  exists d rest, show_digits fuel n = String (digit_char d) rest /\ (0 < d < 10)%N.
Proof.
  revert n. induction fuel as [|fuel IH]; intros n Hn; [simpl in Hn; lia|].
  rewrite Nat2N.inj_succ, N.pow_succ_r' in Hn. simpl.
  destruct (N.ltb_spec n 10) as [Hlt|Hge].
  - exists (n mod 10)%N, "". rewrite N.mod_small by done. split; [reflexivity|lia].
  - destruct (IH (n / 10)%N) as (d & rest & -> & Hd).
    { split; [apply N.div_str_pos; lia|apply N.Div0.div_lt_upper_bound; lia]. }
    by exists d, (rest ++ String (digit_char (n mod 10)%N) "")%string.
Qed.

(** The key [Object.entries] prints for an index [n] reads back as [n]
    when [n] is an array index (at most [2^32 - 2]); above that the same
    text is an ordinary property name. *)
Theorem index_key_roundtrip (n : N) :
  array_index (index_string n) = if (n <=? max_array_index)%N then Some n else None.
Proof.
  unfold index_string. destruct (N.eq_dec n 0) as [->|Hn]; [reflexivity|].
  pose proof (show_N_value n) as Hv. unfold show_N in *.
  destruct (show_digits_head (S (N.to_nat (N.size n))) n) as (d & rest & Heq & Hd).
  { split; [lia|]. pose proof (N.size_gt n).
    assert ((2 ^ N.size n <= 10 ^ N.size n)%N) by (apply N.pow_le_mono_l; lia).
    rewrite Nat2N.inj_succ, N2Nat.id, N.pow_succ_r'. lia. }
  rewrite Heq in Hv |- *. unfold array_index. rewrite digit_char_not_zero by done.
  rewrite Hv. reflexivity.
Qed.
