(* ===== verification/ErrorUtils.v ===== *)
(** [getErrorFromException] of src/src/utils/error.utils.ts: the message of
    the dashboard's error banner, computed from whatever RTK Query reports as
    the query's [error].  The function is modelled statement by statement,
    with the [TypeError]s its property reads can raise; the theorems give its
    result on every branch and the exact set of inputs on which it throws. *)

From S2P Require Import Prelude JsValue.
Local Open Scope js_scope.

Definition something_went_wrong : string := "Something Went Wrong".

(** error.utils.ts, lines 1-19.  The body reads [item.data] twice and
    [item.response.data.error] as a chain; a function that falls off its end
    returns [undefined]. *)
Definition getErrorFromException (e : value) : completion value :=
  if String.eqb (typeof e) "string" then Normal e
  else if String.eqb (typeof e) "object" then
    let item := e in
    message ← get item "message";
    if truthy message then Normal message
    else
      data ← get item "data";
      if truthy data then
        data' ← get item "data";
        dmessage ← get data' "message";
        if truthy dmessage then Normal dmessage
        else Normal (VStr something_went_wrong)
      else
        response ← get item "response";
        if truthy response then get_path item ["response"; "data"; "error"]
        else Normal (VStr something_went_wrong)
  else Normal VUndefined.

(** The condition under which the body throws, written on the input: the
    input is [null], or an object whose [message] and [data] are falsy and
    whose truthy [response] has a nullish [data]. *)
Definition error_throws (e : value) : bool :=
  match e with
  | VNull => true
  | VArr _ => false
  | VObj ps =>
      let rd := default VUndefined (assoc_lookup "response" ps) in
      negb (truthy (default VUndefined (assoc_lookup "message" ps)))
      && negb (truthy (default VUndefined (assoc_lookup "data" ps)))
      && truthy rd
      && match get rd "data" with Normal d => nullish d | Throw _ => true end
  | _ => false
  end.

Definition lookup_or_undef (k : string) (ps : list (string * value)) : value :=
  default VUndefined (assoc_lookup k ps).

(** ** Branch lemmas *)

Section ObjectBranches.
Context (ps : list (string * value)).
Let msg := lookup_or_undef "message" ps.
Let dat := lookup_or_undef "data" ps.
Let resp := lookup_or_undef "response" ps.

Lemma getError_obj_unfold :
  getErrorFromException (VObj ps) =
    if truthy msg then Normal msg
    else if truthy dat then
      (get dat "message" ≫= fun m =>
         if truthy m then Normal m else Normal (VStr something_went_wrong))
    else if truthy resp then get_path resp ["data"; "error"]
    else Normal (VStr something_went_wrong).
Proof.
  unfold getErrorFromException, msg, dat, resp, lookup_or_undef; simpl_js.
  destruct (truthy _); [done|].
  destruct (truthy _); done.
Qed.
End ObjectBranches.

(** A read chain [r.data.error] from a value that is not nullish throws
    exactly when [r.data] is nullish. *)
Lemma get_path_data_error (r : value) :
  nullish r = false ->
  is_normal (get_path r ["data"; "error"]) =
    match get r "data" with Normal d => negb (nullish d) | Throw _ => false end.
Proof.
  intros Hr. destruct (get_not_nullish r "data" Hr) as [d Hd].
  simpl. rewrite Hd. simpl.
  destruct (get d "error") as [x|x] eqn:Hx; simpl.
  - destruct (nullish d) eqn:Hn; [|done].
    assert (Hc : is_normal (get d "error") = false) by (by apply get_throws_iff).
    by rewrite Hx in Hc.
  - assert (Hc : is_normal (get d "error") = false) by (by rewrite Hx).
    apply get_throws_iff in Hc. by rewrite Hc.
Qed.

(** ** The result on every branch *)

(** C38. An object with a truthy [message] yields that message, whatever its
    other fields. *)
Theorem getError_message (ps : list (string * value)) :
  truthy (lookup_or_undef "message" ps) = true ->
  getErrorFromException (VObj ps) = Normal (lookup_or_undef "message" ps).
Proof. intros Hm. rewrite getError_obj_unfold. by rewrite Hm. Qed.

(** C24. Without a truthy [message], a truthy [data] decides the result: its
    truthy [message], else the generic text; a [response] field is then
    never consulted. *)
Theorem getError_data (ps : list (string * value)) (m : value) :
  truthy (lookup_or_undef "message" ps) = false ->
  truthy (lookup_or_undef "data" ps) = true ->
  get (lookup_or_undef "data" ps) "message" = Normal m ->
  getErrorFromException (VObj ps) =
    Normal (if truthy m then m else VStr something_went_wrong).
Proof.
  intros Hm Hd Hdm. rewrite getError_obj_unfold, Hm, Hd, Hdm. simpl.
  by destruct (truthy m).
Qed.

(** C39. Without a truthy [message] or [data], a truthy [response] yields
    [response.data.error], whatever it is ([undefined] included). *)
Theorem getError_response (ps : list (string * value)) :
  truthy (lookup_or_undef "message" ps) = false ->
  truthy (lookup_or_undef "data" ps) = false ->
  truthy (lookup_or_undef "response" ps) = true ->
  getErrorFromException (VObj ps) = get_path (lookup_or_undef "response" ps) ["data"; "error"].
Proof. intros Hm Hd Hr. by rewrite getError_obj_unfold, Hm, Hd, Hr. Qed.

(** C40. An object with none of the three fields truthy, and any array,
    yields the generic "Something Went Wrong". *)
Theorem getError_fallback (v : value) :
  (exists es, v = VArr es) \/
  (exists ps, v = VObj ps /\
     truthy (lookup_or_undef "message" ps) = false /\
     truthy (lookup_or_undef "data" ps) = false /\
     truthy (lookup_or_undef "response" ps) = false) ->
  getErrorFromException v = Normal (VStr something_went_wrong).
Proof.
  intros [[es ->] | (ps & -> & Hm & Hd & Hr)]; [reflexivity|].
  by rewrite getError_obj_unfold, Hm, Hd, Hr.
Qed.

(** A value that is neither a string nor an object ([undefined], a
    boolean, a number) falls off the end of the function: the result is
    [undefined], not the generic message. *)
Theorem getError_primitive (v : value) :
  typeof v <> "string" -> typeof v <> "object" ->
  getErrorFromException v = Normal VUndefined.
Proof.
  intros Hs Ho. unfold getErrorFromException.
  destruct (String.eqb_spec (typeof v) "string"); [done|].
  destruct (String.eqb_spec (typeof v) "object"); done.
Qed.

(** C1. The function throws a [TypeError] exactly on [null] (whose typeof
    is "object") and on an object whose only truthy field of the three is a
    [response] without [data]. *)
Theorem getError_throws_iff (e : value) :
  is_normal (getErrorFromException e) = false <-> error_throws e = true.
Proof.
  destruct e as [| | b | n | s | es | ps]; try (simpl; split; done).
  unfold error_throws. rewrite getError_obj_unfold. unfold lookup_or_undef.
  set (m := default VUndefined (assoc_lookup "message" ps)).
  set (d := default VUndefined (assoc_lookup "data" ps)).
  set (r := default VUndefined (assoc_lookup "response" ps)).
  destruct (truthy m); cbn [andb negb]; [split; done|].
  destruct (truthy d) eqn:Hd; cbn [andb negb].
  - destruct (get_not_nullish d "message") as [x ->]; [auto with js|].
    simpl. destruct (truthy x); split; done.
  - destruct (truthy r) eqn:Hr; cbn [andb negb]; [|split; done].
    rewrite get_path_data_error by auto with js.
    destruct (get r "data"); simpl; [|split; done].
    destruct (nullish a); split; done.
Qed.

(** The five cases of the error taxonomy, on the inputs the spec lists:
    ["boom"], [{message: "x"}], [{data: {message: "y"}}],
    [{response: {data: {error: "z"}}}] and [{}]. *)
Theorem getError_taxonomy_examples :
  getErrorFromException (VStr "boom") = Normal (VStr "boom") /\
  getErrorFromException (json_object [("message", VStr "x")]) = Normal (VStr "x") /\
  getErrorFromException (json_object [("data", json_object [("message", VStr "y")])])
    = Normal (VStr "y") /\
  getErrorFromException
    (json_object [("response", json_object [("data", json_object [("error", VStr "z")])])])
    = Normal (VStr "z") /\
  getErrorFromException (json_object []) = Normal (VStr something_went_wrong).
Proof. repeat split; reflexivity. Qed.

(** ** Witnesses *)

Definition ex_msg_obj : list (string * value) := [("message", VStr "x"); ("data", VNull)].
Definition ex_data_obj : list (string * value) :=
  [("status", num_of_Z 500); ("data", VObj [("detail", VStr "boom")]);
   ("response", VObj [("data", VObj [("error", VStr "z")])])].
Definition ex_resp_obj : list (string * value) :=
  [("response", VObj [("data", VObj [("error", VStr "z")])])].

Lemma getError_message_witness :
  getErrorFromException (VObj ex_msg_obj) = Normal (VStr "x").
Proof. apply (getError_message ex_msg_obj). reflexivity. Defined.

(** The [data] field shadows the [response] field: the generic text, not "z". *)
Lemma getError_data_witness :
  getErrorFromException (VObj ex_data_obj) = Normal (VStr something_went_wrong).
Proof. apply (getError_data ex_data_obj VUndefined); reflexivity. Defined.

Lemma getError_response_witness :
  getErrorFromException (VObj ex_resp_obj) = Normal (VStr "z").
Proof. rewrite (getError_response ex_resp_obj); reflexivity. Defined.

Lemma getError_fallback_witness :
  getErrorFromException (VObj [("status", VStr "FETCH_ERROR"); ("error", VStr "TypeError: Failed to fetch")])
  = Normal (VStr something_went_wrong).
Proof.
  apply getError_fallback. right. eexists. split; [reflexivity|]. repeat split.
Defined.

Lemma getError_primitive_witness :
  getErrorFromException (num_of_Z 404) = Normal VUndefined.
Proof. apply getError_primitive; discriminate. Defined.
