(* ===== verification/Portfolio.v ===== *)
(** The response of [GET /api/portfolio] as src/src/api/api-types.ts types
    it: one Module per interface, with its record and the JSON value a record
    of that type is sent as.  The TypeScript types are erased at run time,
    so the components receive the JSON value; the records here describe the
    well-typed values, on which the components' theorems are stated. *)

From S2P Require Import Prelude JsValue.
From Stdlib Require Import QArith.
Local Close Scope Q_scope.

(** [gainLossColor: "green" | "red"]. *)
Inductive GainLossColor : Type := green | red.

Definition color_string (c : GainLossColor) : string :=
  match c with green => "green" | red => "red" end.

Definition qnum (q : Q) : value := VNum (NFin q).

Module Stock.
(** api-types.ts, lines 10-24. *)
Record t : Type := mk {
  particulars : string;
  symbol : string;
  purchasePrice : Q;
  quantity : Q;
  investment : Q;
  portfolioPercentage : string;
  exchange : string;
  cmp : Q;
  presentValue : Q;
  gainLoss : Q;
  gainLossColor : GainLossColor;
  peRatio : Q;
  latestEarnings : Q
}.

Definition to_value (s : t) : value :=
  VObj [("particulars", VStr (particulars s)); ("symbol", VStr (symbol s));
        ("purchasePrice", qnum (purchasePrice s)); ("quantity", qnum (quantity s));
        ("investment", qnum (investment s));
        ("portfolioPercentage", VStr (portfolioPercentage s));
        ("exchange", VStr (exchange s)); ("cmp", qnum (cmp s));
        ("presentValue", qnum (presentValue s)); ("gainLoss", qnum (gainLoss s));
        ("gainLossColor", VStr (color_string (gainLossColor s)));
        ("peRatio", qnum (peRatio s)); ("latestEarnings", qnum (latestEarnings s))].
End Stock.

Module SectorSummary.
(** api-types.ts, lines 26-31. *)
Record t : Type := mk {
  totalInvestment : Q;
  totalPresentValue : Q;
  totalGainLoss : Q;
  gainLossColor : GainLossColor
}.

Definition to_value (s : t) : value :=
  VObj [("totalInvestment", qnum (totalInvestment s));
        ("totalPresentValue", qnum (totalPresentValue s));
        ("totalGainLoss", qnum (totalGainLoss s));
        ("gainLossColor", VStr (color_string (gainLossColor s)))].
End SectorSummary.

(** api-types.ts, lines 33-38: the same fields as [SectorSummary]. *)
Module PortfolioSummary := SectorSummary.

(** api-types.ts, lines 1-8: an index signature whose values are a sector
    ([{stocks, summary}]) or a [PortfolioSummary]. *)
Inductive entry : Type :=
  | SectorEntry (stocks : list Stock.t) (summary : SectorSummary.t)
  | SummaryEntry (summary : PortfolioSummary.t).

Definition PortfolioResponse : Type := list (string * entry).

Definition entry_to_value (e : entry) : value :=
  match e with
  | SectorEntry sts sum =>
      VObj [("stocks", VArr (map Stock.to_value sts)); ("summary", SectorSummary.to_value sum)]
  | SummaryEntry sum => PortfolioSummary.to_value sum
  end.

Definition response_to_value (r : PortfolioResponse) : value :=
  VObj (map_values entry_to_value r).

Definition summary_key : string := "portfolioSummary".

(** The contract the components rely on (spec, section 3): keys are
    distinct, and the reserved key holds the summary and only it does. *)
Definition wf_response (r : PortfolioResponse) : Prop :=
  NoDup (map fst r) /\
  Forall (fun p => match p.2 with
                   | SummaryEntry _ => p.1 = summary_key
                   | SectorEntry _ _ => p.1 <> summary_key
                   end) r.

(** [key !== "portfolioSummary"]: the filter that the table and both
    sector charts apply to [Object.entries(data)]. *)
Definition is_sector_key (k : string) : bool := negb (String.eqb k summary_key).

(** The sectors of a response, in the order [Object.entries] lists them. *)
Definition response_sectors (r : PortfolioResponse) : list (string * entry) :=
  filter (fun p => is_sector_key p.1 = true) (own_entries r).
