(* ===== verification/Dashboard.v ===== *)
(** [PortfolioTable] of src/src/components/portforlio-table.tsx: the page.
    Its render is modelled as a function from what the query hook returns
    and the component's state to the page it shows (or the [TypeError] its
    own statements throw); the [lastUpdated] state and its effect are
    modelled as explicit state passing over a sequence of renders.  The
    children (cards, charts, tables) are carried in the page as the values
    they receive; their own renders are modelled in later files. *)

From S2P Require Import Prelude JsValue ErrorUtils Portfolio.
From Stdlib Require Import QArith Sorted.
Local Close Scope Q_scope.
Local Open Scope js_scope.

(** [const { data, error, isLoading } = useGetPortfolioInfoQuery(...)]. *)
Record query_result : Type := {
  data : value;
  error : value;
  isLoading : bool
}.

(** One entry of [sectors.map(...)], lines 200-243. *)
Inductive section : Type :=
  | EmptySectorCard (sectorName : string)
  | SectorSection (sectorName : string) (summary : value) (stocks : value).

(** The four pages the component returns. *)
Inductive page : Type :=
  | LoadingPage
  | ErrorPage (message : value)
  | NoDataPage
  | DashboardPage (summaryCard : option value) (chartsData : value)
                  (sections : list section) (lastUpdated : Z).

(** The component's state: [lastUpdated] (line 24) and the dependency the
    effect of lines 27-31 last ran with. *)
Record table_state : Type := {
  lastUpdated : Z;
  prevData : option value
}.

(** The callback of [sectors.map], lines 200-243: [sector.stocks.length]
    is read first; [sector.summary] and [sector.stocks] are then passed to
    the children. *)
Definition render_sector (p : string * value) : completion section :=
  let '(sectorName, sector) := p in
  stocks ← get sector "stocks";
  len ← get stocks "length";
  if strict_eq_num len 0 then Normal (EmptySectorCard sectorName)
  else
    summary ← get sector "summary";
    stocks' ← get sector "stocks";
    Normal (SectorSection sectorName summary stocks').

(** The render, lines 20-259: the early returns for loading (33-52), error
    (54-75) and missing data (77-91), then the sector extraction (93-97), the
    summary card guard (146-148) and the sector sections (198-244). *)
Definition PortfolioTable (q : query_result) (st : table_state) : completion page :=
  if isLoading q then Normal LoadingPage
  else if truthy (error q) then ErrorPage <$> getErrorFromException (error q)
  else if negb (truthy (data q)) then Normal NoDataPage
  else
    entries ← object_entries (data q);
    let sectors := filter (fun p => is_sector_key p.1 = true) entries in
    portfolioSummary ← get (data q) "portfolioSummary";
    sections ← js_map render_sector sectors;
    Normal (DashboardPage (if truthy portfolioSummary then Some portfolioSummary else None)
                          (data q) sections (lastUpdated st)).

(** [Object.is] on the effect's dependency: RTK Query shares structure
    between successive results, so a refetch that returns an equal body
    keeps the previous object and the dependency is unchanged. *)
Fixpoint same_value (v w : value) : bool :=
  match v, w with
  | VUndefined, VUndefined | VNull, VNull => true
  | VBool a, VBool b => Bool.eqb a b
  | VNum (NFin p), VNum (NFin q) => Qeq_bool p q
  | VNum NPosInf, VNum NPosInf | VNum NNegInf, VNum NNegInf | VNum NNaN, VNum NNaN => true
  | VStr s, VStr t => String.eqb s t
  | VArr vs, VArr ws =>
      (fix go vs ws := match vs, ws with
                       | [], [] => true
                       | v :: vs', w :: ws' => same_value v w && go vs' ws'
                       | _, _ => false
                       end) vs ws
  | VObj ps, VObj qs =>
      (fix go ps qs := match ps, qs with
                       | [], [] => true
                       | (k, v) :: ps', (k', w) :: qs' =>
                           String.eqb k k' && same_value v w && go ps' qs'
                       | _, _ => false
                       end) ps qs
  | _, _ => false
  end.

(** [useState<Date>(new Date())], line 24, at mount time [now]. *)
Definition mount (now : Z) : table_state := {| lastUpdated := now; prevData := None |}.

(** The effect of lines 27-31 after a render at time [now] whose [data]
    is [d]: React compares [d] with the dependency of the previous render
    (there is none after the first render) and runs the body when it
    changed; the body sets [lastUpdated] when [d] is truthy.  The hook keeps
    [d] as the dependency for the next comparison either way. *)
Definition lastUpdated_effect (now : Z) (d : value) (st : table_state) : table_state :=
  let changed := match prevData st with None => true | Some d' => negb (same_value d' d) end in
  {| lastUpdated := if changed && truthy d then now else lastUpdated st; prevData := Some d |}.

(** A sequence of renders, each at a time with the data it saw. *)
Definition run_effects (st : table_state) (renders : list (Z * value)) : table_state :=
  fold_left (fun st '(t, d) => lastUpdated_effect t d st) renders st.

(** ** The dashboard a well-typed response renders *)

Definition section_of (p : string * entry) : section :=
  match p.2 with
  | SectorEntry [] _ => EmptySectorCard p.1
  | SectorEntry sts sum =>
      SectorSection p.1 (SectorSummary.to_value sum) (VArr (map Stock.to_value sts))
  | SummaryEntry _ => EmptySectorCard p.1
  end.

Definition summary_of (r : PortfolioResponse) : option value :=
  match assoc_lookup summary_key r with
  | Some e => Some (entry_to_value e)
  | None => None
  end.

Definition loaded (d : value) : query_result := {| data := d; error := VUndefined; isLoading := false |}.

(** ** Lemmas *)

Definition is_sector_entry (e : entry) : bool :=
  match e with SectorEntry _ _ => true | SummaryEntry _ => false end.

Lemma entry_to_value_truthy (e : entry) : truthy (entry_to_value e) = true.
Proof. by destruct e. Qed.

Lemma render_sector_entry (k : string) (sts : list Stock.t) (sum : SectorSummary.t) :
  render_sector (k, entry_to_value (SectorEntry sts sum)) = Normal (section_of (k, SectorEntry sts sum)).
Proof.
  unfold render_sector. cbn -[strict_eq_num num_of_nat].
  rewrite strict_eq_num_nat, length_map. by destruct sts.
Qed.

Lemma js_map_render_sectors (l : list (string * entry)) :
  Forall (fun p => is_sector_entry p.2 = true) l ->
  js_map render_sector (map_values entry_to_value l) = Normal (map section_of l).
Proof.
  induction 1 as [|[k [sts sum|s]] l Hp _ IH]; [done| |discriminate].
  simpl. fold (map_values entry_to_value l).
  pose proof (render_sector_entry k sts sum) as Hr. simpl in Hr. rewrite Hr, IH. done.
Qed.

(** In a well-formed response every sector key holds a sector. *)
Lemma wf_response_sectors (r : PortfolioResponse) :
  wf_response r -> Forall (fun p => is_sector_entry p.2 = true) (response_sectors r).
Proof.
  intros [_ Hall]. apply Forall_forall. intros [k e] Hin.
  unfold response_sectors in Hin. apply list_elem_of_filter in Hin as [Hk Hin].
  rewrite (own_entries_perm r) in Hin.
  rewrite Forall_forall in Hall. specialize (Hall _ Hin). simpl in *.
  destruct e; [done|]. unfold is_sector_key in Hk. subst k.
  by rewrite String.eqb_refl in Hk.
Qed.

(** [render_sector] throws exactly when the sector value or its [stocks]
    is [null] or [undefined]. *)
Definition sector_throws (v : value) : bool :=
  nullish v || match get v "stocks" with Normal s => nullish s | Throw _ => true end.

Lemma render_sector_throws_iff (p : string * value) :
  is_normal (render_sector p) = false <-> sector_throws p.2 = true.
Proof.
  destruct p as [k v]. unfold render_sector, sector_throws. simpl.
  destruct (nullish v) eqn:Hv; simpl.
  - destruct v; try discriminate; split; done.
  - destruct (get_not_nullish v "stocks" Hv) as [s Hs]. rewrite Hs. simpl.
    destruct (nullish s) eqn:Hn.
    + destruct s; try discriminate; split; done.
    + destruct (get_not_nullish s "length" Hn) as [l ->]. simpl.
      destruct (strict_eq_num l 0); [split; done|].
      destruct (get_not_nullish v "summary" Hv) as [m ->]. simpl.
      split; done.
Qed.

Lemma same_value_refl (v : value) : same_value v v = true.
Proof.
  revert v. fix IH 1. intros [| | b | [q| | | ] | s | vs | ps]; simpl; try reflexivity.
  - apply Bool.eqb_reflx.
  - apply Qeq_bool_refl.
  - apply String.eqb_refl.
  - revert vs. fix IHl 1. intros [|v vs]; [reflexivity|]. simpl. rewrite IH. exact (IHl vs).
  - revert ps. fix IHl 1. intros [|[k v] ps]; [reflexivity|]. simpl.
    rewrite String.eqb_refl, IH. exact (IHl ps).
Qed.

(** The dependency the hook keeps is the data of the last render. *)
Lemma run_effects_prevData (st : table_state) (rs : list (Z * value)) :
  prevData (run_effects st rs) = match last rs with Some (_, d) => Some d | None => prevData st end.
Proof.
  revert st. induction rs as [|[t d] rs IH]; intros st; [done|].
  unfold run_effects. simpl. fold (run_effects (lastUpdated_effect t d st) rs).
  rewrite IH. destruct rs as [|p rs']; [reflexivity|]. rewrite last_cons_cons.
  destruct (last (p :: rs')) as [[]|] eqn:E; [done|]. by apply last_None in E.
Qed.

(** A callback mapped over the sectors of an object, as the page and the
    charts do, throws exactly when it throws on some entry whose key is not
    "portfolioSummary". *)
Lemma sectors_map_throw_iff {B} (f : string * value -> completion B) (ps : list (string * value)) :
  is_normal (js_map f (filter (fun p => is_sector_key p.1 = true) (own_entries ps))) = false
  <-> exists k v, (k, v) ∈ ps /\ is_sector_key k = true /\ is_normal (f (k, v)) = false.
Proof.
  rewrite js_map_throw_iff. split.
  - intros ([k v] & Hin & Ht). apply list_elem_of_filter in Hin as [Hk Hin].
    rewrite own_entries_perm in Hin. by exists k, v.
  - intros (k & v & Hin & Hk & Ht). exists (k, v). split; [|done].
    apply list_elem_of_filter. split; [done|]. by rewrite own_entries_perm.
Qed.

Definition section_name (s : section) : string :=
  match s with EmptySectorCard n | SectorSection n _ _ => n end.

Lemma section_names (l : list (string * entry)) : map section_name (map section_of l) = map fst l.
Proof.
  rewrite map_map. apply map_ext. intros [k e]. unfold section_of. simpl. by destruct e as [[|]|].
Qed.

(** ** Theorems *)

(** C2. The page's dispatch: loading wins over everything; then a truthy
    [error] shows the error banner with [getErrorFromException(error)],
    whatever [data] holds (the last good data is not shown); then falsy
    [data] shows the no-data notice. *)
Theorem table_dispatch (q : query_result) (st : table_state) :
  (isLoading q = true -> PortfolioTable q st = Normal LoadingPage) /\
  (isLoading q = false -> truthy (error q) = true ->
     PortfolioTable q st = ErrorPage <$> getErrorFromException (error q)) /\
  (isLoading q = false -> truthy (error q) = false -> truthy (data q) = false ->
     PortfolioTable q st = Normal NoDataPage).
Proof.
  unfold PortfolioTable. repeat split; intros Hl; rewrite Hl; [done|..].
  - by intros ->.
  - intros He Hd. by rewrite He, Hd.
Qed.

(** C3. A well-formed response (distinct keys, the summary under
    "portfolioSummary", sectors elsewhere) renders without throwing: the
    summary card gets the summary, the charts get the data, and there is one
    section per sector, in [Object.entries] order, empty exactly when the
    sector has no stocks. *)
Theorem table_wf_render (r : PortfolioResponse) (e : value) (st : table_state) :
  wf_response r -> truthy e = false ->
  PortfolioTable {| data := response_to_value r; error := e; isLoading := false |} st
  = Normal (DashboardPage (summary_of r) (response_to_value r)
                          (map section_of (response_sectors r)) (lastUpdated st)).
Proof.
  intros Hwf He. unfold PortfolioTable. simpl. rewrite He. simpl.
  unfold response_to_value. rewrite own_entries_map_values, filter_map_values.
  rewrite assoc_lookup_map_values. simpl.
  rewrite js_map_render_sectors by exact (wf_response_sectors r Hwf). simpl.
  unfold summary_of, summary_key. destruct (assoc_lookup "portfolioSummary" r) as [x|]; simpl; [|done].
  by rewrite entry_to_value_truthy.
Qed.

(** C35. When no sector name is an array index (a canonical integer
    string), the sections follow the response's key order exactly, with the
    summary key left out. *)
Theorem sections_follow_key_order (r : PortfolioResponse) :
  Forall (fun p => is_array_index p.1 = false) r ->
  map section_name (map section_of (response_sectors r)) = filter (fun k => is_sector_key k = true) (map fst r).
Proof.
  intros Hnoidx. unfold response_sectors. rewrite own_entries_no_index, section_names by done.
  induction r as [|[k e] r IH]; [done|].
  inversion Hnoidx; subst. simpl. rewrite !filter_cons. simpl.
  destruct (decide (is_sector_key k = true)); simpl; by rewrite IH.
Qed.

(** An array-index key is never the summary key. *)
Lemma index_key_is_sector (k : string) : is_array_index k = true -> is_sector_key k = true.
Proof.
  intros Hk. unfold is_sector_key. destruct (String.eqb_spec k summary_key) as [->|]; [|done].
  discriminate Hk.
Qed.

(** C36. Whatever the response, the sectors whose names are array indices
    (canonical integers up to [2^32 - 2], such as "2024") are shown first:
    exactly those entries of the response, in increasing numeric order;
    the other sectors follow in the response's order. *)
Theorem sections_index_keys_first (r : PortfolioResponse) :
  exists idx, map section_name (map section_of (response_sectors r)) =
      map fst idx ++ map fst (filter (fun p => is_sector_key p.1 = true)
                                (filter (fun p => is_array_index p.1 = false) r)) /\
    idx ≡ₚ filter (fun p => is_array_index p.1 = true) r /\ Sorted (@index_le entry) idx.
Proof.
  set (ix := sort_by_index (filter (fun p => is_array_index p.1 = true) r)).
  assert (Hid : filter (fun p => is_sector_key p.1 = true) ix = ix).
  { apply filter_Forall_id, Forall_forall. intros p Hp. apply index_key_is_sector.
    unfold ix in Hp. rewrite sort_by_index_perm in Hp. by apply list_elem_of_filter in Hp as [? _]. }
  exists ix. split; [|split].
  - unfold response_sectors, own_entries. rewrite filter_app, section_names, map_app.
    f_equal. exact (f_equal (map fst) Hid).
  - apply sort_by_index_perm.
  - apply sort_by_index_sorted.
Qed.

(** C8. On loaded data that is an object, the page's own statements throw
    exactly when some entry other than "portfolioSummary" is [null] or
    [undefined] or has a [null] or [undefined] [stocks]. *)
Theorem table_throws_iff (ps : list (string * value)) (e : value) (st : table_state) :
  truthy e = false ->
  is_normal (PortfolioTable {| data := VObj ps; error := e; isLoading := false |} st) = false
  <-> exists k v, (k, v) ∈ ps /\ is_sector_key k = true /\ sector_throws v = true.
Proof.
  intros He. unfold PortfolioTable. simpl. rewrite He. simpl.
  pose proof (sectors_map_throw_iff render_sector ps) as Hiff.
  destruct (js_map render_sector _) as [secs|ex]; cbn [is_normal] in Hiff; simpl.
  - split; [discriminate|]. intros (k & v & Hin & Hk & Ht).
    enough (Hc : true = false) by discriminate Hc. apply Hiff. exists k, v.
    split; [done|]. split; [done|]. by apply render_sector_throws_iff.
  - split; [intros _|done]. destruct (proj1 Hiff eq_refl) as (k & v & Hin & Hk & Ht).
    exists k, v. split; [done|]. split; [done|]. by apply render_sector_throws_iff in Ht.
Qed.

(** ** Witnesses *)

Definition ex_stock : Stock.t :=
  Stock.mk "HDFC Bank" "HDFCBANK" (1490 # 1) (50 # 1) (74500 # 1) "4.62%" "NSE"
           (1700 # 1) (85000 # 1) (10500 # 1) green (18 # 1) (2300 # 1).
Definition ex_sector_sum : SectorSummary.t := SectorSummary.mk (74500 # 1) (85000 # 1) (10500 # 1) green.
Definition ex_empty_sum : SectorSummary.t := SectorSummary.mk 0 0 0 green.
Definition ex_total : PortfolioSummary.t := SectorSummary.mk (74500 # 1) (85000 # 1) (10500 # 1) green.

(** Two sectors and the summary key, as in the spec's scenario. *)
Definition ex_response : PortfolioResponse :=
  [("Financials", SectorEntry [ex_stock] ex_sector_sum);
   ("Energy", SectorEntry [] ex_empty_sum);
   ("portfolioSummary", SummaryEntry ex_total)].

Lemma ex_response_wf : wf_response ex_response.
Proof.
  split.
  - apply (bool_decide_unpack _). vm_compute. reflexivity.
  - repeat constructor; simpl; discriminate.
Qed.

Lemma table_dispatch_witness :
  PortfolioTable {| data := VUndefined; error := VObj [("message", VStr "x")]; isLoading := false |} (mount 0)
  = Normal (ErrorPage (VStr "x")).
Proof. rewrite (proj1 (proj2 (table_dispatch _ _))); reflexivity. Defined.

Lemma table_wf_render_witness :
  PortfolioTable (loaded (response_to_value ex_response)) (mount 0)
  = Normal (DashboardPage (Some (entry_to_value (SummaryEntry ex_total))) (response_to_value ex_response)
              [SectorSection "Financials" (SectorSummary.to_value ex_sector_sum)
                             (VArr [Stock.to_value ex_stock]);
               EmptySectorCard "Energy"] 0).
Proof. unfold loaded. rewrite (table_wf_render ex_response VUndefined (mount 0) ex_response_wf eq_refl). reflexivity. Defined.

Lemma sections_follow_key_order_witness :
  map section_name (map section_of (response_sectors ex_response)) = ["Financials"; "Energy"].
Proof. rewrite sections_follow_key_order; [reflexivity|]. repeat constructor. Defined.

Lemma table_throws_iff_witness :
  is_normal (PortfolioTable {| data := VObj [("Tech", VNull); ("portfolioSummary", VObj [])];
                               error := VUndefined; isLoading := false |} (mount 0)) = false.
Proof.
  apply (proj2 (table_throws_iff _ VUndefined (mount 0) eq_refl)).
  exists "Tech", VNull. split; [set_solver | split; reflexivity].
Defined.

(** ** The "last updated" timestamp *)

(** C37. After a further render at time [t] with data [d], the timestamp
    is [t] when [d] is truthy and differs from the data of the previous
    render (or there was none), and is unchanged otherwise: a poll that
    returns an equal body, a loading render and an error render with no
    data leave it as it was. *)
Theorem lastUpdated_step (t0 : Z) (rs : list (Z * value)) (t : Z) (d : value) :
  lastUpdated (run_effects (mount t0) (rs ++ [(t, d)])) =
    if truthy d && match last rs with None => true | Some (_, d') => negb (same_value d' d) end
    then t else lastUpdated (run_effects (mount t0) rs).
Proof.
  unfold run_effects at 1. rewrite fold_left_app. fold (run_effects (mount t0) rs). simpl.
  rewrite run_effects_prevData. simpl.
  destruct (last rs) as [[t' d']|]; by rewrite andb_comm.
Qed.

(** The state update made by the effect causes one more render,
    whose effect finds the dependency unchanged and leaves the state as it
    is: the effect does not re-trigger itself. *)
Theorem effect_settles (t t' : Z) (d : value) (st : table_state) :
  lastUpdated_effect t' d (lastUpdated_effect t d st) = lastUpdated_effect t d st.
Proof. unfold lastUpdated_effect at 1. simpl. by rewrite same_value_refl. Qed.
