(* ===== verification/QueryCache.v ===== *)
(** The data-fetch core: the endpoint configuration of
    src/src/api/app-api-slice.ts and the hook call of
    src/src/components/portforlio-table.tsx, and the cache and poller they
    configure.  The cache and the poller are RTK Query's library code, not
    code of this repository; they are modelled from the spec (sections 4.1,
    4.2 and 5): a map from query keys to entries, the operations subscribe,
    unsubscribe, beginFetch and completeFetch, the poll and eviction timers,
    and the network as the list of requests in flight.  The event loop is a
    step relation on worlds; the invariants are proved by induction on
    reachability. *)

From S2P Require Import Prelude JsValue ErrorUtils Dashboard.
From stdpp Require Import gmap.
Local Open Scope Z_scope.
Local Set Warnings "-clear-no-such-hyp".

(** ** The configuration in src *)

(** app-api-slice.ts, lines 4-35: [createApi] with one query endpoint. *)
Record endpoint : Type := {
  reducerPath : string;
  tagTypes : list string;
  baseUrl : string;
  url : string;
  method : string;
  providesTags : list string;
  keepUnusedDataFor : Z  (** seconds *)
}.

Definition getPortfolioInfo : endpoint := {|
  reducerPath := "api";
  tagTypes := ["portfolio"];
  baseUrl := "http://localhost:8000/api";
  url := "/portfolio";
  method := "GET";
  providesTags := ["portfolio"];
  keepUnusedDataFor := 15
|}.

(** [fetchBaseQuery] requests [baseUrl ++ url]; [prepareHeaders] returns the
    headers unchanged (its two lines are commented out). *)
Definition request_url (ep : endpoint) : string := baseUrl ep ++ url ep.
Definition prepareHeaders (headers : list (string * string)) : list (string * string) := headers.

(** portforlio-table.tsx, lines 21-23: [pollingInterval: 15000] (ms). *)
Definition pollingInterval : Z := 15000.

(** The timing the cache runs with, in milliseconds. *)
Record cache_config : Type := {
  retentionMs : Z;
  intervalMs : Z
}.

Definition portfolio_config : cache_config := {|
  retentionMs := keepUnusedDataFor getPortfolioInfo * 1000;
  intervalMs := pollingInterval
|}.

(** ** Cache entries (spec, section 3) *)

Inductive qstatus : Type := Idle | Loading | Success | Error.

#[export] Instance qstatus_eq_dec : EqDecision qstatus.
Proof. solve_decision. Defined.

Record QueryEntry : Type := mkEntry {
  status : qstatus;
  payload : option value;      (** the last successfully decoded body *)
  errorInfo : option value;    (** the last failure *)
  subscriberCount : nat;
  lastFetchedAt : option Z;
  evictAt : option Z;          (** the eviction countdown *)
  nextPollAt : option Z        (** the poll timer *)
}.

(** The outcome of one request: a decoded body or a failure. *)
Inductive outcome : Type :=
  | Fetched (body : value)
  | Failed (err : value).

(** The world of the event loop: the clock, the cache's entry map (the
    only shared mutable resource, spec section 5) and the requests in
    flight, one key per outstanding request. *)
Record world : Type := mkWorld {
  now : Z;
  entries : gmap string QueryEntry;
  inflight : list string
}.

Definition empty_world (t : Z) : world := mkWorld t ∅ [].

Definition set_entry (k : string) (e : QueryEntry) (w : world) : world :=
  mkWorld (now w) (<[k := e]> (entries w)) (inflight w).

Definition with_status (e : QueryEntry) (s : qstatus) : QueryEntry :=
  mkEntry s (payload e) (errorInfo e) (subscriberCount e) (lastFetchedAt e) (evictAt e) (nextPollAt e).

Section Operations.
Context (cfg : cache_config).

(** [beginFetch(key)]: moves the entry to Loading and issues the request,
    unless it is already Loading (at most one fetch in flight per entry). *)
Definition beginFetch (k : string) (w : world) : world :=
  match entries w !! k with
  | Some e =>
      if bool_decide (status e = Loading) then w
      else mkWorld (now w) (<[k := with_status e Loading]> (entries w)) (k :: inflight w)
  | None => w
  end.

(** [subscribe(key)]: creates the entry in Idle when absent, cancels a
    pending eviction, and on the first subscriber starts the coordinator:
    an immediate fetch and a poll timer [intervalMs] ahead. *)
Definition subscribe (k : string) (w : world) : world :=
  match entries w !! k with
  | None =>
      beginFetch k (set_entry k (mkEntry Idle None None 1 None None
                                  (Some (now w + intervalMs cfg))) w)
  | Some e =>
      if Nat.eqb (subscriberCount e) 0 then
        beginFetch k (set_entry k (mkEntry (status e) (payload e) (errorInfo e) 1
                                  (lastFetchedAt e) None (Some (now w + intervalMs cfg))) w)
      else set_entry k (mkEntry (status e) (payload e) (errorInfo e) (S (subscriberCount e))
                         (lastFetchedAt e) (evictAt e) (nextPollAt e)) w
  end.

(** [unsubscribe(handle)]: the last subscriber leaving stops the poll timer
    and starts the eviction countdown together (spec, section 4.2, stop). *)
Definition unsubscribe (k : string) (w : world) : world :=
  match entries w !! k with
  | Some e =>
      match subscriberCount e with
      | O => w
      | 1%nat => set_entry k (mkEntry (status e) (payload e) (errorInfo e) 0
                             (lastFetchedAt e) (Some (now w + retentionMs cfg)) None) w
      | S n => set_entry k (mkEntry (status e) (payload e) (errorInfo e) n
                           (lastFetchedAt e) (evictAt e) (nextPollAt e)) w
      end
  | None => w
  end.

(** A poll tick due at [t]: re-arm the timer for [t + intervalMs], then
    [beginFetch], which skips the request while one is in flight. *)
Definition poll_tick (k : string) (w : world) : world :=
  match entries w !! k with
  | Some e =>
      match nextPollAt e with
      | Some t =>
          beginFetch k (set_entry k (mkEntry (status e) (payload e) (errorInfo e)
                                      (subscriberCount e) (lastFetchedAt e) (evictAt e)
                                      (Some (t + intervalMs cfg))) w)
      | None => w
      end
  | None => w
  end.

(** The eviction countdown elapsing with still no subscriber. *)
Definition evict_tick (k : string) (w : world) : world :=
  match entries w !! k with
  | Some e =>
      if Nat.eqb (subscriberCount e) 0 then mkWorld (now w) (delete k (entries w)) (inflight w)
      else w
  | None => w
  end.

Fixpoint remove_one (k : string) (l : list string) : list string :=
  match l with
  | [] => []
  | k' :: l' => if String.eqb k k' then l' else k' :: remove_one k l'
  end.

(** [completeFetch(key, result)] on the arrival of a response for [k]: the
    request leaves the network; the result is discarded when the entry has
    been evicted (spec, section 5); a success stores the body, clears the
    error and stamps the time; a failure stores the error and keeps the
    last good body (the stale-data policy chosen here). *)
Definition completeFetch (k : string) (r : outcome) (w : world) : world :=
  let w' := mkWorld (now w) (entries w) (remove_one k (inflight w)) in
  match entries w !! k with
  | Some e =>
      let e' := match r with
                | Fetched v => mkEntry Success (Some v) None (subscriberCount e) (Some (now w))
                                       (evictAt e) (nextPollAt e)
                | Failed err => mkEntry Error (payload e) (Some err) (subscriberCount e)
                                        (lastFetchedAt e) (evictAt e) (nextPollAt e)
                end in
      set_entry k e' w'
  | None => w'
  end.

(** Time passes up to [t]; no armed timer may be skipped. *)
Definition timers_not_before (t : Z) (w : world) : Prop :=
  forall k e, entries w !! k = Some e ->
    (forall d, evictAt e = Some d -> t <= d) /\ (forall d, nextPollAt e = Some d -> t <= d).

Definition advance (t : Z) (w : world) : world := mkWorld t (entries w) (inflight w).

(** The event loop: one callback at a time (spec, section 5). *)
Inductive step : world -> world -> Prop :=
  | step_subscribe k w : step w (subscribe k w)
  | step_unsubscribe k w : step w (unsubscribe k w)
  | step_poll k w e t :
      entries w !! k = Some e -> nextPollAt e = Some t -> t <= now w -> step w (poll_tick k w)
  | step_evict k w e t :
      entries w !! k = Some e -> evictAt e = Some t -> t <= now w -> step w (evict_tick k w)
  | step_respond k r w : k ∈ inflight w -> step w (completeFetch k r w)
  | step_advance t w : now w <= t -> timers_not_before t w -> step w (advance t w).

Inductive reachable : world -> Prop :=
  | reach_init t : reachable (empty_world t)
  | reach_step w w' : reachable w -> step w w' -> reachable w'.
End Operations.

(** The view the hook gives the page (spec, section 6): the last good
    body, the last failure, and whether the first load is still running. *)
Definition hook_result (o : option QueryEntry) : query_result :=
  match o with
  | None => {| data := VUndefined; error := VUndefined; isLoading := true |}
  | Some e =>
      {| data := default VUndefined (payload e);
         error := default VUndefined (errorInfo e);
         isLoading := match payload e, status e with
                      | None, (Idle | Loading) => true
                      | _, _ => false
                      end |}
  end.

(** ** The invariant of the cache *)

(** An entry is consistent with the requests in flight [fl] when its poll
    timer is armed exactly while it has subscribers, its eviction countdown
    exactly while it has none, a Loading entry has a request in flight, and
    the Success and Error states carry their body and error. *)
Definition entry_ok (k : string) (e : QueryEntry) (fl : list string) : Prop :=
  (subscriberCount e = 0%nat <-> nextPollAt e = None) /\
  (subscriberCount e = 0%nat <-> is_Some (evictAt e)) /\
  (status e = Loading -> k ∈ fl) /\
  (status e = Success -> is_Some (payload e) /\ errorInfo e = None) /\
  (status e = Error -> is_Some (errorInfo e)).

Definition cache_inv (w : world) : Prop :=
  forall k e, entries w !! k = Some e -> entry_ok k e (inflight w).

Lemma entry_ok_mono (k : string) (e : QueryEntry) (fl fl' : list string) :
  entry_ok k e fl -> (k ∈ fl -> k ∈ fl') -> entry_ok k e fl'.
Proof. intros (H1 & H2 & H3 & H4 & H5) Hsub. split; [done|]. split; [done|]. split; [|done]. auto. Qed.

Lemma remove_one_other (k k' : string) (l : list string) :
  k <> k' -> k' ∈ l -> k' ∈ remove_one k l.
Proof.
  intros Hne. induction l as [|x l IH]; simpl; [set_solver|].
  intros [Heq|Hin]%elem_of_cons.
  - subst x. destruct (String.eqb_spec k k'); [congruence | by left].
  - destruct (String.eqb k x); [done|]. right. by apply IH.
Qed.

(** Splits an [entry_ok] goal on a concrete entry and closes the clauses
    that hold by the shape of the entry. *)
Ltac entry_ok_split :=
  unfold entry_ok; simpl; repeat split; intros;
  repeat match goal with H : is_Some _ |- _ => destruct H end;
  simplify_eq; try done; try lia; try naive_solver.

Lemma cache_inv_set (k : string) (e : QueryEntry) (w : world) :
  cache_inv w -> entry_ok k e (inflight w) -> cache_inv (set_entry k e w).
Proof.
  intros Hinv Hok k' e'. unfold set_entry; simpl.
  rewrite lookup_insert. case_decide; [intros [= <-]; subst; done | apply Hinv].
Qed.

Lemma beginFetch_inv (k : string) (w : world) : cache_inv w -> cache_inv (beginFetch k w).
Proof.
  intros Hinv. unfold beginFetch. destruct (entries w !! k) as [e|] eqn:He; [|done].
  case_bool_decide; [done|]. intros k' e'. simpl. rewrite lookup_insert. case_decide.
  - intros [= <-]. subst k'. destruct (Hinv k e He) as (H1 & H2 & _ & _ & _).
    unfold entry_ok, with_status; simpl.
    split; [exact H1|]. split; [exact H2|]. split; [intros _; left|].
    split; intros Hs; discriminate Hs.
  - intros He'. eapply entry_ok_mono; [by apply Hinv|]. set_solver.
Qed.

Lemma with_status_same (e : QueryEntry) : with_status e (status e) = e.
Proof. by destruct e. Qed.

(** [beginFetch] changes at most the status of the entry it starts. *)
Lemma beginFetch_lookup (k k' : string) (w : world) :
  entries (beginFetch k w) !! k' =
    (fun e => if bool_decide (k = k') then with_status e Loading else e) <$> entries w !! k'.
Proof.
  unfold beginFetch. destruct (entries w !! k) as [e|] eqn:He.
  - case_bool_decide as Hs.
    + destruct (entries w !! k') as [e'|] eqn:He'; simpl; [|done].
      case_bool_decide; [subst; rewrite He in He'; injection He' as <-; by rewrite <- Hs, with_status_same|done].
    + cbn [entries]. rewrite lookup_insert.
      case_decide; [subst; by rewrite He, bool_decide_eq_true_2|].
      destruct (entries w !! k'); simpl; [by rewrite bool_decide_eq_false_2|done].
  - destruct (entries w !! k') as [e'|] eqn:He'; simpl; [|done].
    case_bool_decide; [subst; congruence|done].
Qed.

(** A computable check that advancing the clock to [t] skips no timer. *)
Definition timer_ok (t : Z) (e : QueryEntry) : bool :=
  match evictAt e with Some d => bool_decide (t <= d) | None => true end &&
  match nextPollAt e with Some d => bool_decide (t <= d) | None => true end.

Lemma timers_not_before_check (t : Z) (w : world) :
  map_Forall (fun _ e => timer_ok t e = true) (entries w) -> timers_not_before t w.
Proof.
  intros Hall k e He. apply (map_Forall_lookup_1 _ _ _ _ Hall) in He.
  unfold timer_ok in He. apply andb_prop in He as [H1 H2].
  split; intros d Hd; [rewrite Hd in H1 | rewrite Hd in H2]; by apply bool_decide_eq_true in H1 || apply bool_decide_eq_true in H2.
Qed.

Section InvariantProof.
Context (cfg : cache_config).

Lemma subscribe_inv (k : string) (w : world) : cache_inv w -> cache_inv (subscribe cfg k w).
Proof.
  intros Hinv. unfold subscribe. destruct (entries w !! k) as [e|] eqn:He.
  - destruct (Hinv k e He) as (H1 & H2 & H3 & H4 & H5).
    destruct (Nat.eqb_spec (subscriberCount e) 0) as [H0|H0].
    + apply beginFetch_inv, cache_inv_set; [done|]. entry_ok_split.
    + apply cache_inv_set; [done|]. entry_ok_split.
  - apply beginFetch_inv, cache_inv_set; [done|]. entry_ok_split.
Qed.

Lemma unsubscribe_inv (k : string) (w : world) : cache_inv w -> cache_inv (unsubscribe cfg k w).
Proof.
  intros Hinv. unfold unsubscribe. destruct (entries w !! k) as [e|] eqn:He; [|done].
  destruct (Hinv k e He) as (H1 & H2 & H3 & H4 & H5).
  destruct (subscriberCount e) as [|[|n]] eqn:Hc; [done| |].
  - apply cache_inv_set; [done|]. entry_ok_split.
  - apply cache_inv_set; [done|]. entry_ok_split.
Qed.

Lemma poll_tick_inv (k : string) (w : world) : cache_inv w -> cache_inv (poll_tick cfg k w).
Proof.
  intros Hinv. unfold poll_tick. destruct (entries w !! k) as [e|] eqn:He; [|done].
  destruct (nextPollAt e) as [t|] eqn:Ht; [|done].
  destruct (Hinv k e He) as (H1 & H2 & H3 & H4 & H5).
  apply beginFetch_inv, cache_inv_set; [done|]. entry_ok_split.
Qed.

Lemma evict_tick_inv (k : string) (w : world) : cache_inv w -> cache_inv (evict_tick k w).
Proof.
  intros Hinv. unfold evict_tick. destruct (entries w !! k) as [e|]; [|done].
  destruct (Nat.eqb _ 0); [|done]. intros k' e'. simpl.
  rewrite lookup_delete. case_decide; [discriminate | apply Hinv].
Qed.

Lemma completeFetch_inv (k : string) (r : outcome) (w : world) :
  cache_inv w -> cache_inv (completeFetch k r w).
Proof.
  intros Hinv. unfold completeFetch.
  destruct (entries w !! k) as [e|] eqn:He.
  - destruct (Hinv k e He) as (H1 & H2 & H3 & H4 & H5).
    intros k' e'. simpl. rewrite lookup_insert. case_decide as Hk.
    + intros [= <-]. subst k'. destruct r; entry_ok_split.
    + intros He'. eapply entry_ok_mono; [by apply Hinv|]. by apply remove_one_other.
  - intros k' e' He'. eapply entry_ok_mono; [by apply Hinv|].
    apply remove_one_other. intros ->. simpl in He'. congruence.
Qed.

Lemma advance_inv (t : Z) (w : world) : cache_inv w -> cache_inv (advance t w).
Proof. intros Hinv k e He. by apply Hinv. Qed.

Lemma step_inv (w w' : world) : step cfg w w' -> cache_inv w -> cache_inv w'.
Proof.
  destruct 1; eauto using subscribe_inv, unsubscribe_inv, poll_tick_inv, evict_tick_inv,
    completeFetch_inv, advance_inv.
Qed.

Lemma reachable_cache_inv (w : world) : reachable cfg w -> cache_inv w.
Proof.
  induction 1 as [t|w w' _ IH Hstep]; [|by eapply step_inv].
  intros k e. simpl. by rewrite lookup_empty.
Qed.
End InvariantProof.

(** ** At most one request in flight, when no eviction races a request *)

Definition occurrences (k : string) (l : list string) : nat := List.count_occ String.string_dec l k.

Definition loading_count (o : option QueryEntry) : nat :=
  match o with Some e => if bool_decide (status e = Loading) then 1%nat else 0%nat | None => 0%nat end.

(** The number of requests in flight for [k] is one exactly when its entry
    is Loading, and zero otherwise. *)
Definition inflight_exact (w : world) : Prop :=
  forall k, occurrences k (inflight w) = loading_count (entries w !! k).

(** A step that does not evict an entry while a request for it is in flight. *)
Definition no_race (w w' : world) : Prop :=
  forall k, k ∈ inflight w -> is_Some (entries w !! k) -> is_Some (entries w' !! k).

Inductive reachable_no_race (cfg : cache_config) : world -> Prop :=
  | rnr_init t : reachable_no_race cfg (empty_world t)
  | rnr_step w w' : reachable_no_race cfg w -> step cfg w w' -> no_race w w' -> reachable_no_race cfg w'.

Lemma occurrences_cons (k x : string) (l : list string) :
  occurrences k (x :: l) = (if String.eqb x k then S (occurrences k l) else occurrences k l).
Proof.
  unfold occurrences. simpl. destruct (String.string_dec x k), (String.eqb_spec x k); congruence.
Qed.

Lemma occurrences_remove_one (k x : string) (l : list string) :
  occurrences k (remove_one x l) =
    if String.eqb x k then Nat.pred (occurrences k l) else occurrences k l.
Proof.
  induction l as [|y l IH]; [simpl; by destruct (String.eqb x k)|].
  change (remove_one x (y :: l)) with (if String.eqb x y then l else y :: remove_one x l).
  rewrite (occurrences_cons k y l). destruct (String.eqb_spec x y) as [<-|Hxy].
  - destruct (String.eqb x k); simpl; lia.
  - rewrite occurrences_cons, IH.
    destruct (String.eqb_spec y k), (String.eqb_spec x k); subst; try congruence; lia.
Qed.

Lemma occurrences_zero (k : string) (l : list string) : occurrences k l = 0%nat <-> k ∉ l.
Proof.
  unfold occurrences. rewrite <- (count_occ_not_In String.string_dec).
  rewrite list_elem_of_In. tauto.
Qed.

Lemma set_entry_exact (k : string) (e : QueryEntry) (w : world) :
  inflight_exact w -> loading_count (entries w !! k) = loading_count (Some e) ->
  inflight_exact (set_entry k e w).
Proof.
  intros Hx Hl k'. unfold set_entry; cbn [inflight entries]. rewrite lookup_insert. case_decide; [subst; by rewrite Hx|].
  apply Hx.
Qed.

Lemma beginFetch_exact (k : string) (w : world) : inflight_exact w -> inflight_exact (beginFetch k w).
Proof.
  intros Hx. unfold beginFetch. destruct (entries w !! k) as [e|] eqn:He; [|done].
  case_bool_decide as Hs; [done|]. intros k'. cbn [inflight entries].
  rewrite occurrences_cons, lookup_insert, Hx. case_decide as Hk.
  - subst k'. rewrite String.eqb_refl, He. unfold loading_count.
    rewrite (bool_decide_eq_false_2 (status e = Loading)) by done.
    by rewrite bool_decide_eq_true_2.
  - destruct (String.eqb_spec k k'); [congruence | done].
Qed.

Section NoRace.
Context (cfg : cache_config).

Lemma step_exact (w w' : world) :
  step cfg w w' -> no_race w w' -> inflight_exact w -> inflight_exact w'.
Proof.
  intros Hstep Hnr Hx. destruct Hstep as [k w|k w|k w e t He Ht _|k w e t He Ht _|k r w Hin|t w _ _].
  - unfold subscribe. destruct (entries w !! k) as [e|] eqn:He.
    + destruct (Nat.eqb _ 0); [apply beginFetch_exact|]; apply set_entry_exact; try done;
        by rewrite He.
    + apply beginFetch_exact, set_entry_exact; [done|]. by rewrite He.
  - unfold unsubscribe. destruct (entries w !! k) as [e|] eqn:He; [|done].
    destruct (subscriberCount e) as [|[|n]]; [done| |]; apply set_entry_exact; try done; by rewrite He.
  - unfold poll_tick. rewrite He, Ht. apply beginFetch_exact, set_entry_exact; [done|]. by rewrite He.
  - unfold evict_tick in Hnr |- *. rewrite He in Hnr |- *.
    destruct (Nat.eqb _ 0) eqn:Hc; [|done].
    assert (Hnot : k ∉ inflight w).
    { intros Hin. destruct (Hnr k Hin) as [e' He']; [by eexists|].
      cbn [entries] in He'. by rewrite lookup_delete_eq in He'. }
    intros k'. cbn [inflight entries]. rewrite lookup_delete. case_decide; [subst k'|apply Hx].
    by apply occurrences_zero.
  - unfold completeFetch. specialize (Hx k) as Hk.
    assert (Hpos : occurrences k (inflight w) <> 0%nat) by (rewrite occurrences_zero; tauto).
    destruct (entries w !! k) as [e|] eqn:He; [|simpl in Hk; congruence].
    intros k'. unfold set_entry; cbn [inflight entries]. rewrite lookup_insert, occurrences_remove_one.
    case_decide as Hk'.
    + subst k'. rewrite String.eqb_refl, Hk. unfold loading_count in *.
      case_bool_decide; [|congruence].
      destruct r; rewrite bool_decide_eq_false_2 by done; reflexivity.
    + destruct (String.eqb_spec k k'); [congruence | apply Hx].
  - intros k'. apply Hx.
Qed.

Lemma reachable_no_race_exact (w : world) : reachable_no_race cfg w -> inflight_exact w.
Proof.
  induction 1 as [t|w w' _ IH Hstep Hnr]; [|by eapply step_exact].
  intros k. simpl. by rewrite lookup_empty.
Qed.
End NoRace.

(** ** Theorems *)

Definition portfolio_key : string := "portfolio".

(** C4. In every reachable state of the portfolio cache, an entry's poll
    timer is armed exactly while it has subscribers and its eviction
    countdown exactly while it has none, a Loading entry has a request in
    flight, a Success entry holds a body and no error, and an Error entry
    holds an error. *)
Theorem portfolio_cache_invariant (w : world) :
  reachable portfolio_config w -> cache_inv w.
Proof. apply reachable_cache_inv. Qed.

(** C5. As long as no eviction removes an entry whose request is still in
    flight, at most one request per key is in flight, and one is exactly
    when the entry is Loading. *)
Theorem portfolio_no_overlap (w : world) (k : string) :
  reachable_no_race portfolio_config w ->
  (occurrences k (inflight w) <= 1)%nat /\
  (occurrences k (inflight w) = 1%nat <->
     exists e, entries w !! k = Some e /\ status e = Loading).
Proof.
  intros Hr. pose proof (reachable_no_race_exact _ w Hr k) as Hx. rewrite Hx.
  unfold loading_count. destruct (entries w !! k) as [e|]; [|split; [lia | split; [done | intros (? & ? & _); done]]].
  case_bool_decide as Hs; split; try lia; split; try done; eauto.
  intros (e' & [= <-] & He'). congruence.
Qed.

(** Two subscribers to the same key trigger exactly one request. *)
Theorem two_subscribers_one_fetch (t : Z) (k : string) :
  inflight (subscribe portfolio_config k (subscribe portfolio_config k (empty_world t))) = [k] /\
  subscriberCount <$> (entries (subscribe portfolio_config k (subscribe portfolio_config k (empty_world t))) !! k)
    = Some 2%nat.
Proof.
  unfold subscribe, beginFetch, set_entry, empty_world.
  cbn [entries inflight now]. simplify_map_eq. cbn.
  cbn [entries inflight now].
  simplify_map_eq. cbn. split; [done|]. by simplify_map_eq.
Qed.

(** C25. The last subscriber leaving at time [now w] stops polling and arms
    eviction for [now w + 15000] ms (the endpoint's [keepUnusedDataFor] of
    15 s) keeping the cached body; a new subscriber before it fires cancels
    the countdown and finds the body; if it fires first the entry is gone. *)
Theorem eviction_lifecycle (w : world) (k : string) (e : QueryEntry) :
  entries w !! k = Some e -> subscriberCount e = 1%nat ->
  (exists e1, entries (unsubscribe portfolio_config k w) !! k = Some e1 /\
     subscriberCount e1 = 0%nat /\ evictAt e1 = Some (now w + 15000) /\
     nextPollAt e1 = None /\ payload e1 = payload e) /\
  (exists e2, entries (subscribe portfolio_config k (unsubscribe portfolio_config k w)) !! k = Some e2 /\
     subscriberCount e2 = 1%nat /\ evictAt e2 = None /\ payload e2 = payload e) /\
  entries (evict_tick k (unsubscribe portfolio_config k w)) !! k = None.
Proof.
  intros He Hc. unfold unsubscribe. rewrite He, Hc. unfold set_entry at 1 2 3.
  split; [|split].
  - eexists. cbn [entries]. rewrite lookup_insert_eq. split; [reflexivity|]. done.
  - unfold subscribe. cbn [entries now]. rewrite lookup_insert_eq. simpl.
    rewrite beginFetch_lookup. unfold set_entry. cbn [entries]. rewrite lookup_insert_eq.
    simpl. rewrite bool_decide_eq_true_2 by done. eexists. split; [reflexivity|]. done.
  - unfold evict_tick. cbn [entries]. rewrite lookup_insert_eq. simpl.
    by rewrite lookup_delete_eq.
Qed.

(** C9. A failed poll keeps the last good body in the cache (the chosen
    stale-data policy), but the page then shows only the error banner: the
    kept data is never displayed while the error is set. *)
Theorem failed_poll_shows_error_page (w : world) (k : string) (e : QueryEntry) (err : value) (st : table_state) :
  entries w !! k = Some e -> truthy err = true ->
  payload <$> entries (completeFetch k (Failed err) w) !! k = Some (payload e) /\
  PortfolioTable (hook_result (entries (completeFetch k (Failed err) w) !! k)) st
    = ErrorPage <$> getErrorFromException err.
Proof.
  intros He Herr. unfold completeFetch. rewrite He. unfold set_entry. cbn [entries].
  rewrite lookup_insert_eq. split; [done|].
  unfold PortfolioTable, hook_result. simpl. destruct (payload e); simpl; by rewrite Herr.
Qed.

(** C27. A successful poll clears the error and stamps the fetch time, so
    the page receives the new body, no error, and is not loading. *)
Theorem successful_poll_feeds_page (w : world) (k : string) (e : QueryEntry) (v : value) :
  entries w !! k = Some e ->
  hook_result (entries (completeFetch k (Fetched v) w) !! k)
    = {| data := v; error := VUndefined; isLoading := false |} /\
  (status <$> entries (completeFetch k (Fetched v) w) !! k) = Some Success /\
  (lastFetchedAt <$> entries (completeFetch k (Fetched v) w) !! k) = Some (Some (now w)).
Proof.
  intros He. unfold completeFetch. rewrite He. unfold set_entry. cbn [entries].
  rewrite lookup_insert_eq. done.
Qed.

(** C11. Without the no-race condition the spec's guard (discard a response
    whose entry is gone) does not prevent overlapping requests: an entry
    evicted while its request is in flight and re-created by a new
    subscriber issues a second request, so two requests for the key are in
    flight while it has one subscriber; the first response to arrive is
    written into the new entry while the other is still in flight, so
    completions are applied in arrival order, not in issue order. *)
Theorem overlap_after_eviction :
  exists w, reachable portfolio_config w /\
    subscriberCount <$> entries w !! portfolio_key = Some 1%nat /\
    occurrences portfolio_key (inflight w) = 2%nat /\
    forall v, status <$> entries (completeFetch portfolio_key (Fetched v) w) !! portfolio_key = Some Success /\
              occurrences portfolio_key (inflight (completeFetch portfolio_key (Fetched v) w)) = 1%nat.
Proof.
  set (w1 := subscribe portfolio_config portfolio_key (empty_world 0)).
  set (w2 := unsubscribe portfolio_config portfolio_key w1).
  set (w3 := advance 15000 w2).
  set (w4 := evict_tick portfolio_key w3).
  exists (subscribe portfolio_config portfolio_key w4).
  split; [|split; [vm_compute; reflexivity | split; [vm_compute; reflexivity | intros v; split; vm_compute; reflexivity]]].
  apply (reach_step _ w4); [|apply step_subscribe].
  apply (reach_step _ w3); [|eapply step_evict; [reflexivity | reflexivity | vm_compute; discriminate]].
  apply (reach_step _ w2); [|apply step_advance; [vm_compute; discriminate|]].
  - apply (reach_step _ w1); [|apply step_unsubscribe].
    apply (reach_step _ (empty_world 0)); [apply reach_init | apply step_subscribe].
  - apply timers_not_before_check. apply (bool_decide_unpack _). vm_compute. reflexivity.
Qed.

(** ** Witnesses *)

Definition one_subscriber : world := subscribe portfolio_config portfolio_key (empty_world 0).

Lemma one_subscriber_reachable : reachable portfolio_config one_subscriber.
Proof. apply (reach_step _ (empty_world 0)); [apply reach_init | apply step_subscribe]. Qed.

Lemma portfolio_cache_invariant_witness : cache_inv one_subscriber.
Proof. apply portfolio_cache_invariant. apply (reach_step _ (empty_world 0)); [apply reach_init | apply step_subscribe]. Defined.

Lemma portfolio_no_overlap_witness : (occurrences portfolio_key (inflight one_subscriber) <= 1)%nat.
Proof.
  refine (proj1 (portfolio_no_overlap one_subscriber portfolio_key _)).
  apply (rnr_step _ (empty_world 0)); [apply rnr_init | apply step_subscribe |].
  intros k Hk. simpl in Hk. set_solver.
Defined.

Lemma eviction_lifecycle_witness :
  entries (evict_tick portfolio_key (unsubscribe portfolio_config portfolio_key one_subscriber)) !! portfolio_key = None.
Proof. refine (proj2 (proj2 (eviction_lifecycle one_subscriber portfolio_key _ _ _))); reflexivity. Defined.

Lemma failed_poll_shows_error_page_witness :
  PortfolioTable (hook_result (entries (completeFetch portfolio_key (Failed (VObj [("message", VStr "boom")])) one_subscriber) !! portfolio_key)) (mount 0)
  = Normal (ErrorPage (VStr "boom")).
Proof.
  rewrite (proj2 (failed_poll_shows_error_page one_subscriber portfolio_key _
                   (VObj [("message", VStr "boom")]) (mount 0) eq_refl eq_refl)).
  reflexivity.
Defined.

Lemma successful_poll_feeds_page_witness :
  hook_result (entries (completeFetch portfolio_key (Fetched (VStr "body")) one_subscriber) !! portfolio_key)
  = {| data := VStr "body"; error := VUndefined; isLoading := false |}.
Proof. refine (proj1 (successful_poll_feeds_page one_subscriber portfolio_key _ _ _)). reflexivity. Defined.
