(* ===== verification/CacheSpec.v ===== *)
(** The contract of the query cache as the spec states it (section 4.1):
    what [getSnapshot(key)] shows of an entry, and how each operation may
    change it, as an abstract machine on maps from keys to views, without
    timers or requests.  The timed model of [QueryCache] refines it: every
    step of the event loop is zero, one or two steps of the contract.  The
    page is a client of the contract: a class [CacheContract] states what a
    cache promises, the page's theorems are proved against the class, and
    the timed model is an instance of it. *)

From S2P Require Import Prelude JsValue ErrorUtils Portfolio Dashboard QueryCache.
From stdpp Require Import gmap relations.

(** ** The contract *)

(** [getSnapshot(key)]: status, value, error and subscriber count. *)
Record cache_view : Type := mkView {
  vstatus : qstatus;
  vvalue : option value;
  verror : option value;
  vsubs : nat
}.

Definition view_of (e : QueryEntry) : cache_view :=
  mkView (status e) (payload e) (errorInfo e) (subscriberCount e).

Definition set_status (v : cache_view) (s : qstatus) : cache_view :=
  mkView s (vvalue v) (verror v) (vsubs v).

(** The operations of spec section 4.1 on the snapshots of all keys. *)
Inductive spec_step : gmap string cache_view -> gmap string cache_view -> Prop :=
  | spec_subscribe_new k m :
      m !! k = None -> spec_step m (<[k := mkView Idle None None 1]> m)
  | spec_subscribe k m v :
      m !! k = Some v ->
      spec_step m (<[k := mkView (vstatus v) (vvalue v) (verror v) (S (vsubs v))]> m)
  | spec_unsubscribe k m v n :
      m !! k = Some v -> vsubs v = S n ->
      spec_step m (<[k := mkView (vstatus v) (vvalue v) (verror v) n]> m)
  | spec_beginFetch k m v :
      m !! k = Some v -> vstatus v <> Loading -> spec_step m (<[k := set_status v Loading]> m)
  | spec_complete_success k m v body :
      m !! k = Some v -> spec_step m (<[k := mkView Success (Some body) None (vsubs v)]> m)
  | spec_complete_failure k m v err :
      m !! k = Some v -> spec_step m (<[k := mkView Error (vvalue v) (Some err) (vsubs v)]> m)
  | spec_evict k m v :
      m !! k = Some v -> vsubs v = 0%nat -> spec_step m (delete k m).

(** ** The abstraction of a timed world *)

Definition abs (w : world) : gmap string cache_view := view_of <$> entries w.

Lemma abs_set_entry (k : string) (e : QueryEntry) (w : world) :
  abs (set_entry k e w) = <[k := view_of e]> (abs w).
Proof. unfold abs, set_entry. simpl. by rewrite fmap_insert. Qed.

Lemma abs_lookup (k : string) (w : world) : abs w !! k = view_of <$> entries w !! k.
Proof. unfold abs. by rewrite lookup_fmap. Qed.

(** No step or one step of the contract, and at most two. *)
Definition spec_upto1 (m m' : gmap string cache_view) : Prop := m = m' \/ spec_step m m'.
Definition spec_upto2 (m m' : gmap string cache_view) : Prop :=
  spec_upto1 m m' \/ exists m'', spec_step m m'' /\ spec_step m'' m'.

Lemma spec_upto2_rtc (m m' : gmap string cache_view) : spec_upto2 m m' -> rtc spec_step m m'.
Proof.
  intros [[<-|H]|(m'' & H1 & H2)]; [done|by apply rtc_once|].
  eapply rtc_l; [exact H1|by apply rtc_once].
Qed.

Lemma spec_upto2_cons (m m1 m' : gmap string cache_view) :
  spec_step m m1 -> spec_upto1 m1 m' -> spec_upto2 m m'.
Proof. intros H [<-|H']; [left; by right|right; by exists m1]. Qed.

Section Refinement.
Context (cfg : cache_config).

Lemma beginFetch_refines (k : string) (w : world) :
  spec_upto1 (abs w) (abs (beginFetch k w)).
Proof.
  unfold beginFetch. destruct (entries w !! k) as [e|] eqn:He; [|by left].
  case_bool_decide; [by left|]. right.
  change (abs (mkWorld (now w) (<[k:=with_status e Loading]> (entries w)) (k :: inflight w)))
    with (view_of <$> <[k:=with_status e Loading]> (entries w)).
  rewrite fmap_insert. apply (spec_beginFetch k (abs w) (view_of e)); [|done].
  by rewrite abs_lookup, He.
Qed.

Lemma subscribe_refines (k : string) (w : world) :
  spec_upto2 (abs w) (abs (subscribe cfg k w)).
Proof.
  unfold subscribe. destruct (entries w !! k) as [e|] eqn:He.
  - destruct (Nat.eqb_spec (subscriberCount e) 0) as [H0|H0].
    + eapply spec_upto2_cons; [|apply beginFetch_refines]. rewrite abs_set_entry.
      replace (view_of _) with (mkView (vstatus (view_of e)) (vvalue (view_of e))
                                  (verror (view_of e)) (S (vsubs (view_of e))))
        by (unfold view_of; simpl; by rewrite H0).
      apply spec_subscribe. by rewrite abs_lookup, He.
    + left. right. rewrite abs_set_entry. apply (spec_subscribe k (abs w) (view_of e)).
      by rewrite abs_lookup, He.
  - eapply spec_upto2_cons; [|apply beginFetch_refines]. rewrite abs_set_entry.
    apply spec_subscribe_new. by rewrite abs_lookup, He.
Qed.

Lemma unsubscribe_refines (k : string) (w : world) :
  spec_upto1 (abs w) (abs (unsubscribe cfg k w)).
Proof.
  unfold unsubscribe. destruct (entries w !! k) as [e|] eqn:He; [|by left].
  destruct (subscriberCount e) as [|[|n]] eqn:Hc; [by left| |];
    right; rewrite abs_set_entry;
    apply (spec_unsubscribe k (abs w) (view_of e)); try (by rewrite abs_lookup, He);
    unfold view_of; simpl; by rewrite Hc.
Qed.

Lemma poll_tick_refines (k : string) (w : world) :
  spec_upto1 (abs w) (abs (poll_tick cfg k w)).
Proof.
  unfold poll_tick. destruct (entries w !! k) as [e|] eqn:He; [|by left].
  destruct (nextPollAt e) as [t|]; [|by left].
  pose proof (beginFetch_refines k (set_entry k (mkEntry (status e) (payload e) (errorInfo e)
    (subscriberCount e) (lastFetchedAt e) (evictAt e) (Some (t + intervalMs cfg)%Z)) w)) as Hb.
  rewrite abs_set_entry, insert_id in Hb; [done|]. by rewrite abs_lookup, He.
Qed.

Lemma evict_tick_refines (k : string) (w : world) :
  spec_upto1 (abs w) (abs (evict_tick k w)).
Proof.
  unfold evict_tick. destruct (entries w !! k) as [e|] eqn:He; [|by left].
  destruct (Nat.eqb_spec (subscriberCount e) 0) as [H0|]; [|by left].
  right. change (abs (mkWorld (now w) (delete k (entries w)) (inflight w)))
    with (view_of <$> delete k (entries w)).
  rewrite fmap_delete. apply (spec_evict k (abs w) (view_of e)); [|done].
  by rewrite abs_lookup, He.
Qed.

Lemma completeFetch_refines (k : string) (r : outcome) (w : world) :
  spec_upto1 (abs w) (abs (completeFetch k r w)).
Proof.
  unfold completeFetch. destruct (entries w !! k) as [e|] eqn:He; [|by left].
  right. rewrite abs_set_entry.
  assert (Hl : abs w !! k = Some (view_of e)) by (by rewrite abs_lookup, He).
  change (abs (mkWorld (now w) (entries w) (remove_one k (inflight w)))) with (abs w).
  destruct r as [body|err].
  - exact (spec_complete_success k (abs w) (view_of e) body Hl).
  - exact (spec_complete_failure k (abs w) (view_of e) err Hl).
Qed.
End Refinement.

(** ** Refinement *)

Lemma timed_step_refines (cfg : cache_config) (w w' : world) :
  step cfg w w' -> spec_upto2 (abs w) (abs w').
Proof.
  destruct 1.
  - apply subscribe_refines.
  - left. apply unsubscribe_refines.
  - left. apply poll_tick_refines.
  - left. apply evict_tick_refines.
  - left. apply completeFetch_refines.
  - by left; left.
Qed.

(** C6. Every step of the timed event loop is at most two steps of the
    contract on the snapshots: a subscription is [subscribe] and, for the
    first subscriber, [beginFetch]; an unsubscription is [unsubscribe]; a
    poll tick is [beginFetch] or nothing; a response is [completeFetch]
    (nothing when the entry was evicted); an eviction removes an entry
    without subscribers; time passing changes no snapshot.  Stated for the
    configuration of the app ([timed_step_refines] holds for any). *)
Theorem step_refines (w w' : world) :
  step portfolio_config w w' -> spec_upto2 (abs w) (abs w').
Proof. apply timed_step_refines. Qed.

Lemma reachable_refines (cfg : cache_config) (w : world) :
  reachable cfg w -> rtc spec_step ∅ (abs w).
Proof.
  induction 1 as [t|w w' _ IH Hs]; [unfold abs; simpl; by rewrite fmap_empty|].
  etrans; [exact IH|]. by apply spec_upto2_rtc, (timed_step_refines cfg).
Qed.

(** ** What the contract guarantees *)

(** A Success snapshot has a value and no error; an Error snapshot has an
    error. *)
Definition view_ok (v : cache_view) : Prop :=
  (vstatus v = Success -> vvalue v <> None /\ verror v = None) /\
  (vstatus v = Error -> verror v <> None).

Lemma spec_step_ok (m m' : gmap string cache_view) :
  map_Forall (fun _ => view_ok) m -> spec_step m m' -> map_Forall (fun _ => view_ok) m'.
Proof.
  intros Hm Hs.
  destruct Hs as [k m Hk|k m v Hk|k m v n Hk Hn|k m v Hk Hl|k m v body Hk|k m v err Hk|k m v Hk H0];
    [| | | | | |by apply map_Forall_delete];
    apply map_Forall_insert_2; try done; unfold view_ok, set_status; simpl;
    try exact (Hm k v Hk); split; intros; try discriminate; done.
Qed.

Lemma rtc_spec_ok (m m' : gmap string cache_view) :
  map_Forall (fun _ => view_ok) m -> rtc spec_step m m' -> map_Forall (fun _ => view_ok) m'.
Proof. intros Hm Hr. induction Hr; eauto using spec_step_ok. Qed.

(** ** The interface the page relies on *)

(** A cache implementation: its states, the snapshots of a state, its
    steps and initial states, with the promise that it starts empty and
    that every step is allowed by the contract. *)
Class CacheContract (S : Type) := {
  cc_snapshots : S -> gmap string cache_view;
  cc_step : S -> S -> Prop;
  cc_init : S -> Prop;
  cc_init_empty : forall s, cc_init s -> cc_snapshots s = ∅;
  cc_refines : forall s s', cc_step s s' -> rtc spec_step (cc_snapshots s) (cc_snapshots s')
}.

(** The hook's [{data, error, isLoading}] for a snapshot (spec, section 6). *)
Definition hook_of_view (o : option cache_view) : query_result :=
  match o with
  | None => {| data := VUndefined; error := VUndefined; isLoading := true |}
  | Some v =>
      {| data := default VUndefined (vvalue v);
         error := default VUndefined (verror v);
         isLoading := match vvalue v, vstatus v with
                      | None, (Idle | Loading) => true
                      | _, _ => false
                      end |}
  end.

Lemma hook_result_view (o : option QueryEntry) : hook_result o = hook_of_view (view_of <$> o).
Proof. by destruct o. Qed.

Section Client.
Context {St : Type} `{!CacheContract St}.

Definition cc_reachable (s : St) : Prop := exists s0, cc_init s0 /\ rtc cc_step s0 s.

Lemma cc_reachable_ok (s : St) :
  cc_reachable s -> map_Forall (fun _ => view_ok) (cc_snapshots s).
Proof.
  intros (s0 & Hi & Hr). apply (rtc_spec_ok (cc_snapshots s0)).
  - rewrite (cc_init_empty s0 Hi). apply map_Forall_empty.
  - clear Hi. induction Hr as [|x y z Hxy _ IH]; [done|]. etrans; [apply cc_refines, Hxy|exact IH].
Qed.

Lemma table_loaded_page (d : value) (st : table_state) (p : page) :
  PortfolioTable {| data := d; error := VUndefined; isLoading := false |} st = Normal p ->
  p <> LoadingPage /\ forall m, p <> ErrorPage m.
Proof.
  unfold PortfolioTable. simpl. destruct (negb (truthy d)); [intros [= <-]; done|].
  destruct (object_entries d); simpl; [|discriminate].
  destruct (get d "portfolioSummary"); simpl; [|discriminate].
  destruct (js_map render_sector _); simpl; [|discriminate]. intros [= <-]. done.
Qed.

(** C12. Against any cache that keeps the contract: in every reachable
    state, a key whose snapshot is Success gives the page neither the
    spinner nor the error banner, and a key whose snapshot is Error carries
    an error, with which a truthy error gives the error banner. *)
Theorem page_of_snapshot (s : St) (k : string) (v : cache_view) (st : table_state) :
  cc_reachable s -> cc_snapshots s !! k = Some v ->
  (vstatus v = Success -> forall p, PortfolioTable (hook_of_view (Some v)) st = Normal p ->
     p <> LoadingPage /\ forall m, p <> ErrorPage m) /\
  (vstatus v = Error -> exists err, verror v = Some err /\
     (truthy err = true -> PortfolioTable (hook_of_view (Some v)) st = ErrorPage <$> getErrorFromException err)).
Proof.
  intros Hr Hk. destruct (cc_reachable_ok s Hr k v Hk) as [Hs He]. split.
  - intros Hv p. destruct (Hs Hv) as [Hval Herr]. destruct (vvalue v) as [d|] eqn:Hd; [|done].
    unfold hook_of_view. rewrite Hd, Herr. cbn -[PortfolioTable]. apply table_loaded_page.
  - intros Hv. destruct (verror v) as [err|] eqn:Herr; [|by destruct (He Hv)].
    exists err. split; [done|]. intros Ht. unfold PortfolioTable, hook_of_view.
    rewrite Hv, Herr. simpl. destruct (vvalue v); simpl; by rewrite Ht.
Qed.
End Client.

(** ** The timed model keeps the contract *)

Definition timed_cache (cfg : cache_config) : CacheContract world := {|
  cc_snapshots := abs;
  cc_step := step cfg;
  cc_init := fun w => exists t, w = empty_world t;
  cc_init_empty := fun w '(ex_intro _ t Ht) => eq_ind_r (fun w => abs w = ∅) (fmap_empty view_of) Ht;
  cc_refines := fun w w' Hs => spec_upto2_rtc _ _ (timed_step_refines cfg w w' Hs)
|}.

Lemma timed_reachable (cfg : cache_config) (w : world) :
  reachable cfg w -> @cc_reachable world (timed_cache cfg) w.
Proof.
  induction 1 as [t|w w' _ (s0 & Hi & Hr) Hs]; [exists (empty_world t); split; [by exists t|done]|].
  exists s0. split; [done|]. eapply rtc_r; [exact Hr|exact Hs].
Qed.

(** ** Witnesses *)

Lemma step_refines_witness :
  step portfolio_config (empty_world 0) one_subscriber /\
  spec_upto2 (abs (empty_world 0)) (abs one_subscriber).
Proof.
  split; [apply step_subscribe|].
  apply step_refines. apply step_subscribe.
Defined.

(** The portfolio cache after the first response arrived. *)
Definition ex_loaded : world :=
  completeFetch portfolio_key (Fetched (response_to_value ex_response)) one_subscriber.

Definition ex_view : cache_view := mkView Success (Some (response_to_value ex_response)) None 1.

Lemma ex_loaded_reachable : reachable portfolio_config ex_loaded.
Proof.
  apply (reach_step _ one_subscriber); [exact one_subscriber_reachable|].
  apply step_respond. apply (bool_decide_unpack _). vm_compute. reflexivity.
Qed.

Lemma page_of_snapshot_witness :
  @cc_reachable world (timed_cache portfolio_config) ex_loaded /\
  @cc_snapshots world (timed_cache portfolio_config) ex_loaded !! portfolio_key = Some ex_view /\
  (vstatus ex_view = Success -> forall p, PortfolioTable (hook_of_view (Some ex_view)) (mount 0) = Normal p ->
     p <> LoadingPage /\ forall m, p <> ErrorPage m) /\
  (vstatus ex_view = Error -> exists err, verror ex_view = Some err /\
     (truthy err = true -> PortfolioTable (hook_of_view (Some ex_view)) (mount 0) = ErrorPage <$> getErrorFromException err)).
Proof.
  assert (Hr : @cc_reachable world (timed_cache portfolio_config) ex_loaded)
    by exact (timed_reachable _ _ ex_loaded_reachable).
  assert (Hk : @cc_snapshots world (timed_cache portfolio_config) ex_loaded !! portfolio_key = Some ex_view)
    by (vm_compute; reflexivity).
  split; [exact Hr|]. split; [exact Hk|].
  exact (@page_of_snapshot world (timed_cache portfolio_config) ex_loaded portfolio_key ex_view (mount 0) Hr Hk).
Defined.
