(* ===== verification/CacheRuns.v ===== *)
(** Executions of the cache's event loop (spec, sections 4.2 and 5): each
    step of QueryCache.step labelled by the callback that runs it, finite
    executions as sequences of such events, and the polling deadline they
    guarantee: while a key keeps its subscribers, the clock cannot pass
    [intervalMs] without a poll of that key, and that poll leaves a request
    for the key in flight. *)

From S2P Require Import Prelude JsValue Dashboard QueryCache.
From stdpp Require Import gmap.
Local Open Scope Z_scope.

(** ** Events *)

(** One callback of the event loop: a hook mounting or unmounting, a timer
    firing, a response arriving, or the clock moving on. *)
Inductive event : Type :=
  | ESubscribe (k : string)
  | EUnsubscribe (k : string)
  | EPoll (k : string)
  | EEvict (k : string)
  | ERespond (k : string) (r : outcome)
  | EAdvance (t : Z).

Section Events.
Context (cfg : cache_config).

Definition run_event (ev : event) (w : world) : world :=
  match ev with
  | ESubscribe k => subscribe cfg k w
  | EUnsubscribe k => unsubscribe cfg k w
  | EPoll k => poll_tick cfg k w
  | EEvict k => evict_tick k w
  | ERespond k r => completeFetch k r w
  | EAdvance t => advance t w
  end.

(** When the event loop may run the callback: a timer only once due, a
    response only for a request in flight, time only up to the next timer. *)
Definition enabled (ev : event) (w : world) : Prop :=
  match ev with
  | EPoll k => exists e t, entries w !! k = Some e /\ nextPollAt e = Some t /\ t <= now w
  | EEvict k => exists e t, entries w !! k = Some e /\ evictAt e = Some t /\ t <= now w
  | ERespond k _ => k ∈ inflight w
  | EAdvance t => now w <= t /\ timers_not_before t w
  | ESubscribe _ | EUnsubscribe _ => True
  end.

(** A finite execution from [w] running [evs] and ending in [w']. *)
Inductive run : world -> list event -> world -> Prop :=
  | run_nil w : run w [] w
  | run_cons ev evs w w' : enabled ev w -> run (run_event ev w) evs w' -> run w (ev :: evs) w'.

(** [enabled] as a computable check. *)
Definition enabledb (ev : event) (w : world) : bool :=
  match ev with
  | EPoll k =>
      match entries w !! k with
      | Some e => match nextPollAt e with Some t => bool_decide (t <= now w) | None => false end
      | None => false
      end
  | EEvict k =>
      match entries w !! k with
      | Some e => match evictAt e with Some t => bool_decide (t <= now w) | None => false end
      | None => false
      end
  | ERespond k _ => bool_decide (k ∈ inflight w)
  | EAdvance t => bool_decide (now w <= t) &&
                  bool_decide (map_Forall (fun _ e => timer_ok t e = true) (entries w))
  | ESubscribe _ | EUnsubscribe _ => true
  end.

(** Runs a sequence of callbacks, failing at the first one not enabled. *)
Fixpoint run_events (w : world) (evs : list event) : option world :=
  match evs with
  | [] => Some w
  | ev :: evs' => if enabledb ev w then run_events (run_event ev w) evs' else None
  end.
End Events.

(** The key an event touches; the clock touches none. *)
Definition event_key (ev : event) : option string :=
  match ev with
  | ESubscribe k | EUnsubscribe k | EPoll k | EEvict k | ERespond k _ => Some k
  | EAdvance _ => None
  end.

(** [k] is subscribed and its poll timer is due at [t]. *)
Definition poll_armed (k : string) (t : Z) (w : world) : Prop :=
  exists e, entries w !! k = Some e /\ subscriberCount e <> 0%nat /\ nextPollAt e = Some t.

(** ** Labelled steps are the steps of the event loop *)

Section Labels.
Context (cfg : cache_config).

Lemma step_event (w w' : world) :
  step cfg w w' <-> exists ev, enabled ev w /\ w' = run_event cfg ev w.
Proof.
  split.
  - destruct 1.
    + by exists (ESubscribe k).
    + by exists (EUnsubscribe k).
    + exists (EPoll k). split; [|done]. simpl. eauto 10.
    + exists (EEvict k). split; [|done]. simpl. eauto 10.
    + by exists (ERespond k r).
    + by exists (EAdvance t).
  - intros ([] & Hen & ->); simpl in Hen |- *.
    + apply step_subscribe.
    + apply step_unsubscribe.
    + destruct Hen as (e & t & ? & ? & ?). by eapply step_poll.
    + destruct Hen as (e & t & ? & ? & ?). by eapply step_evict.
    + by apply step_respond.
    + destruct Hen. by apply step_advance.
Qed.

Lemma run_reachable (w w' : world) (evs : list event) :
  reachable cfg w -> run cfg w evs w' -> reachable cfg w'.
Proof.
  intros Hr Hrun. induction Hrun as [|ev evs w w' Hen _ IH]; [done|].
  apply IH. eapply reach_step; [done|]. apply step_event. eauto.
Qed.

(** Every callback but the clock leaves the clock alone. *)
Lemma run_event_now (ev : event) (w : world) :
  event_key ev <> None -> now (run_event cfg ev w) = now w.
Proof.
  intros Hk. destruct ev; simpl; try done.
  - unfold subscribe, beginFetch, set_entry.
    destruct (entries w !! k) as [e|]; [destruct (Nat.eqb _ 0)|]; simpl;
      repeat (case_match; simpl); done.
  - unfold unsubscribe. repeat case_match; done.
  - unfold poll_tick, beginFetch. repeat (case_match; simpl); done.
  - unfold evict_tick. repeat case_match; done.
  - unfold completeFetch. by case_match.
Qed.

(** Every callback leaves the entries of the other keys alone. *)
Lemma run_event_other (ev : event) (w : world) (k : string) :
  event_key ev <> Some k -> entries (run_event cfg ev w) !! k = entries w !! k.
Proof.
  intros Hk. assert (Hne : forall k', event_key ev = Some k' -> k' <> k) by naive_solver.
  destruct ev as [k'|k'|k'|k'|k' r|t]; simpl; try done;
    specialize (Hne k' eq_refl).
  - unfold subscribe. destruct (entries w !! k'); [destruct (Nat.eqb _ 0)|];
      rewrite ?beginFetch_lookup; unfold set_entry; cbn [entries];
      rewrite lookup_insert_ne by done; try done;
      destruct (entries w !! k); simpl; [by rewrite bool_decide_eq_false_2|done|
        by rewrite bool_decide_eq_false_2|done].
  - unfold unsubscribe. repeat case_match; unfold set_entry; cbn [entries];
      rewrite ?lookup_insert_ne; done.
  - unfold poll_tick. repeat case_match; try done.
    rewrite beginFetch_lookup. unfold set_entry. cbn [entries]. rewrite lookup_insert_ne by done.
    destruct (entries w !! k); simpl; [by rewrite bool_decide_eq_false_2|done].
  - unfold evict_tick. repeat case_match; cbn [entries]; rewrite ?lookup_delete_ne; done.
  - unfold completeFetch. case_match; unfold set_entry; cbn [entries];
      rewrite ?lookup_insert_ne; done.
Qed.

(** A callback that is neither a poll nor an unsubscription of [k] keeps
    [k]'s poll timer armed, and the clock never passes an armed timer. *)
Lemma armed_step (ev : event) (w : world) (k : string) (t : Z) :
  enabled ev w -> ev <> EPoll k -> ev <> EUnsubscribe k ->
  poll_armed k t w -> now w <= t ->
  poll_armed k t (run_event cfg ev w) /\ now (run_event cfg ev w) <= t.
Proof.
  intros Hen Hp Hu (e & He & Hc & Ht) Hle.
  destruct (decide (event_key ev = Some k)) as [Hk|Hk].
  - rewrite run_event_now by congruence. split; [|done].
    unfold poll_armed. destruct ev as [k'|k'|k'|k'|k' r|t']; simpl in Hk; simplify_eq; simpl.
    + unfold subscribe. rewrite He. apply Nat.eqb_neq in Hc as Hc'. rewrite Hc'.
      unfold set_entry. cbn [entries]. rewrite lookup_insert_eq. eexists; split; [done|]. simpl. split; [lia|done].
    + unfold evict_tick. rewrite He. apply Nat.eqb_neq in Hc as Hc'. rewrite Hc'. by exists e.
    + unfold completeFetch. rewrite He. unfold set_entry. cbn [entries]. rewrite lookup_insert_eq.
      eexists; split; [done|]. by destruct r.
  - split.
    + unfold poll_armed. rewrite run_event_other by done. by exists e.
    + destruct (decide (event_key ev = None)) as [Hn|Hn]; [|by rewrite run_event_now].
      destruct ev; simpl in Hn; try discriminate. destruct Hen as [_ Hnb].
      by apply (proj2 (Hnb k e He)).
Qed.

(** A poll of a key always leaves a request for it in flight: [beginFetch]
    issues one, or one is already outstanding because the entry is Loading. *)
Lemma poll_tick_inflight (w : world) (k : string) (e : QueryEntry) (t : Z) :
  cache_inv w -> entries w !! k = Some e -> nextPollAt e = Some t ->
  k ∈ inflight (poll_tick cfg k w).
Proof.
  intros Hinv He Ht. unfold poll_tick. rewrite He, Ht.
  unfold beginFetch, set_entry. cbn [entries]. rewrite lookup_insert_eq. simpl.
  case_bool_decide as Hs; simpl; [|by left].
  by apply (Hinv k e He).
Qed.

(** [beginFetch] keeps every entry's subscribers and timers. *)
Lemma beginFetch_timers (k k' : string) (w : world) (e' : QueryEntry) :
  entries (beginFetch k w) !! k' = Some e' ->
  exists e, entries w !! k' = Some e /\ nextPollAt e' = nextPollAt e /\
    subscriberCount e' = subscriberCount e.
Proof.
  rewrite beginFetch_lookup. destruct (entries w !! k') as [e|]; simpl; [|done].
  intros [= <-]. exists e. by case_bool_decide.
Qed.

(** After a callback on [k], [k]'s poll timer is unarmed, armed afresh
    [intervalMs] from now, kept, or (a poll) moved [intervalMs] on. *)
Lemma same_key_next (ev : event) (w : world) (k : string) (e' : QueryEntry) (t' : Z) :
  event_key ev = Some k -> entries (run_event cfg ev w) !! k = Some e' -> nextPollAt e' = Some t' ->
  t' = now w + intervalMs cfg \/
  exists e t0, entries w !! k = Some e /\ nextPollAt e = Some t0 /\
    (t' = t0 \/ (ev = EPoll k /\ t' = t0 + intervalMs cfg)).
Proof.
  intros Hk He' Ht'. destruct ev as [k0|k0|k0|k0|k0 r|t]; simpl in Hk, He'; simplify_eq.
  - unfold subscribe in He'. destruct (entries w !! k) as [e|] eqn:He.
    + destruct (Nat.eqb _ 0).
      * apply beginFetch_timers in He' as (e1 & He1 & Hn & _). unfold set_entry in He1.
        cbn [entries] in He1. rewrite lookup_insert_eq in He1. simplify_eq. left. simpl in *. congruence.
      * unfold set_entry in He'. cbn [entries] in He'. rewrite lookup_insert_eq in He'. simplify_eq.
        right. eauto 10.
    + apply beginFetch_timers in He' as (e1 & He1 & Hn & _). unfold set_entry in He1.
      cbn [entries] in He1. rewrite lookup_insert_eq in He1. simplify_eq. left. simpl in *. congruence.
  - unfold unsubscribe in He'. destruct (entries w !! k) as [e|] eqn:He; [|congruence].
    right. exists e. destruct (subscriberCount e) as [|[|n]].
    + rewrite He in He'. simplify_eq. eauto.
    + unfold set_entry in He'. cbn [entries] in He'. rewrite lookup_insert_eq in He'.
      simplify_eq.
    + unfold set_entry in He'. cbn [entries] in He'. rewrite lookup_insert_eq in He'.
      simplify_eq. simpl in Ht'. eauto.
  - unfold poll_tick in He'. destruct (entries w !! k) as [e|] eqn:He; [|congruence].
    destruct (nextPollAt e) as [t0|] eqn:Ht0; [|rewrite He in He'; simplify_eq; congruence].
    apply beginFetch_timers in He' as (e1 & He1 & Hn & _). unfold set_entry in He1.
    cbn [entries] in He1. rewrite lookup_insert_eq in He1. simplify_eq. simpl in *.
    right. exists e, t0. naive_solver.
  - unfold evict_tick in He'. destruct (entries w !! k) as [e|] eqn:He; [|congruence].
    destruct (Nat.eqb _ 0); [cbn [entries] in He'; by rewrite lookup_delete_eq in He'|].
    rewrite He in He'. simplify_eq. eauto 10.
  - unfold completeFetch in He'. destruct (entries w !! k) as [e|] eqn:He; [|simpl in He'; congruence].
    unfold set_entry in He'. cbn [entries] in He'. rewrite lookup_insert_eq in He'.
    right. exists e. destruct r; simplify_eq; simpl in *; eauto 10.
Qed.

(** Every armed poll timer is due no earlier than the clock and at most
    [intervalMs] ahead of it. *)
Definition poll_bounded (w : world) : Prop :=
  forall k e t, entries w !! k = Some e -> nextPollAt e = Some t ->
    now w <= t <= now w + intervalMs cfg.

Section Bounded.
Hypothesis interval_nonneg : 0 <= intervalMs cfg.

Lemma poll_bounded_step (ev : event) (w : world) :
  enabled ev w -> poll_bounded w -> poll_bounded (run_event cfg ev w).
Proof.
  intros Hen Hb k e' t' He' Ht'.
  destruct (event_key ev) as [k0|] eqn:Hk.
  - rewrite run_event_now by congruence.
    destruct (decide (k0 = k)) as [->|Hne].
    + destruct (same_key_next ev w k e' t' Hk He' Ht')
        as [->|(e & t0 & He & Ht0 & [->|[-> ->]])]; [lia|by eapply Hb|].
      pose proof (Hb k e t0 He Ht0).
      destruct Hen as (e1 & t1 & He1 & Ht1 & Hle). simplify_eq. lia.
    + rewrite run_event_other in He' by congruence. by eapply Hb.
  - destruct ev; simplify_eq. destruct Hen as [Hle Hnb]. simpl in *.
    specialize (Hb k e' t' He' Ht'). specialize (proj2 (Hnb k e' He') t' Ht'). lia.
Qed.

Lemma reachable_poll_bounded (w : world) : reachable cfg w -> poll_bounded w.
Proof.
  induction 1 as [t|w w' _ IH Hstep].
  - intros k e t' He. simpl in He. by rewrite lookup_empty in He.
  - apply step_event in Hstep as (ev & Hen & ->). by apply poll_bounded_step.
Qed.
End Bounded.

Lemma enabledb_sound (ev : event) (w : world) : enabledb ev w = true -> enabled ev w.
Proof.
  destruct ev as [k|k|k|k|k r|t]; simpl; try done.
  - destruct (entries w !! k) as [e|]; [|done]. destruct (nextPollAt e) as [t|] eqn:Ht; [|done].
    intros ?%bool_decide_eq_true. eauto.
  - destruct (entries w !! k) as [e|]; [|done]. destruct (evictAt e) as [t|] eqn:Ht; [|done].
    intros ?%bool_decide_eq_true. eauto.
  - by intros ?%bool_decide_eq_true.
  - intros [?%bool_decide_eq_true ?%bool_decide_eq_true]%andb_prop.
    split; [done|]. by apply timers_not_before_check.
Qed.

Lemma run_events_sound (evs : list event) (w w' : world) :
  run_events cfg w evs = Some w' -> run cfg w evs w'.
Proof.
  revert w. induction evs as [|ev evs IH]; simpl; intros w.
  - intros [= <-]. constructor.
  - destruct (enabledb ev w) eqn:Hen; [|done]. intros Hr.
    constructor; [by apply enabledb_sound | by apply IH].
Qed.

(** Along an execution in which [k] keeps its subscribers, the clock stays
    at or before [k]'s armed poll time [t] until a poll of [k] runs, and that
    poll leaves a request for [k] in flight. *)
Lemma first_poll (k : string) (evs : list event) : forall (w w' : world) (t : Z),
  run cfg w evs w' -> reachable cfg w -> poll_armed k t w -> now w <= t ->
  Forall (fun ev => ev <> EUnsubscribe k) evs -> t < now w' ->
  exists evs1 evs2 w1, evs = evs1 ++ EPoll k :: evs2 /\ run cfg w evs1 w1 /\
    now w1 <= t /\ k ∈ inflight (poll_tick cfg k w1).
Proof.
  induction evs as [|ev evs IH]; intros w w' t Hrun Hr Harm Hle Hno Hlt;
    inversion Hrun as [|ev' evs' w0 w0' Hen Hrest]; subst; [lia|].
  apply Forall_cons in Hno as [Hu Hno].
  assert (Hpoll : ev = EPoll k \/ ev <> EPoll k).
  { destruct ev; try (right; congruence). destruct (decide (k0 = k)); [left|right]; congruence. }
  destruct Hpoll as [->|Hp].
  - exists [], evs, w. split; [done|]. split; [constructor|]. split; [done|].
    destruct Harm as (e & He & _ & Ht).
    by eapply poll_tick_inflight; [apply (reachable_cache_inv cfg)| |].
  - destruct (armed_step ev w k t Hen Hp Hu Harm Hle) as [Harm' Hle'].
    assert (Hr' : reachable cfg (run_event cfg ev w)).
    { eapply reach_step; [done|]. apply step_event. eauto. }
    destruct (IH _ _ _ Hrest Hr' Harm' Hle' Hno Hlt) as (evs1 & evs2 & w1 & -> & Hrun1 & Hw1 & Hin).
    exists (ev :: evs1), evs2, w1. split; [done|]. split; [by constructor|]. done.
Qed.
End Labels.

(** ** Theorems *)

(** C26. In every reachable state of the portfolio cache, an armed poll
    timer is due no earlier than the clock and at most [intervalMs]
    (15000 ms) ahead of it. *)
Theorem portfolio_poll_bounded (w : world) :
  reachable portfolio_config w -> poll_bounded portfolio_config w.
Proof. apply reachable_poll_bounded. cbv; discriminate. Qed.

(** C7. Polling cannot starve: in every execution of the event loop from a
    reachable state in which a subscribed key is never unsubscribed, if the
    clock moves on by more than [intervalMs] (15000 ms), a poll of that key
    runs no later than [intervalMs] after the start, and right after it a
    request for the key is in flight. *)
Theorem poll_within_interval (w w' : world) (evs : list event) (k : string) :
  reachable portfolio_config w ->
  (exists e, entries w !! k = Some e /\ subscriberCount e <> 0%nat) ->
  Forall (fun ev => ev <> EUnsubscribe k) evs ->
  run portfolio_config w evs w' ->
  now w + intervalMs portfolio_config < now w' ->
  exists evs1 evs2 w1, evs = evs1 ++ EPoll k :: evs2 /\ run portfolio_config w evs1 w1 /\
    now w1 <= now w + intervalMs portfolio_config /\ k ∈ inflight (poll_tick portfolio_config k w1).
Proof.
  intros Hr (e & He & Hc) Hno Hrun Hlt.
  destruct (nextPollAt e) as [t|] eqn:Ht.
  2:{ destruct (reachable_cache_inv _ w Hr k e He) as [[_ H0] _]. by apply H0 in Ht. }
  destruct (reachable_poll_bounded portfolio_config ltac:(cbv; discriminate) w Hr k e t He Ht) as [Hlo Hhi].
  destruct (first_poll portfolio_config k evs w w' t Hrun Hr) as (evs1 & evs2 & w1 & Hsplit & Hrun1 & Hw1 & Hin);
    [by exists e | lia | done | lia |].
  exists evs1, evs2, w1. repeat split; [done | done | lia | done].
Qed.

(** ** Witnesses *)

(** One subscriber at time 0; its first response arrives, the clock reaches
    the poll time, the poll runs, and the clock moves on. *)
Definition poll_demo : list event :=
  [ERespond portfolio_key (Fetched VNull); EAdvance 15000; EPoll portfolio_key; EAdvance 15001].

Definition poll_demo_end : world :=
  default one_subscriber (run_events portfolio_config one_subscriber poll_demo).

Lemma portfolio_poll_bounded_witness : poll_bounded portfolio_config one_subscriber.
Proof. apply portfolio_poll_bounded. apply one_subscriber_reachable. Defined.

Lemma poll_within_interval_witness :
  exists evs1 evs2 w1, poll_demo = evs1 ++ EPoll portfolio_key :: evs2 /\
    run portfolio_config one_subscriber evs1 w1 /\
    now w1 <= now one_subscriber + intervalMs portfolio_config /\
    portfolio_key ∈ inflight (poll_tick portfolio_config portfolio_key w1).
Proof.
  apply (poll_within_interval one_subscriber poll_demo_end poll_demo portfolio_key).
  - apply one_subscriber_reachable.
  - eexists. split; [vm_compute; reflexivity | discriminate].
  - repeat constructor; discriminate.
  - apply run_events_sound. vm_compute. reflexivity.
  - vm_compute. reflexivity.
Defined.

(** ** The polling scenario of spec section 8 *)

(** The number of requests a sequence of callbacks issues. *)
Fixpoint fetch_attempts (cfg : cache_config) (w : world) (evs : list event) : nat :=
  match evs with
  | [] => 0
  | ev :: evs' =>
      let w' := run_event cfg ev w in
      (if Nat.ltb (length (inflight w)) (length (inflight w')) then 1 else 0) + fetch_attempts cfg w' evs'
  end.

(** Subscribe at 0, then three poll ticks 15 s apart, the four responses
    alternating between success and failure. *)
Definition scenario_events : list event :=
  [ESubscribe portfolio_key; ERespond portfolio_key (Fetched (VStr "v1"));
   EAdvance 15000; EPoll portfolio_key; ERespond portfolio_key (Failed (VStr "e1"));
   EAdvance 30000; EPoll portfolio_key; ERespond portfolio_key (Fetched (VStr "v2"));
   EAdvance 45000; EPoll portfolio_key; ERespond portfolio_key (Failed (VStr "e2"))].

(** After the immediate fetch and three ticks of the interval there were
    four attempts (one per tick plus the one at the start), every callback
    ran when due, polling survived both failures, and the entry reflects
    the last outcome while keeping the last good body. *)
Example polling_scenario :
  exists w, run portfolio_config (empty_world 0) scenario_events w /\
    fetch_attempts portfolio_config (empty_world 0) scenario_events = 4%nat /\
    inflight w = [] /\
    (fun e => (status e, payload e, errorInfo e, nextPollAt e)) <$> entries w !! portfolio_key
      = Some (Error, Some (VStr "v2"), Some (VStr "e2"), Some 60000).
Proof.
  eexists. split; [apply run_events_sound; vm_compute; reflexivity|].
  vm_compute. repeat split.
Qed.
