(* ===== verification/BaseQuery.v ===== *)
(** The transport of one fetch cycle: [fetchBaseQuery] with the
    [responseHandler] of src/src/api/app-api-slice.ts (lines 8-22), and
    what the page shows for each failure it produces.  [fetchBaseQuery]
    is RTK Query's library code: a request that cannot be sent fails with
    [{status: "FETCH_ERROR", error}]; a body the handler cannot decode
    fails with [{status: "PARSING_ERROR", originalStatus, data: text,
    error}]; a decoded body with a status outside 200-299 fails with
    [{status, data: body}]; otherwise the body is the result.  [JSON.parse]
    (behind [response.json()]) and the engine's error texts are variables
    of the section: the theorems hold for every parser.  Composed with the
    cache, the hook and [getErrorFromException], every transport failure
    shows the error banner, with the server's [message] field when its
    error body is an object that has one, and the generic text otherwise. *)

From S2P Require Import Prelude JsValue ErrorUtils Dashboard QueryCache.
From stdpp Require Import gmap.
Local Open Scope Z_scope.
Local Open Scope string_scope.

(** An HTTP response: its status and the text of its body. *)
Record http_response : Type := mkResponse {
  resp_status : Z;
  resp_body : string
}.

Section Transport.
Context (json_parse : string -> option value).  (** [JSON.parse]: a value, or a SyntaxError *)
Context (fetch_error_text parse_error_text : string).  (** [String(e)] of the two exceptions *)

(** Lines 15-21: [responseHandler(response) { return response.json(); }]
    (the 401 branch is commented out). *)
Definition responseHandler (r : http_response) : option value := json_parse (resp_body r).

(** One request through [fetchBaseQuery]: [None] when the request could
    not be sent. *)
Definition base_query (res : option http_response) : outcome :=
  match res with
  | None => Failed (VObj [("status", VStr "FETCH_ERROR"); ("error", VStr fetch_error_text)])
  | Some r =>
      match responseHandler r with
      | None => Failed (VObj [("status", VStr "PARSING_ERROR"); ("originalStatus", num_of_Z (resp_status r));
                              ("data", VStr (resp_body r)); ("error", VStr parse_error_text)])
      | Some v =>
          if bool_decide (200 <= resp_status r < 300) then Fetched v
          else Failed (VObj [("status", num_of_Z (resp_status r)); ("data", v)])
      end
  end.

(** The banner text for a decoded error body [v]: its truthy [message]
    when it is an object that has one, the generic text otherwise. *)
Definition body_message (v : value) : value :=
  match v with
  | VObj ps => if truthy (lookup_or_undef "message" ps) then lookup_or_undef "message" ps
               else VStr something_went_wrong
  | _ => VStr something_went_wrong
  end.

(** What the banner shows for a failed request. *)
Definition banner_of (res : option http_response) : value :=
  match res with
  | Some r => match responseHandler r with Some v => body_message v | None => VStr something_went_wrong end
  | None => VStr something_went_wrong
  end.

(** ** Lemmas *)

(** The error object of [fetchBaseQuery] for a rejected status, read by
    [getErrorFromException]: the top level has no [message], so the
    decoded body [data] decides. *)
Lemma getError_status_error (s : Z) (v : value) :
  getErrorFromException (VObj [("status", num_of_Z s); ("data", v)]) = Normal (body_message v).
Proof.
  rewrite getError_obj_unfold. unfold body_message, lookup_or_undef. simpl.
  destruct (truthy v) eqn:Ht.
  - destruct v as [| |b|n|str|es|ps]; try discriminate; try reflexivity.
    simpl. by destruct (truthy (default VUndefined (assoc_lookup "message" ps))).
  - destruct v; try reflexivity. discriminate.
Qed.

(** A failed request yields an error object that [getErrorFromException]
    reads without throwing, as the banner text [banner_of]. *)
Lemma base_query_failed_banner (res : option http_response) (err : value) :
  base_query res = Failed err -> truthy err = true /\ getErrorFromException err = Normal (banner_of res).
Proof.
  destruct res as [r|]; simpl; [|intros [= <-]; split; reflexivity].
  unfold banner_of. destruct (responseHandler r) as [v|].
  - case_bool_decide; [discriminate|]. intros [= <-]. split; [done|]. apply getError_status_error.
  - intros [= <-]. split; [done|]. unfold getErrorFromException. simpl.
    destruct (resp_body r); reflexivity.
Qed.

(** ** Theorems *)

(** C10. Whatever the transport does, a failed request, once completed in
    the cache, makes the page show the error banner and never throw: the
    server's [message] when its decoded error body is an object with a
    truthy [message], and the generic text for an unreachable server, an
    undecodable body, or any other error body (so a body's [error] field,
    the spec's [response.data.error] rule, is never shown). *)
Theorem transport_failure_banner (res : option http_response) (err : value)
    (w : world) (k : string) (e : QueryEntry) (st : table_state) :
  base_query res = Failed err -> entries w !! k = Some e ->
  PortfolioTable (hook_result (entries (completeFetch k (base_query res) w) !! k)) st
    = Normal (ErrorPage (banner_of res)).
Proof.
  intros Hb He. destruct (base_query_failed_banner res err Hb) as [Ht Hg]. rewrite Hb.
  unfold completeFetch. rewrite He. unfold set_entry. cbn [entries]. rewrite lookup_insert_eq.
  unfold PortfolioTable, hook_result. simpl. destruct (payload e); simpl; by rewrite Ht, Hg.
Qed.
End Transport.

(** ** Witnesses *)

(** A parser that decodes every body to [{error: "down"}]. *)
Definition parse_error_body (_ : string) : option value := Some (VObj [("error", VStr "down")]).

Lemma transport_failure_banner_witness :
  PortfolioTable (hook_result (entries (completeFetch portfolio_key
      (base_query parse_error_body "TypeError: Failed to fetch" "SyntaxError" (Some (mkResponse 503 "x")))
      one_subscriber) !! portfolio_key)) (mount 0)
  = Normal (ErrorPage (VStr something_went_wrong)).
Proof.
  apply (transport_failure_banner parse_error_body "TypeError: Failed to fetch" "SyntaxError"
           (Some (mkResponse 503 "x")) (VObj [("status", num_of_Z 503); ("data", VObj [("error", VStr "down")])])
           one_subscriber portfolio_key
           (mkEntry Loading None None 1 None None (Some (0 + intervalMs portfolio_config)))).
  - reflexivity.
  - vm_compute. reflexivity.
Defined.
