(* ===== verification/NumberFormat.v ===== *)
(** The number operations of ECMAScript that the cards and tables apply to
    the API's figures: [/] and [*] (Number::divide, Number::multiply),
    [Math.abs], [Math.min], [Number.prototype.toFixed] and [parseFloat], and
    [formatCurrency] of src/src/utils/format.utiils.ts.  Finite numbers are
    exact rationals ([JsValue.number]); [toFixed] and [parseFloat] are
    written from ECMA-262 on those exact values, the rounding of [/] and [*]
    to the nearest double is not modelled. *)

From S2P Require Import Prelude JsValue.
From Stdlib Require Import QArith Qround Qabs Qfield Lqa Ascii.
Local Close Scope Q_scope.
Local Open Scope string_scope.

(** ** Arithmetic and comparison *)

Definition Qltb (p q : Q) : bool := negb (Qle_bool q p).

Definition inf_of_sign (pos : bool) : number := if pos then NPosInf else NNegInf.

(** Unary [-]. *)
Definition num_neg (x : number) : number :=
  match x with
  | NFin q => NFin (- q)
  | NPosInf => NNegInf
  | NNegInf => NPosInf
  | NNaN => NNaN
  end.

(** Number::multiply, without signed zeros. *)
Definition num_mul (a b : number) : number :=
  match a, b with
  | NNaN, _ | _, NNaN => NNaN
  | NFin p, NFin q => NFin (p * q)
  | NFin p, NPosInf | NPosInf, NFin p =>
      if Qeq_bool p 0 then NNaN else inf_of_sign (Qltb 0 p)
  | NFin p, NNegInf | NNegInf, NFin p =>
      if Qeq_bool p 0 then NNaN else inf_of_sign (Qltb p 0)
  | NPosInf, NPosInf | NNegInf, NNegInf => NPosInf
  | NPosInf, NNegInf | NNegInf, NPosInf => NNegInf
  end.

(** Number::divide; a zero divisor is [+0], the only zero JSON numbers
    decode to. *)
Definition num_div (a b : number) : number :=
  match a, b with
  | NNaN, _ | _, NNaN => NNaN
  | NFin p, NFin q =>
      if Qeq_bool q 0 then (if Qeq_bool p 0 then NNaN else inf_of_sign (Qltb 0 p))
      else NFin (p / q)
  | NFin _, (NPosInf | NNegInf) => NFin 0
  | NPosInf, NFin q => inf_of_sign (negb (Qltb q 0))
  | NNegInf, NFin q => inf_of_sign (Qltb q 0)
  | (NPosInf | NNegInf), (NPosInf | NNegInf) => NNaN
  end.

(** [Math.abs]. *)
Definition math_abs (x : number) : number :=
  match x with
  | NFin q => NFin (Qabs q)
  | NPosInf | NNegInf => NPosInf
  | NNaN => NNaN
  end.

(** IsLessThan on numbers (false when either is NaN). *)
Definition num_lt (a b : number) : bool :=
  match a, b with
  | NNaN, _ | _, NNaN => false
  | NNegInf, NNegInf => false
  | NNegInf, _ => true
  | _, NNegInf => false
  | NPosInf, _ => false
  | NFin _, NPosInf => true
  | NFin p, NFin q => Qltb p q
  end.

(** [Math.min(a, b)]: NaN if either is NaN, else the smaller, [a] on ties. *)
Definition math_min (a b : number) : number :=
  match a, b with
  | NNaN, _ | _, NNaN => NNaN
  | _, _ => if num_lt b a then b else a
  end.

(** [a >= b] on numbers: false when either is NaN, else [!(a < b)]. *)
Definition num_ge (a b : number) : bool :=
  match a, b with
  | NNaN, _ | _, NNaN => false
  | _, _ => negb (num_lt a b)
  end.

(** ** [Number.prototype.toFixed] *)

Definition pow10 (f : nat) : Z := 10 ^ Z.of_nat f.

Fixpoint zeros (k : nat) : string :=
  match k with O => EmptyString | S k' => String "0"%char (zeros k') end.

(** Steps 8.b-8.d: [n] in decimal, padded with zeros to at least [f + 1]
    digits, with the point before the last [f]. *)
Definition fixed_digits (n : N) (f : nat) : string :=
  let m := show_N n in
  match f with
  | O => m
  | S _ =>
      let k := String.length m in
      let m' := if Nat.leb k f then zeros (f + 1 - k) ++ m else m in
      let k' := Nat.max k (f + 1) in
      String.substring 0 (k' - f) m' ++ "." ++ String.substring (k' - f) f m'
  end.

(** Step 8.a: the integer [n] with [n / 10^f - x] closest to zero, the
    larger one on a tie. *)
Definition round_fixed (x : Q) (f : nat) : Z := Qfloor (x * inject_Z (pow10 f) + (1 # 2)).

(** Number::toString for [x >= 10^21] writes the digits of [x] in exponent
    form; here [x] is taken to be an integer (every double of that size is)
    and its digits are its exact decimal digits without trailing zeros. *)
Fixpoint strip_zeros (fuel : nat) (n : N) (e : N) : N * N :=
  match fuel with
  | O => (n, e)
  | S fuel' =>
      if (n =? 0)%N then (n, e)
      else if (n mod 10 =? 0)%N then strip_zeros fuel' (n / 10) (e + 1)
      else (n, e)
  end.

Definition large_to_string (x : Q) : string :=
  let n := Z.to_N (Qfloor x) in
  let '(s, e) := strip_zeros (N.to_nat (N.size n)) n 0 in
  let ds := show_N s in
  let k := N.of_nat (String.length ds) in
  let exp := "e+" ++ show_N (k + e - 1) in
  match ds with
  | String d EmptyString => String d exp
  | String d rest => String d ("." ++ rest ++ exp)
  | EmptyString => exp
  end.

(** Number.prototype.toFixed, steps 4-11, for a fraction count [f] in
    0..100. *)
Definition toFixed (x : number) (f : nat) : string :=
  match x with
  | NNaN => "NaN"
  | NPosInf => "Infinity"
  | NNegInf => "-Infinity"
  | NFin q =>
      let s := if Qltb q 0 then "-" else "" in
      let a := Qabs q in
      if Qle_bool (inject_Z (10 ^ 21)) a then s ++ large_to_string a
      else s ++ fixed_digits (Z.to_N (round_fixed a f)) f
  end.

(** ** [parseFloat] *)

(** The ASCII members of WhiteSpace and LineTerminator (tab, line feed,
    vertical tab, form feed, carriage return, space). *)
Definition is_js_space (c : ascii) : bool :=
  let n := N_of_ascii c in ((9 <=? n) && (n <=? 13))%N || (n =? 32)%N.

Fixpoint trim_start (s : string) : string :=
  match s with
  | String c s' => if is_js_space c then trim_start s' else s
  | EmptyString => EmptyString
  end.

Definition is_digit (c : ascii) : bool := match digit_val c with Some _ => true | None => false end.

(** The longest prefix of decimal digits, and the rest. *)
Fixpoint span_digits (s : string) : string * string :=
  match s with
  | String c s' =>
      if is_digit c then let '(d, r) := span_digits s' in (String c d, r) else (EmptyString, s)
  | EmptyString => (EmptyString, EmptyString)
  end.

Definition digits_N (s : string) : N := default 0%N (digits_value 0 s).

(** ExponentPart of StrUnsignedDecimalLiteral: [e] or [E], an optional
    sign, one digit at least; [None] when the text does not continue with
    one (the [e] is then not part of the literal). *)
Definition exponent_part (s : string) : option Z :=
  match s with
  | String c s' =>
      if (c =? "e")%char || (c =? "E")%char then
        let '(neg, s'') :=
          match s' with
          | String "-" r => (true, r)
          | String "+" r => (false, r)
          | _ => (false, s')
          end in
        let '(ds, _) := span_digits s'' in
        match ds with
        | EmptyString => None
        | _ => Some (if neg then - Z.of_N (digits_N ds) else Z.of_N (digits_N ds))%Z
        end
      else None
  | EmptyString => None
  end.

Definition scale10 (e : Z) : Q :=
  (if (e <? 0)%Z then / inject_Z (10 ^ (- e)) else inject_Z (10 ^ e))%Q.

(** The value of the longest prefix that is a StrUnsignedDecimalLiteral:
    [Infinity], or digits with an optional fraction and exponent, at least
    one digit before or after the point. *)
Definition parse_unsigned (s : string) : option number :=
  if String.prefix "Infinity" s then Some NPosInf
  else
    let '(ip, r1) := span_digits s in
    let '(fp, r2) :=
      match r1 with
      | String "." r => span_digits r
      | _ => (EmptyString, r1)
      end in
    if String.eqb ip "" && String.eqb fp "" then None
    else
      let e := default 0%Z (exponent_part r2) in
      let mant := (inject_Z (Z.of_N (digits_N (ip ++ fp))) / inject_Z (10 ^ Z.of_nat (String.length fp)))%Q in
      Some (NFin (mant * scale10 e)%Q).

(** [parseFloat(string)]: NaN when no prefix of the trimmed text is a
    StrDecimalLiteral. *)
Definition parseFloat (s : string) : number :=
  let t := trim_start s in
  let '(neg, u) :=
    match t with
    | String "-" r => (true, r)
    | String "+" r => (false, r)
    | _ => (false, t)
    end in
  match parse_unsigned u with
  | Some x => if neg then num_neg x else x
  | None => NNaN
  end.

(** ** [formatCurrency] *)

Definition rupee : string := "₹".

(** Digit grouping works on the reversed digits: [group_rev k] cuts them
    into groups of [k] from the right of the number, separated by commas
    (its fuel, the number of digits, is more than the number of groups). *)
Fixpoint group_rev (k : nat) (fuel : nat) (l : list ascii) : list ascii :=
  match fuel with
  | O => l
  | S fuel' =>
      if Nat.leb (length l) k then l
      else firstn k l ++ ","%char :: group_rev k fuel' (skipn k l)
  end.

(** The Indian grouping of en-IN: the last three digits, then groups of
    two. *)
Definition group_indian_rev (l : list ascii) : list ascii :=
  if Nat.leb (length l) 3 then l
  else firstn 3 l ++ ","%char :: group_rev 2 (length l) (skipn 3 l).

(** The grouping of en-US: groups of three. *)
Definition group_thousands_rev (l : list ascii) : list ascii := group_rev 3 (length l) l.

Definition group_with (g : list ascii -> list ascii) (s : string) : string :=
  String.string_of_list_ascii (rev (g (rev (String.list_ascii_of_string s)))).

Definition group_indian (s : string) : string := group_with group_indian_rev s.

Definition two_digits (d : N) : string :=
  String (digit_char (d / 10)) (String (digit_char (d mod 10)) EmptyString).

(** format.utiils.ts, lines 2-8: [Intl.NumberFormat("en-IN", {style:
    "currency", currency: "INR", minimumFractionDigits: 2}).format(value)].
    INR has two minor digits, so exactly two fraction digits are shown;
    rounding is half away from zero; the sign precedes the symbol. *)
Definition formatCurrency (x : number) : string :=
  match x with
  | NNaN => rupee ++ "NaN"
  | NPosInf => rupee ++ "∞"
  | NNegInf => "-" ++ rupee ++ "∞"
  | NFin q =>
      let n := Z.to_N (round_fixed (Qabs q) 2) in
      (if Qltb q 0 then "-" else "") ++ rupee ++
        group_indian (show_N (n / 100)) ++ "." ++ two_digits (n mod 100)
  end.

(** ** [Number.prototype.toLocaleString] *)

(** The fraction digits of [d] thousandths, at most three, without
    trailing zeros. *)
Definition frac_digits (d : N) : string :=
  if (d =? 0)%N then ""
  else if (d mod 100 =? 0)%N then String (digit_char (d / 100)) EmptyString
  else if (d mod 10 =? 0)%N then two_digits (d / 10)
  else String (digit_char (d / 100)) (two_digits (d mod 100)).

(** [value.toLocaleString()] with the en-US locale: groups of three, at
    most three fraction digits (trailing zeros dropped), rounding half away
    from zero. *)
Definition toLocaleString (x : number) : string :=
  match x with
  | NNaN => "NaN"
  | NPosInf => "∞"
  | NNegInf => "-∞"
  | NFin q =>
      let n := Z.to_N (round_fixed (Qabs q) 3) in
      let fr := frac_digits (n mod 1000) in
      (if Qltb q 0 then "-" else "") ++ group_with group_thousands_rev (show_N (n / 1000)) ++
        match fr with EmptyString => "" | _ => "." ++ fr end
  end.

(** ** Numbers up to the value they denote *)

(** Two numbers are the same JavaScript number when they are the same
    non-finite value or finite with equal values ([Q] has many
    representations of one rational). *)
Definition num_eq (a b : number) : Prop :=
  match a, b with
  | NFin p, NFin q => (p == q)%Q
  | NPosInf, NPosInf | NNegInf, NNegInf | NNaN, NNaN => True
  | _, _ => False
  end.

Infix "≡n" := num_eq (at level 70) : js_scope.
Local Open Scope js_scope.

#[export] Instance num_eq_equiv : Equivalence num_eq.
Proof.
  split.
  - intros []; simpl; try done; reflexivity.
  - intros [] []; simpl; try done; intros; by symmetry.
  - intros [] [] []; simpl; try done; intros H1 H2; by rewrite H1.
Qed.

Lemma Qltb_iff (p q : Q) : Qltb p q = true <-> (p < q)%Q.
Proof.
  unfold Qltb. rewrite negb_true_iff. split; intros H.
  - apply Qnot_le_lt. intros Hle. apply Qle_bool_iff in Hle. congruence.
  - destruct (Qle_bool q p) eqn:E; [|done]. apply Qle_bool_iff in E. exfalso; apply (Qlt_not_le p q); done.
Qed.

#[export] Instance Qltb_proper : Proper (Qeq ==> Qeq ==> eq) Qltb.
Proof. intros p p' Hp q q' Hq. unfold Qltb. by rewrite Hp, Hq. Qed.

#[export] Instance Qeq_bool_proper : Proper (Qeq ==> Qeq ==> eq) Qeq_bool.
Proof.
  intros p p' Hp q q' Hq. destruct (Qeq_bool p q) eqn:E; symmetry.
  - apply Qeq_bool_iff. apply Qeq_bool_iff in E. by rewrite <- Hp, <- Hq.
  - apply not_true_iff_false. intros E'. apply Qeq_bool_iff in E'.
    apply Qeq_bool_neq in E. apply E. by rewrite Hp, Hq.
Qed.

#[export] Instance NFin_proper : Proper (Qeq ==> num_eq) NFin.
Proof. intros p q H. exact H. Qed.

#[export] Instance num_neg_proper : Proper (num_eq ==> num_eq) num_neg.
Proof. intros [] [] H; simpl in *; try done. by rewrite H. Qed.

#[export] Instance math_abs_proper : Proper (num_eq ==> num_eq) math_abs.
Proof. intros [] [] H; simpl in *; try done. by apply Qabs_wd. Qed.

#[export] Instance num_lt_proper : Proper (num_eq ==> num_eq ==> eq) num_lt.
Proof. intros [] [] Ha [] [] Hb; simpl in *; try done. by rewrite Ha, Hb. Qed.

#[export] Instance math_min_proper : Proper (num_eq ==> num_eq ==> num_eq) math_min.
Proof.
  intros [] [] Ha [] [] Hb; simpl in *; try done.
  rewrite Ha, Hb. by destruct (Qltb _ _).
Qed.

#[export] Instance num_mul_proper : Proper (num_eq ==> num_eq ==> num_eq) num_mul.
Proof.
  intros [] [] Ha [] [] Hb; simpl in *; try done;
    rewrite ?Ha, ?Hb; reflexivity.
Qed.

#[export] Instance num_div_proper : Proper (num_eq ==> num_eq ==> num_eq) num_div.
Proof.
  intros [] [] Ha [] [] Hb; simpl in *; try done;
    rewrite ?Ha, ?Hb; try reflexivity.
  destruct (Qeq_bool q2 0); [reflexivity|]. simpl. by rewrite Ha, Hb.
Qed.

(** ** Digit strings *)

Fixpoint all_digits (s : string) : bool :=
  match s with
  | String c s' => is_digit c && all_digits s'
  | EmptyString => true
  end.

Lemma all_digits_app (s t : string) : all_digits (s ++ t) = all_digits s && all_digits t.
Proof.
  induction s as [|c s IH]; [done|]. rewrite string_app_cons. simpl.
  by rewrite IH, andb_assoc.
Qed.

Lemma digits_value_all (acc v : N) (s : string) : digits_value acc s = Some v -> all_digits s = true.
Proof.
  revert acc. induction s as [|c s IH]; intros acc; [done|]. simpl. unfold is_digit.
  destruct (digit_val c); [apply IH|done].
Qed.

Lemma span_digits_app (s t : string) :
  all_digits s = true ->
  span_digits (s ++ t) = let '(d, r) := span_digits t in (s ++ d, r).
Proof.
  induction s as [|c s IH]; intros Hs.
  - rewrite string_app_nil_l. by destruct (span_digits t).
  - rewrite string_app_cons. simpl in Hs |- *.
    apply andb_true_iff in Hs as [Hc Hs]. rewrite Hc, IH by done.
    by destruct (span_digits t).
Qed.

Lemma span_digits_all (s : string) : all_digits s = true -> span_digits s = (s, "").
Proof.
  intros Hs. rewrite <- (string_app_nil_r s) at 1. rewrite span_digits_app by done.
  simpl. by rewrite string_app_nil_r.
Qed.

Lemma is_digit_dot : is_digit "." = false.
Proof. reflexivity. Qed.

Lemma prefix_Infinity_digit (c : ascii) (s : string) :
  is_digit c = true -> String.prefix "Infinity" (String c s) = false.
Proof.
  intros Hc. cbn [String.prefix]. destruct (ascii_dec "I" c) as [<-|]; [vm_compute in Hc; discriminate|done].
Qed.

Lemma digits_value_zeros (k : nat) : digits_value 0 (zeros k) = Some 0%N.
Proof. induction k as [|k IH]; [done|]. exact IH. Qed.

Lemma zeros_length (k : nat) : String.length (zeros k) = k.
Proof. induction k; simpl; auto. Qed.

Lemma show_N_length (n : N) : 1 <= String.length (show_N n).
Proof.
  unfold show_N. simpl. rewrite string_length_app. simpl. lia.
Qed.

(** What [fixed_digits] builds for [f > 0]: digits, a point, [f] digits,
    which read together are [n]. *)
Lemma fixed_digits_split (n : N) (f : nat) :
  0 < f ->
  exists a b, fixed_digits n f = a ++ String "." b /\ a <> "" /\
    String.length b = f /\ digits_value 0 (a ++ b) = Some n.
Proof.
  intros Hf. unfold fixed_digits. destruct f as [|f']; [lia|]. set (f := S f').
  set (m := show_N n). set (k := String.length m).
  set (m' := if Nat.leb k f then zeros (f + 1 - k) ++ m else m).
  assert (Hm' : digits_value 0 m' = Some n /\ String.length m' = Nat.max k (f + 1)).
  { subst m'. pose proof (show_N_length n). destruct (Nat.leb_spec k f).
    - rewrite digits_value_app, digits_value_zeros, string_length_app, zeros_length.
      split; [apply show_N_value|lia].
    - split; [apply show_N_value|lia]. }
  destruct Hm' as [Hv Hl]. set (k' := Nat.max k (f + 1)) in *.
  exists (String.substring 0 (k' - f) m'), (String.substring (k' - f) f m').
  pose proof (substring_split (k' - f) m') as Hs. rewrite Hl in Hs.
  replace (k' - (k' - f)) with f in Hs by lia.
  repeat split.
  - intros Ha. pose proof (substring_length 0 (k' - f) m') as Hla.
    rewrite Ha in Hla. simpl in Hla. lia.
  - apply substring_length. lia.
  - by rewrite Hs.
Qed.

Lemma digits_N_some (s : string) (v : N) : digits_value 0 s = Some v -> digits_N s = v.
Proof. unfold digits_N. by intros ->. Qed.

Lemma nonempty_digits (a : string) :
  a <> "" -> all_digits a = true ->
  exists c a', a = String c a' /\ is_digit c = true.
Proof.
  destruct a as [|c a']; [done|]. simpl. intros _ [Hc _]%andb_true_iff. by exists c, a'.
Qed.

(** The literal [a.b] of digits reads as the number [ab / 10^|b|]. *)
Lemma parse_unsigned_point (a b : string) (v : N) :
  a <> "" -> digits_value 0 (a ++ b) = Some v ->
  exists r, parse_unsigned (a ++ String "." b) = Some (NFin r) /\
    (r == inject_Z (Z.of_N v) / inject_Z (10 ^ Z.of_nat (String.length b)))%Q.
Proof.
  intros Ha Hv. pose proof (digits_value_all _ _ _ Hv) as Hd.
  rewrite all_digits_app in Hd. apply andb_true_iff in Hd as [Hda Hdb].
  destruct (nonempty_digits a Ha Hda) as (c & a' & Heq & Hc).
  assert (Hp : String.prefix "Infinity" (a ++ String "." b) = false)
    by (rewrite Heq, string_app_cons; by apply prefix_Infinity_digit).
  assert (Ha' : String.eqb a "" = false) by (by apply String.eqb_neq).
  unfold parse_unsigned. rewrite Hp, span_digits_app by done. simpl.
  rewrite span_digits_all, string_app_nil_r, Ha', (digits_N_some _ _ Hv) by done. simpl.
  eexists. split; [reflexivity|]. unfold scale10. simpl. apply Qmult_1_r.
Qed.

(** A literal of digits alone reads as its value. *)
Lemma parse_unsigned_int (a : string) (v : N) :
  a <> "" -> digits_value 0 a = Some v ->
  exists r, parse_unsigned a = Some (NFin r) /\ (r == inject_Z (Z.of_N v))%Q.
Proof.
  intros Ha Hv. pose proof (digits_value_all _ _ _ Hv) as Hda.
  destruct (nonempty_digits a Ha Hda) as (c & a' & Heq & Hc).
  assert (Hp : String.prefix "Infinity" a = false) by (rewrite Heq; by apply prefix_Infinity_digit).
  assert (Ha' : String.eqb a "" = false) by (by apply String.eqb_neq).
  unfold parse_unsigned. rewrite Hp, span_digits_all by done. simpl.
  rewrite Ha', string_app_nil_r, (digits_N_some _ _ Hv).
  eexists. split; [reflexivity|]. unfold scale10. simpl.
  change (inject_Z (10 ^ Z.of_nat 0)) with 1%Q. change (inject_Z (10 ^ 0)) with 1%Q. field.
Qed.

Definition starts_digit (s : string) : bool :=
  match s with String c _ => is_digit c | EmptyString => false end.

Lemma parse_fixed_digits (n : N) (f : nat) :
  starts_digit (fixed_digits n f) = true /\
  exists r, parse_unsigned (fixed_digits n f) = Some (NFin r) /\
    (r == inject_Z (Z.of_N n) / inject_Z (pow10 f))%Q.
Proof.
  destruct f as [|f'].
  - pose proof (show_N_value n) as Hv. assert (Ha : show_N n <> "").
    { pose proof (show_N_length n) as Hl. intros E. rewrite E in Hl. simpl in Hl. lia. }
    destruct (nonempty_digits _ Ha (digits_value_all _ _ _ Hv)) as (c & a' & Heq & Hc).
    change (fixed_digits n 0) with (show_N n). split; [by rewrite Heq|].
    destruct (parse_unsigned_int _ _ Ha Hv) as (r & Hr & Hq). exists r. split; [done|].
    rewrite Hq. unfold pow10. change (inject_Z (10 ^ Z.of_nat 0)) with 1%Q. field.
  - destruct (fixed_digits_split n (S f')) as (a & b & Heq & Ha & Hl & Hv); [lia|].
    pose proof (digits_value_all _ _ _ Hv) as Hd. rewrite all_digits_app in Hd.
    apply andb_true_iff in Hd as [Hda _].
    destruct (nonempty_digits _ Ha Hda) as (c & a' & Ea & Hc).
    rewrite Heq. split; [by rewrite Ea|].
    destruct (parse_unsigned_point _ _ _ Ha Hv) as (r & Hr & Hq). exists r.
    by rewrite Hl in Hq.
Qed.

(** The steps of [toFixed] for a finite value below [10^21]. *)
Lemma toFixed_small (q : Q) (f : nat) :
  (Qabs q < inject_Z (10 ^ 21))%Q ->
  toFixed (NFin q) f =
    (if Qltb q 0 then "-" else "") ++ fixed_digits (Z.to_N (round_fixed (Qabs q) f)) f.
Proof.
  intros Hq. unfold toFixed.
  replace (Qle_bool (inject_Z (10 ^ 21)) (Qabs q)) with false; [done|].
  symmetry. apply not_true_iff_false. rewrite Qle_bool_iff. by apply Qlt_not_le.
Qed.

Lemma parseFloat_digits (s : string) :
  starts_digit s = true ->
  parseFloat s = match parse_unsigned s with Some x => x | None => NNaN end /\
  parseFloat (String "-" s) = match parse_unsigned s with Some x => num_neg x | None => NNaN end.
Proof.
  destruct s as [|c s]; [done|]. simpl. intros Hc.
  assert (Hsp : is_js_space c = false).
  { revert Hc. unfold is_digit, digit_val, is_js_space.
    destruct (N.leb_spec 48 (N_of_ascii c)), (N.leb_spec (N_of_ascii c) 57); simpl; try done.
    intros _. destruct (N.leb_spec 9 (N_of_ascii c)), (N.leb_spec (N_of_ascii c) 13),
      (N.eqb_spec (N_of_ascii c) 32); simpl; lia. }
  unfold parseFloat. simpl. rewrite Hsp.
  assert (Hm : c <> "-"%char /\ c <> "+"%char) by (split; intros ->; discriminate Hc).
  split; [|done].
  destruct c as [[] [] [] [] [] [] [] []]; try done; destruct Hm as [Hm1 Hm2];
    (exfalso; apply Hm1; reflexivity) || (exfalso; apply Hm2; reflexivity).
Qed.

Lemma pow10_pos (f : nat) : (0 < inject_Z (pow10 f))%Q.
Proof.
  unfold pow10. change 0%Q with (inject_Z 0). rewrite <- Zlt_Qlt. apply Z.pow_pos_nonneg; lia.
Qed.

Lemma round_fixed_nonneg (a : Q) (f : nat) : (0 <= a)%Q -> (0 <= round_fixed a f)%Z.
Proof.
  intros Ha. unfold round_fixed. pose proof (pow10_pos f).
  change 0%Z with (Qfloor 0). apply Qfloor_resp_le.
  assert (0 <= a * inject_Z (pow10 f))%Q by (apply Qmult_le_0_compat; lra). lra.
Qed.

#[export] Hint Resolve round_fixed_nonneg Qabs_nonneg : js.

#[export] Instance inject_Z_proper : Proper (eq ==> Qeq) inject_Z.
Proof. intros ? ? ->. reflexivity. Qed.

#[export] Instance round_fixed_proper : Proper (Qeq ==> eq ==> eq) round_fixed.
Proof.
  intros a b Hab f ? <-. unfold round_fixed. apply Qfloor_comp. by rewrite Hab.
Qed.

(** Rounding to [f] places is off by half a unit of the last place at most. *)
Lemma round_fixed_error (a : Q) (f : nat) :
  (Qabs (inject_Z (round_fixed a f) / inject_Z (pow10 f) - a) <= (1 # 2) / inject_Z (pow10 f))%Q.
Proof.
  set (P := inject_Z (pow10 f)). pose proof (pow10_pos f) as HP. fold P in HP.
  set (y := (a * P + (1 # 2))%Q).
  pose proof (Qfloor_le y) as Hlo. pose proof (Qlt_floor y) as Hhi.
  unfold round_fixed. fold P. fold y. set (n := inject_Z (Qfloor y)) in *.
  rewrite inject_Z_plus in Hhi. fold n in Hhi. change (inject_Z 1) with 1%Q in Hhi.
  assert (Hx : ((n / P - a) * P == n - a * P)%Q) by (field; lra).
  apply Qabs_Qle_condition. split.
  - assert (Hneg : (- ((1 # 2) / P) == (- (1 # 2)) / P)%Q) by (field; lra).
    rewrite Hneg. apply Qle_shift_div_r; [done|]. rewrite Hx. unfold y in *. lra.
  - apply Qle_shift_div_l; [done|]. rewrite Hx. unfold y in *. lra.
Qed.

(** The number [toFixed] writes for a finite [q] below [10^21]: the sign of
    [q] and [|q|] rounded to [f] places. *)
Definition fixed_value (q : Q) (f : nat) : Q :=
  ((if Qltb q 0 then -1 else 1) * inject_Z (round_fixed (Qabs q) f) / inject_Z (pow10 f))%Q.

Lemma parseFloat_toFixed_value (q : Q) (f : nat) :
  (Qabs q < inject_Z (10 ^ 21))%Q ->
  exists r, parseFloat (toFixed (NFin q) f) = NFin r /\ (r == fixed_value q f)%Q.
Proof.
  intros Hq. rewrite toFixed_small by done.
  set (n := Z.to_N (round_fixed (Qabs q) f)).
  assert (Hn : Z.of_N n = round_fixed (Qabs q) f)
    by (apply Z2N.id; auto with js).
  destruct (parse_fixed_digits n f) as [Hs (r & Hr & Hv)].
  destruct (parseFloat_digits _ Hs) as [Hpos Hneg].
  unfold fixed_value. rewrite Hn in Hv. destruct (Qltb q 0).
  - exists (- r)%Q. split.
    + change ("-" ++ fixed_digits n f) with (String "-" (fixed_digits n f)).
      by rewrite Hneg, Hr.
    + rewrite Hv. field. pose proof (pow10_pos f). lra.
  - exists r. split.
    + change ("" ++ fixed_digits n f) with (fixed_digits n f). by rewrite Hpos, Hr.
    + rewrite Hv. field. pose proof (pow10_pos f). lra.
Qed.

(** ** Round trip *)

Lemma parseFloat_toFixed_close (q : Q) (f : nat) :
  (Qabs q < inject_Z (10 ^ 21))%Q ->
  exists r, parseFloat (toFixed (NFin q) f) = NFin r /\ (r == fixed_value q f)%Q /\
    (Qabs (r - q) <= (1 # 2) / inject_Z (pow10 f))%Q.
Proof.
  intros Hq. destruct (parseFloat_toFixed_value q f Hq) as (r & Hr & Hv).
  exists r. split; [done|]. split; [done|]. rewrite Hv. unfold fixed_value.
  pose proof (round_fixed_error (Qabs q) f) as He. pose proof (pow10_pos f).
  destruct (Qltb q 0) eqn:Hs.
  - apply Qltb_iff in Hs. assert (Ha : (Qabs q == - q)%Q) by (apply Qabs_neg; lra).
    rewrite Ha in He.
    assert (E : (-1 * inject_Z (round_fixed (Qabs q) f) / inject_Z (pow10 f) - q ==
                 - (inject_Z (round_fixed (- q) f) / inject_Z (pow10 f) - - q))%Q).
    { rewrite Ha. field. lra. }
    by rewrite E, Qabs_opp.
  - assert (0 <= q)%Q.
    { apply Qnot_lt_le. intros Hl. apply Qltb_iff in Hl. congruence. }
    assert (Ha : (Qabs q == q)%Q) by (by apply Qabs_pos).
    rewrite Ha in He |- *.
    assert (E : (1 * inject_Z (round_fixed q f) / inject_Z (pow10 f) - q ==
                 inject_Z (round_fixed q f) / inject_Z (pow10 f) - q)%Q) by (field; lra).
    by rewrite E.
Qed.


(** ** The currency text *)

Definition not_comma (c : ascii) : bool := negb (c =? ",")%char.

(** The text without its grouping separators. *)
Definition strip_commas (s : string) : string :=
  String.string_of_list_ascii (List.filter not_comma (String.list_ascii_of_string s)).

Lemma filter_firstn_skipn (k : nat) (l : list ascii) :
  (List.filter not_comma (firstn k l) ++ List.filter not_comma (skipn k l))%list = List.filter not_comma l.
Proof. by rewrite <- List.filter_app, List.firstn_skipn. Qed.

Lemma group_rev_strip (k fuel : nat) (l : list ascii) :
  List.filter not_comma (group_rev k fuel l) = List.filter not_comma l.
Proof.
  revert l. induction fuel as [|fuel IH]; intros l; [done|]. simpl.
  destruct (Nat.leb (length l) k); [done|].
  rewrite List.filter_app. cbn [List.filter]. change (not_comma ","%char) with false.
  cbv iota. by rewrite IH, filter_firstn_skipn.
Qed.

Lemma group_indian_rev_strip (l : list ascii) :
  List.filter not_comma (group_indian_rev l) = List.filter not_comma l.
Proof.
  unfold group_indian_rev. destruct (Nat.leb (length l) 3); [done|].
  rewrite List.filter_app. cbn [List.filter]. change (not_comma ","%char) with false.
  cbv iota. by rewrite group_rev_strip, filter_firstn_skipn.
Qed.

(** Removing the separators from a grouped text gives the text back. *)
Lemma group_with_strip (g : list ascii -> list ascii) (s : string) :
  (forall l, List.filter not_comma (g l) = List.filter not_comma l) ->
  strip_commas (group_with g s) = strip_commas s.
Proof.
  intros Hg. unfold strip_commas, group_with. rewrite String.list_ascii_of_string_of_list_ascii.
  by rewrite List.filter_rev, Hg, <- List.filter_rev, List.rev_involutive.
Qed.

Lemma group_indian_strip (s : string) : strip_commas (group_indian s) = strip_commas s.
Proof. apply group_with_strip, group_indian_rev_strip. Qed.

Lemma strip_commas_app (s t : string) : strip_commas (s ++ t) = strip_commas s ++ strip_commas t.
Proof.
  induction s as [|c s IH]; [done|]. rewrite string_app_cons.
  unfold strip_commas in *. simpl. destruct (not_comma c); simpl; by rewrite IH.
Qed.

Lemma strip_commas_digits (s : string) : all_digits s = true -> strip_commas s = s.
Proof.
  induction s as [|c s IH]; [done|]. simpl. intros [Hc Hs]%andb_true_iff.
  unfold strip_commas in *. simpl.
  replace (not_comma c) with true by (destruct (ascii_dec c ","); subst; [discriminate Hc|];
    unfold not_comma; by rewrite (proj2 (Ascii.eqb_neq c ",") n)).
  simpl. by rewrite IH.
Qed.

Lemma two_digits_value (acc d : N) :
  (d < 100)%N -> digits_value acc (two_digits d) = Some (100 * acc + d)%N.
Proof.
  intros Hd. unfold two_digits. simpl.
  rewrite digit_val_char by (apply N.Div0.div_lt_upper_bound; lia).
  rewrite digit_val_char by (apply N.mod_lt; lia).
  f_equal. pose proof (N.div_mod d 10). lia.
Qed.

Lemma show_N_digits (n : N) : show_N n <> "" /\ all_digits (show_N n) = true.
Proof.
  split; [|exact (digits_value_all _ _ _ (show_N_value n))].
  pose proof (show_N_length n) as Hl. intros E. rewrite E in Hl. simpl in Hl. lia.
Qed.

Lemma starts_digit_app (a t : string) :
  a <> "" -> all_digits a = true -> starts_digit (a ++ t) = true.
Proof.
  intros Ha Hd. destruct (nonempty_digits a Ha Hd) as (c & a' & -> & Hc). done.
Qed.

(** The amount of [formatCurrency] read without its separators: [n / 100]
    for the rounded number [n] of paise. *)
Lemma currency_text_value (n : N) :
  exists r, parseFloat (strip_commas (group_indian (show_N (n / 100)) ++ "." ++ two_digits (n mod 100)))
    = NFin r /\ (r == inject_Z (Z.of_N n) / 100)%Q.
Proof.
  destruct (show_N_digits (n / 100)) as [Hne Hd].
  assert (Hmod : (n mod 100 < 100)%N) by (apply N.mod_lt; lia).
  assert (Hv : digits_value 0 (show_N (n / 100) ++ two_digits (n mod 100)) = Some n).
  { rewrite digits_value_app, show_N_value, two_digits_value by done.
    f_equal. pose proof (N.div_mod n 100). lia. }
  assert (Hall : all_digits (two_digits (n mod 100)) = true)
    by exact (digits_value_all _ _ _ (two_digits_value 0 _ Hmod)).
  rewrite strip_commas_app, group_indian_strip, strip_commas_digits by done.
  change (strip_commas ("." ++ two_digits (n mod 100)))
    with (String "." (strip_commas (two_digits (n mod 100)))).
  rewrite strip_commas_digits by done.
  destruct (parse_unsigned_point _ _ _ Hne Hv) as (r & Hr & Hq).
  destruct (parseFloat_digits (show_N (n / 100) ++ String "." (two_digits (n mod 100))))
    as [Hp _]; [by apply starts_digit_app|].
  exists r. rewrite Hp, Hr. split; [done|]. by rewrite Hq.
Qed.

Lemma formatCurrency_fin (q : Q) :
  exists t r, formatCurrency (NFin q) = (if Qltb q 0 then "-" else "") ++ rupee ++ t /\
    parseFloat (strip_commas t) = NFin r /\
    (r == inject_Z (round_fixed (Qabs q) 2) / 100)%Q /\
    (Qabs (r - Qabs q) <= 1 # 200)%Q.
Proof.
  set (n := Z.to_N (round_fixed (Qabs q) 2)).
  assert (Hn : Z.of_N n = round_fixed (Qabs q) 2)
    by (apply Z2N.id; auto with js).
  destruct (currency_text_value n) as (r & Hr & Hq).
  eexists _, r. split; [reflexivity|]. split; [exact Hr|].
  rewrite Hn in Hq. split; [done|]. rewrite Hq.
  exact (round_fixed_error (Qabs q) 2).
Qed.

(** C18. [formatCurrency] of a finite amount [x] is a minus sign exactly when
    [x < 0], the rupee sign, and a text that, without its en-IN grouping
    commas, reads as [|x|] rounded to paise: within half a paisa of [|x|]. *)
Theorem formatCurrency_amount (q : Q) :
  exists t r, formatCurrency (NFin q) = (if Qltb q 0 then "-" else "") ++ rupee ++ t /\
    parseFloat (strip_commas t) = NFin r /\
    (r == inject_Z (round_fixed (Qabs q) 2) / 100)%Q /\
    (Qabs (r - Qabs q) <= 1 # 200)%Q.
Proof. exact (formatCurrency_fin q). Qed.

(** ** What [toFixed] and [toLocaleString] print *)

Lemma large_to_string_head (a : Q) : starts_digit (large_to_string a) = true.
Proof.
  unfold large_to_string. destruct (strip_zeros _ _ _) as [m e].
  destruct (show_N_digits m) as [Hne Hd]. revert Hne Hd.
  destruct (show_N m) as [|d [|d' rest]]; intros Hne Hd; [done| |];
    simpl in Hd |- *; by apply andb_true_iff in Hd as [-> _].
Qed.

Lemma starts_digit_ne (s t : string) : starts_digit s = true -> starts_digit t = false -> s <> t.
Proof. by intros Hs Ht ->; rewrite Hs in Ht. Qed.

(** [toFixed] never prints the empty string or "N/A". *)
Lemma toFixed_not_NA (x : number) (f : nat) : toFixed x f <> "" /\ toFixed x f <> "N/A".
Proof.
  destruct x as [q| | |]; try (split; discriminate).
  unfold toFixed. cbv zeta.
  assert (Hs : forall X, starts_digit X = true -> X <> "" /\ X <> "N/A")
    by (intros X HX; split; apply starts_digit_ne; done).
  destruct (Qltb q 0), (Qle_bool _ _); try (split; discriminate); apply Hs;
    [apply large_to_string_head|apply parse_fixed_digits].
Qed.

Lemma toLocaleString_nat (n : N) :
  toLocaleString (NFin (inject_Z (Z.of_N n))) = group_with group_thousands_rev (show_N n).
Proof.
  unfold toLocaleString.
  replace (Qltb (inject_Z (Z.of_N n)) 0) with false
    by (symmetry; apply not_true_iff_false; intros E%Qltb_iff;
        change 0%Q with (inject_Z 0) in E; rewrite <- Zlt_Qlt in E; lia).
  assert (Hr : round_fixed (Qabs (inject_Z (Z.of_N n))) 3 = (Z.of_N n * 1000)%Z).
  { unfold round_fixed, Qfloor. simpl. rewrite Z.abs_eq by lia.
    rewrite Z.mul_1_r. symmetry. apply Z.div_unique with 1%Z; unfold pow10; simpl; lia. }
  rewrite Hr. replace (Z.to_N (Z.of_N n * 1000)) with (n * 1000)%N by lia.
  rewrite N.div_mul, N.Div0.mod_mul by lia. change (frac_digits 0%N) with EmptyString.
  cbv iota. by rewrite string_app_nil_l, string_app_nil_r.
Qed.

Lemma group_thousands_strip (s : string) :
  strip_commas (group_with group_thousands_rev s) = strip_commas s.
Proof. apply group_with_strip. intros l. apply group_rev_strip. Qed.

(** ** [formatCurrency] and [toFixed(2)] print the same amount *)

(** [show_digits] gives the same digits with any fuel above the number of
    digits. *)
Lemma show_digits_fuel (fuel fuel' : nat) (n : N) :
  (0 < fuel)%nat -> (0 < fuel')%nat -> (n < 10 ^ N.of_nat fuel)%N -> (n < 10 ^ N.of_nat fuel')%N ->
  show_digits fuel n = show_digits fuel' n.
Proof.
  revert fuel' n. induction fuel as [|f IH]; intros [|f'] n H0 H0' Hn Hn'; try lia. simpl.
  destruct (N.ltb_spec n 10); [done|]. f_equal.
  rewrite Nat2N.inj_succ, N.pow_succ_r' in Hn, Hn'.
  assert (Hd : (n / 10 < 10 ^ N.of_nat f)%N /\ (n / 10 < 10 ^ N.of_nat f')%N)
    by (split; apply N.Div0.div_lt_upper_bound; lia).
  assert (Hpos : (1 <= n / 10)%N) by (apply (N.div_le_lower_bound n 10 1); lia).
  destruct f, f'; simpl in Hd; try lia. apply IH; lia.
Qed.

Lemma size_bound (n : N) : (n < 10 ^ N.of_nat (S (N.to_nat (N.size n))))%N.
Proof.
  pose proof (N.size_gt n) as Hs. rewrite Nat2N.inj_succ, N2Nat.id, N.pow_succ_r'.
  assert (2 ^ N.size n <= 10 ^ N.size n)%N by (apply N.pow_le_mono_l; lia). lia.
Qed.

(** The unfolding equation of [show_N]: the digits of [n / 10], unless
    [n] is a single digit, then the last digit. *)
Lemma show_N_step (n : N) :
  show_N n = (if (n <? 10)%N then "" else show_N (n / 10)) ++ String (digit_char (n mod 10)) "".
Proof.
  unfold show_N at 1. simpl. destruct (N.ltb_spec n 10); [done|]. f_equal.
  pose proof (size_bound n) as Hb. rewrite Nat2N.inj_succ, N.pow_succ_r' in Hb.
  assert (Hpos : (1 <= n / 10)%N) by (apply (N.div_le_lower_bound n 10 1); lia).
  destruct (N.to_nat (N.size n)) as [|f] eqn:Hf; simpl in Hb; [lia|].
  apply show_digits_fuel; [lia|lia| |apply size_bound].
  apply N.Div0.div_lt_upper_bound. rewrite Nat2N.inj_succ, N.pow_succ_r' in *. lia.
Qed.

(** Steps 8.b-8.d of [toFixed] for two places: the digits of the
    integer part, a point, and the two digits of the remainder. *)
Lemma fixed_digits_two (n : N) :
  fixed_digits n 2 = show_N (n / 100) ++ "." ++ two_digits (n mod 100).
Proof.
  assert (Hmod : forall m, ((m mod 100) / 10 = (m / 10) mod 10 /\ (m mod 100) mod 10 = m mod 10)%N).
  { intros m. change 100%N with (10 * 10)%N. rewrite (N.Div0.mod_mul_r m 10 10). split.
    - rewrite N.mul_comm, N.div_add by lia. rewrite N.div_small by (apply N.mod_lt; lia). lia.
    - rewrite N.mul_comm, N.Div0.mod_add. apply N.Div0.mod_mod. }
  destruct (Hmod n) as [H1 H2]. unfold two_digits. rewrite H1, H2.
  replace (n / 100)%N with (n / 10 / 10)%N by (rewrite N.Div0.div_div; reflexivity).
  destruct (N.ltb_spec n 10) as [Hs|Hs].
  - rewrite (N.div_small n 10), (N.mod_small n 10) by lia.
    unfold fixed_digits. rewrite show_N_step, (proj2 (N.ltb_lt n 10)) by done.
    rewrite (N.mod_small n 10) by lia. reflexivity.
  - destruct (N.ltb_spec (n / 10) 10) as [Ht|Ht].
    + rewrite (N.div_small (n / 10) 10) by done. unfold fixed_digits.
      rewrite show_N_step, (proj2 (N.ltb_ge n 10)) by done.
      rewrite show_N_step, (proj2 (N.ltb_lt (n / 10) 10)) by done.
      rewrite (N.mod_small (n / 10) 10) by done. reflexivity.
    + assert (Hn : show_N n = show_N (n / 10 / 10) ++
                     String (digit_char ((n / 10) mod 10)) (String (digit_char (n mod 10)) "")).
      { rewrite show_N_step, (proj2 (N.ltb_ge n 10)) by done.
        rewrite show_N_step, (proj2 (N.ltb_ge (n / 10) 10)) by done.
        by rewrite <- string_app_assoc. }
      unfold fixed_digits. rewrite Hn.
      set (A := show_N (n / 10 / 10)).
      set (B := String (digit_char ((n / 10) mod 10)) (String (digit_char (n mod 10)) "")).
      assert (Hl : (1 <= String.length A)%nat) by apply show_N_length.
      rewrite string_length_app. change (String.length B) with 2%nat.
      destruct (Nat.leb_spec (String.length A + 2) 2); [lia|].
      replace (Nat.max (String.length A + 2) (2 + 1) - 2)%nat with (String.length A) by lia.
      rewrite substring_app_l. change 2%nat with (String.length B).
      by rewrite substring_app_r.
Qed.

(** The amount [formatCurrency] prints, without its grouping commas, is
    the two-place [toFixed] text of the same number of paise. *)
Lemma currency_digits_fixed (n : N) :
  strip_commas (group_indian (show_N (n / 100)) ++ "." ++ two_digits (n mod 100)) = fixed_digits n 2.
Proof.
  destruct (show_N_digits (n / 100)) as [_ Hd].
  assert (Hall : all_digits (two_digits (n mod 100)) = true).
  { exact (digits_value_all _ _ _ (two_digits_value 0 _ (N.mod_lt n 100 ltac:(lia)))). }
  rewrite fixed_digits_two, strip_commas_app, group_indian_strip, strip_commas_digits by done.
  change (strip_commas ("." ++ two_digits (n mod 100)))
    with (String "." (strip_commas (two_digits (n mod 100)))).
  by rewrite strip_commas_digits.
Qed.

(** C16. The cards print amounts with [formatCurrency] and percentages with
    [toFixed(2)]; for any finite [x] below [10^21] in magnitude the two agree:
    [formatCurrency(x)] is the sign of [toFixed(x, 2)], the rupee sign, and
    a text that without its en-IN grouping commas is the rest of
    [toFixed(x, 2)] (both round half away from zero to two places). *)
Theorem formatCurrency_toFixed (q : Q) :
  (Qabs q < inject_Z (10 ^ 21))%Q ->
  exists t, formatCurrency (NFin q) = (if Qltb q 0 then "-" else "") ++ rupee ++ t /\
    toFixed (NFin q) 2 = (if Qltb q 0 then "-" else "") ++ strip_commas t.
Proof.
  intros Hq. eexists. split; [reflexivity|].
  unfold toFixed. rewrite currency_digits_fixed.
  destruct (Qle_bool (inject_Z (10 ^ 21)) (Qabs q)) eqn:Hle; [|done].
  apply Qle_bool_iff in Hle. exfalso. by apply (Qlt_not_le _ _ Hq).
Qed.

Lemma formatCurrency_toFixed_witness :
  exists t, formatCurrency (NFin (-1234567891 # 1000)) = "-" ++ rupee ++ t /\
    toFixed (NFin (-1234567891 # 1000)) 2 = "-" ++ strip_commas t.
Proof. apply (formatCurrency_toFixed (-1234567891 # 1000)). vm_compute. reflexivity. Defined.
