(* ===== verification/Cards.v ===== *)
(** The two summary cards: [PortfolioSummaryCard] of
    src/src/components/portfolio-summary-card.tsx and [SectorSummaryCard] of
    src/src/components/sector-summary-card.tsx.  Each render is a function
    from the summary record to a record of what the card shows: the texts,
    the colours chosen by [isPositive], and the numbers given to antd's
    [Progress].  The markup itself and the fixed labels are not modelled. *)

From S2P Require Import Prelude JsValue Portfolio NumberFormat.
From Stdlib Require Import QArith Qabs Qminmax Lqa.
Local Close Scope Q_scope.
Local Open Scope string_scope.
Local Open Scope js_scope.

Inductive arrow : Type := ArrowUpOutlined | ArrowDownOutlined.

(** [summary.gainLossColor === "green"] (both cards, line 17). *)
Definition isPositive (s : SectorSummary.t) : bool :=
  String.eqb (color_string (SectorSummary.gainLossColor s)) "green".

(** [((summary.totalGainLoss / summary.totalInvestment) * 100).toFixed(2)]
    (both cards, lines 18-21). *)
Definition returnPercentage (s : SectorSummary.t) : string :=
  toFixed (num_mul (num_div (NFin (SectorSummary.totalGainLoss s))
                            (NFin (SectorSummary.totalInvestment s))) (NFin 100)) 2.

(** [Math.abs(parseFloat(returnPercentage))], shown next to the bar. *)
Definition performance (pct : string) : number := math_abs (parseFloat pct).

(** [Math.min(Math.abs(parseFloat(returnPercentage)), 100)], the bar. *)
Definition progress_percent (pct : string) : number := math_min (performance pct) (NFin 100).

Module PortfolioCard.
(** What portfolio-summary-card.tsx, lines 14-152, renders. *)
Record view : Type := mk {
  background : string;
  headerReturn : string;
  totalInvestment : string;
  presentValue : string;
  gainLossIcon : arrow;
  totalGainLoss : string;
  returnTile : string;
  performanceValue : number;
  progressPercent : number
}.

Definition render (summary : PortfolioSummary.t) : view :=
  let isPositive := isPositive summary in
  let totalReturnPercentage := returnPercentage summary in
  {| background := if isPositive
                   then "linear-gradient(135deg, #0191B4 0%, #52c41a 100%)"
                   else "linear-gradient(135deg, #0191B4 0%, #ff4d4f 100%)";
     headerReturn := (if isPositive then "+" else "") ++ totalReturnPercentage ++ "%";
     totalInvestment := formatCurrency (NFin (SectorSummary.totalInvestment summary));
     presentValue := formatCurrency (NFin (SectorSummary.totalPresentValue summary));
     gainLossIcon := if isPositive then ArrowUpOutlined else ArrowDownOutlined;
     totalGainLoss := formatCurrency (NFin (SectorSummary.totalGainLoss summary));
     returnTile := (if isPositive then "+" else "") ++ totalReturnPercentage ++ "%";
     performanceValue := performance totalReturnPercentage;
     progressPercent := progress_percent totalReturnPercentage |}.
End PortfolioCard.

Module SectorCard.
(** What sector-summary-card.tsx, lines 13-148, renders. *)
Record view : Type := mk {
  background : string;
  dotClass : string;
  title : string;
  badgeCount : string;
  badgeColor : string;
  performanceValue : number;
  progressPercent : number;
  strokeColor : string;
  investment : string;
  presentValue : string;
  gainLossIcon : arrow;
  gainLossClass : string;
  gainLoss : string;
  returnDotClass : string;
  returnClass : string;
  returnText : string
}.

Definition render (sectorName : string) (summary : SectorSummary.t) : view :=
  let isPositive := isPositive summary in
  let returnPercentage := returnPercentage summary in
  {| background := if isPositive
                   then "linear-gradient(135deg, #f6ffed 0%, #e6f7ff 100%)"
                   else "linear-gradient(135deg, #fff2e8 0%, #fff1f0 100%)";
     dotClass := "w-3 h-3 rounded-full mr-3 " ++ (if isPositive then "bg-green-500" else "bg-red-500");
     title := sectorName;
     badgeCount := if isPositive then "+" ++ returnPercentage ++ "%" else returnPercentage ++ "%";
     badgeColor := if isPositive then "#52c41a" else "#ff4d4f";
     performanceValue := performance returnPercentage;
     progressPercent := progress_percent returnPercentage;
     strokeColor := if isPositive then "#52c41a" else "#ff4d4f";
     investment := formatCurrency (NFin (SectorSummary.totalInvestment summary));
     presentValue := formatCurrency (NFin (SectorSummary.totalPresentValue summary));
     gainLossIcon := if isPositive then ArrowUpOutlined else ArrowDownOutlined;
     gainLossClass := "text-lg font-bold " ++ (if isPositive then "text-green-600" else "text-red-600");
     gainLoss := formatCurrency (NFin (SectorSummary.totalGainLoss summary));
     returnDotClass := "w-2 h-2 rounded-full mr-2 " ++ (if isPositive then "bg-green-500" else "bg-red-500");
     returnClass := "text-lg font-bold " ++ (if isPositive then "text-green-600" else "text-red-600");
     returnText := returnPercentage ++ "%" |}.
End SectorCard.

(** ** The return percentage *)

(** The exact return in percent, [totalGainLoss / totalInvestment * 100]. *)
Definition return_ratio (s : SectorSummary.t) : Q :=
  (SectorSummary.totalGainLoss s / SectorSummary.totalInvestment s * 100)%Q.

Lemma returnPercentage_finite (s : SectorSummary.t) :
  ~ (SectorSummary.totalInvestment s == 0)%Q ->
  returnPercentage s = toFixed (NFin (return_ratio s)) 2.
Proof.
  intros Hi. unfold returnPercentage, return_ratio. simpl.
  replace (Qeq_bool (SectorSummary.totalInvestment s) 0) with false; [done|].
  symmetry. apply not_true_iff_false. intros E. by apply Qeq_bool_iff in E.
Qed.

Lemma Qmin_lipschitz (a b c : Q) : (Qabs (Qmin a c - Qmin b c) <= Qabs (a - b))%Q.
Proof.
  apply Qabs_case; intros ?; apply Qabs_case; intros ?;
    destruct (Q.min_spec a c) as [[? ->]|[? ->]], (Q.min_spec b c) as [[? ->]|[? ->]]; lra.
Qed.

Lemma Qabs_abs_diff (a b : Q) : (Qabs (Qabs a - Qabs b) <= Qabs (a - b))%Q.
Proof.
  apply Qabs_Qle_condition. pose proof (Qabs_triangle_reverse a b).
  pose proof (Qabs_triangle_reverse b a) as Hba. rewrite (Qabs_Qminus b a) in Hba. lra.
Qed.

(** [Math.min(Math.abs(parseFloat(x.toFixed(2))), 100)] for a finite [x]
    below [10^21]: a finite number in [[0, 100]], [|x|] clamped to 100 up to
    the rounding of [toFixed]. *)
Lemma progress_of_fixed (x : Q) :
  (Qabs x < inject_Z (10 ^ 21))%Q ->
  exists p, progress_percent (toFixed (NFin x) 2) = NFin p /\
    (0 <= p <= 100)%Q /\
    (p == Qmin (Qabs (fixed_value x 2)) 100)%Q /\
    (Qabs (p - Qmin (Qabs x) 100) <= 1 # 200)%Q.
Proof.
  intros Hx. destruct (parseFloat_toFixed_close x 2 Hx) as (r & Hr & Hv & He).
  unfold progress_percent, performance. rewrite Hr. simpl.
  change (inject_Z (pow10 2)) with 100%Q in He.
  assert (Hle : (Qabs (Qmin (Qabs r) 100 - Qmin (Qabs x) 100) <= 1 # 200)%Q).
  { eapply Qle_trans; [apply Qmin_lipschitz|].
    eapply Qle_trans; [apply Qabs_abs_diff|]. exact He. }
  pose proof (Qabs_nonneg r).
  assert (Hva : (Qabs (fixed_value x 2) == Qabs r)%Q) by (apply Qabs_wd; by symmetry).
  destruct (Qltb 100 (Qabs r)) eqn:Hc; [apply Qltb_iff in Hc|].
  - exists 100%Q. rewrite Q.min_r in Hle by lra.
    split; [done|]. split; [lra|]. split; [|done].
    rewrite (Q.min_r (Qabs (fixed_value x 2)) 100); lra.
  - assert (Hc' : (Qabs r <= 100)%Q).
    { apply Qnot_lt_le. intros Hl. apply Qltb_iff in Hl. congruence. }
    exists (Qabs r). rewrite Q.min_l in Hle by done.
    split; [done|]. split; [lra|]. split; [|done].
    rewrite (Q.min_l (Qabs (fixed_value x 2)) 100); lra.
Qed.

Lemma return_ratio_neg_iff (s : SectorSummary.t) :
  (0 < SectorSummary.totalInvestment s)%Q ->
  (return_ratio s < 0 <-> SectorSummary.totalGainLoss s < 0)%Q.
Proof.
  intros Hi. unfold return_ratio.
  set (g := SectorSummary.totalGainLoss s). set (i := SectorSummary.totalInvestment s) in *.
  assert (Hk : (0 < 100 / i)%Q) by (apply Qlt_shift_div_l; lra).
  assert (E : (g / i * 100 == g * (100 / i))%Q) by (field; lra).
  rewrite E. split; intros H; nra.
Qed.

(** ** The cards *)

(** C15. The percentage both cards print, read back by [parseFloat], is the
    exact return [totalGainLoss / totalInvestment * 100] rounded to two
    places (half up in magnitude, sign kept): within 0.005 of it. *)
Theorem returnPercentage_roundtrip (s : SectorSummary.t) :
  ~ (SectorSummary.totalInvestment s == 0)%Q ->
  (Qabs (return_ratio s) < inject_Z (10 ^ 21))%Q ->
  exists r, parseFloat (returnPercentage s) = NFin r /\
    (r == fixed_value (return_ratio s) 2)%Q /\ (Qabs (r - return_ratio s) <= 1 # 200)%Q.
Proof.
  intros Hi Hr. rewrite returnPercentage_finite by done.
  exact (parseFloat_toFixed_close _ 2 Hr).
Qed.

(** C14. Whenever the investment is not zero (and the return is below
    [10^21] percent), both cards give antd's [Progress] the same finite
    [percent], which lies in [[0, 100]] and is the absolute return clamped to
    100 up to the rounding of [toFixed(2)]. *)
Theorem card_progress_bounded (name : string) (s : SectorSummary.t) :
  ~ (SectorSummary.totalInvestment s == 0)%Q ->
  (Qabs (return_ratio s) < inject_Z (10 ^ 21))%Q ->
  PortfolioCard.progressPercent (PortfolioCard.render s) =
    SectorCard.progressPercent (SectorCard.render name s) /\
  exists p, SectorCard.progressPercent (SectorCard.render name s) = NFin p /\
    (0 <= p <= 100)%Q /\ (Qabs (p - Qmin (Qabs (return_ratio s)) 100) <= 1 # 200)%Q.
Proof.
  intros Hi Hr. split; [reflexivity|]. cbn [SectorCard.render SectorCard.progressPercent].
  rewrite returnPercentage_finite by done.
  destruct (progress_of_fixed _ Hr) as (p & Hp & Hb & _ & He). by exists p.
Qed.

(** C17. With a zero investment the division gives NaN or an infinity: a
    zero gain shows "NaN%" and gives [Progress] NaN; a gain shows
    "Infinity%" (a loss "-Infinity%") and a full bar. *)
Theorem card_zero_investment (name : string) (s : SectorSummary.t) :
  (SectorSummary.totalInvestment s == 0)%Q ->
  let v := SectorCard.render name s in
  ((SectorSummary.totalGainLoss s == 0)%Q ->
     SectorCard.returnText v = "NaN%" /\ SectorCard.progressPercent v = NNaN) /\
  ((0 < SectorSummary.totalGainLoss s)%Q ->
     SectorCard.returnText v = "Infinity%" /\ SectorCard.progressPercent v = NFin 100) /\
  ((SectorSummary.totalGainLoss s < 0)%Q ->
     SectorCard.returnText v = "-Infinity%" /\ SectorCard.progressPercent v = NFin 100).
Proof.
  intros Hi v. subst v. cbn [SectorCard.render SectorCard.returnText SectorCard.progressPercent].
  unfold returnPercentage. cbn [num_div].
  replace (Qeq_bool (SectorSummary.totalInvestment s) 0) with true
    by (symmetry; by apply Qeq_bool_iff).
  split; [|split]; intros Hg.
  - replace (Qeq_bool (SectorSummary.totalGainLoss s) 0) with true
      by (symmetry; by apply Qeq_bool_iff).
    split; reflexivity.
  - replace (Qeq_bool (SectorSummary.totalGainLoss s) 0) with false
      by (symmetry; apply not_true_iff_false; intros E%Qeq_bool_iff; lra).
    replace (Qltb 0 (SectorSummary.totalGainLoss s)) with true by (symmetry; by apply Qltb_iff).
    split; reflexivity.
  - replace (Qeq_bool (SectorSummary.totalGainLoss s) 0) with false
      by (symmetry; apply not_true_iff_false; intros E%Qeq_bool_iff; lra).
    replace (Qltb 0 (SectorSummary.totalGainLoss s)) with false
      by (symmetry; apply not_true_iff_false; intros E%Qltb_iff; lra).
    split; reflexivity.
Qed.

(** C29. When the colour the API sends agrees with the sign of the gain
    (green exactly when it is not negative) and the investment is positive,
    the sector badge reads a plus or a minus sign (not both) and the
    absolute return rounded to two places. *)
Theorem sector_badge_sign (name : string) (s : SectorSummary.t) :
  (0 < SectorSummary.totalInvestment s)%Q ->
  (Qabs (return_ratio s) < inject_Z (10 ^ 21))%Q ->
  (isPositive s = true <-> 0 <= SectorSummary.totalGainLoss s)%Q ->
  SectorCard.badgeCount (SectorCard.render name s) =
    (if Qle_bool 0 (SectorSummary.totalGainLoss s) then "+" else "-") ++
    fixed_digits (Z.to_N (round_fixed (Qabs (return_ratio s)) 2)) 2 ++ "%".
Proof.
  intros Hi Hr Hc. cbn [SectorCard.render SectorCard.badgeCount].
  rewrite returnPercentage_finite by lra. rewrite toFixed_small by done.
  pose proof (return_ratio_neg_iff s Hi) as Hn.
  destruct (Qle_bool 0 (SectorSummary.totalGainLoss s)) eqn:Hg.
  - apply Qle_bool_iff in Hg. apply Hc in Hg as Hp. rewrite Hp.
    replace (Qltb (return_ratio s) 0) with false; [reflexivity|].
    symmetry. apply not_true_iff_false. intros E%Qltb_iff. apply Hn in E. lra.
  - assert (Hneg : (SectorSummary.totalGainLoss s < 0)%Q).
    { apply Qnot_le_lt. intros E%Qle_bool_iff. congruence. }
    replace (isPositive s) with false
      by (symmetry; apply not_true_iff_false; intros E%Hc; lra).
    replace (Qltb (return_ratio s) 0) with true by (symmetry; apply Qltb_iff, Hn, Hneg).
    reflexivity.
Qed.

(** ** Examples *)

Definition ex_summary : SectorSummary.t := SectorSummary.mk 1000 (112345 # 100) (12345 # 100) green.
Definition ex_loss : SectorSummary.t := SectorSummary.mk 1000 950 (-50) red.
Definition ex_no_investment : SectorSummary.t := SectorSummary.mk 0 50 50 green.
Definition ex_mismatch : SectorSummary.t := SectorSummary.mk 1000 950 (-50) green.

(** The sign prefix follows the colour, not the number: a green summary
    with a loss shows the badge "+-5.00%" and an upward arrow. *)
Theorem badge_double_sign :
  SectorCard.badgeCount (SectorCard.render "IT" ex_mismatch) = "+-5.00%" /\
  SectorCard.gainLossIcon (SectorCard.render "IT" ex_mismatch) = ArrowUpOutlined /\
  PortfolioCard.headerReturn (PortfolioCard.render ex_mismatch) = "+-5.00%".
Proof. split; [|split]; vm_compute; reflexivity. Qed.

Lemma card_progress_bounded_witness :
  ~ (SectorSummary.totalInvestment ex_summary == 0)%Q /\
  (Qabs (return_ratio ex_summary) < inject_Z (10 ^ 21))%Q /\
  SectorCard.progressPercent (SectorCard.render "Financials" ex_summary) = NFin (1235 # 100) /\
  (PortfolioCard.progressPercent (PortfolioCard.render ex_summary) =
     SectorCard.progressPercent (SectorCard.render "Financials" ex_summary) /\
   exists p, SectorCard.progressPercent (SectorCard.render "Financials" ex_summary) = NFin p /\
     (0 <= p <= 100)%Q /\ (Qabs (p - Qmin (Qabs (return_ratio ex_summary)) 100) <= 1 # 200)%Q).
Proof.
  split; [discriminate|]. split; [reflexivity|]. split; [vm_compute; reflexivity|].
  apply card_progress_bounded; [discriminate|reflexivity].
Defined.

Lemma returnPercentage_roundtrip_witness :
  ~ (SectorSummary.totalInvestment ex_summary == 0)%Q /\
  (Qabs (return_ratio ex_summary) < inject_Z (10 ^ 21))%Q /\
  returnPercentage ex_summary = "12.35" /\
  exists r, parseFloat (returnPercentage ex_summary) = NFin r /\
    (r == fixed_value (return_ratio ex_summary) 2)%Q /\
    (Qabs (r - return_ratio ex_summary) <= 1 # 200)%Q.
Proof.
  split; [discriminate|]. split; [reflexivity|]. split; [vm_compute; reflexivity|].
  apply returnPercentage_roundtrip; [discriminate|reflexivity].
Defined.

Lemma card_zero_investment_witness :
  (SectorSummary.totalInvestment ex_no_investment == 0)%Q /\
  let v := SectorCard.render "Energy" ex_no_investment in
  ((SectorSummary.totalGainLoss ex_no_investment == 0)%Q ->
     SectorCard.returnText v = "NaN%" /\ SectorCard.progressPercent v = NNaN) /\
  ((0 < SectorSummary.totalGainLoss ex_no_investment)%Q ->
     SectorCard.returnText v = "Infinity%" /\ SectorCard.progressPercent v = NFin 100) /\
  ((SectorSummary.totalGainLoss ex_no_investment < 0)%Q ->
     SectorCard.returnText v = "-Infinity%" /\ SectorCard.progressPercent v = NFin 100).
Proof. split; [reflexivity|]. apply card_zero_investment. reflexivity. Defined.

Lemma sector_badge_sign_witness :
  (0 < SectorSummary.totalInvestment ex_loss)%Q /\
  (Qabs (return_ratio ex_loss) < inject_Z (10 ^ 21))%Q /\
  (isPositive ex_loss = true <-> 0 <= SectorSummary.totalGainLoss ex_loss)%Q /\
  SectorCard.badgeCount (SectorCard.render "Energy" ex_loss) = "-5.00%".
Proof.
  assert (Hc : (isPositive ex_loss = true <-> 0 <= SectorSummary.totalGainLoss ex_loss)%Q).
  { split; [discriminate|]. intros H. exfalso. apply (Qle_not_lt _ _ H). reflexivity. }
  split; [reflexivity|]. split; [reflexivity|]. split; [exact Hc|].
  rewrite (sector_badge_sign "Energy" ex_loss); [vm_compute; reflexivity|reflexivity|reflexivity|exact Hc].
Defined.
