(* ===== verification/StockTable.v ===== *)
(** [SectorStocksTable] of src/src/components/sector-stock-table.tsx: the
    column renderers of the antd table (each a function of the cell's value
    and its record), the row class, the header texts and the rows.  The
    P/E renderer is written on an arbitrary JavaScript value, since its
    optional chaining [value?.toFixed(2)] is there for a missing figure. *)

From S2P Require Import Prelude JsValue Portfolio NumberFormat.
From Stdlib Require Import QArith Qabs Lqa Ascii.
Local Close Scope Q_scope.
Local Open Scope string_scope.
Local Open Scope js_scope.

(** [String.prototype.replace] with a string pattern: the first occurrence
    is replaced (the replacement here holds no [$] pattern). *)
Fixpoint replace_first (pat rep s : string) : string :=
  if String.prefix pat s then rep ++ String.substring (String.length pat) (String.length s - String.length pat) s
  else match s with
       | EmptyString => EmptyString
       | String c s' => String c (replace_first pat rep s')
       end.

(** Lines 27-32: the exchange tag. *)
Definition exchange_color (exchange : string) : string :=
  if String.eqb exchange "NSE" then "blue" else "green".

(** Lines 82-93: the portfolio share, printed as sent and given to
    [Progress] as [parseFloat(value.replace("%", ""))]. *)
Definition portfolio_progress (value : string) : number :=
  parseFloat (replace_first "%" "" value).

(** Lines 128-151: the gain/loss cell. *)
Record gain_loss_view : Type := mkGainLoss {
  amountClass : string;
  amountText : string;
  percentClass : string;
  percentText : string
}.

Definition gain_loss_cell (value : Q) (record : Stock.t) : gain_loss_view :=
  let isPositive := String.eqb (color_string (Stock.gainLossColor record)) "green" in
  let percentage := toFixed (num_mul (num_div (NFin value) (NFin (Stock.investment record))) (NFin 100)) 1 in
  {| amountClass := "font-bold text-lg " ++ (if isPositive then "text-green-600" else "text-red-600");
     amountText := (if isPositive then "+" else "") ++ formatCurrency (NFin value);
     percentClass := "text-xs " ++ (if isPositive then "text-green-500" else "text-red-500");
     percentText := (if isPositive then "+" else "") ++ percentage ++ "%" |}.

(** Lines 159-163: [value?.toFixed(2) || "N/A"].  A nullish value
    short-circuits to [undefined]; any other value that is not a number has
    no callable [toFixed] (JSON cannot hold a function), so the call throws. *)
Definition pe_cell (value : JsValue.value) : completion string :=
  match value with
  | VUndefined | VNull => Normal "N/A"
  | VNum n => let r := toFixed n 2 in Normal (if truthy (VStr r) then r else "N/A")
  | _ => throw! "value.toFixed is not a function"
  end.

(** Lines 226-230: the row class, striped by index. *)
Definition rowClassName (index : nat) : string :=
  "hover:bg-blue-50 transition-colors duration-200 " ++
    (if Nat.eqb (index mod 2) 0 then "bg-gray-50/50" else "bg-white").

(** One row of the table: the cells of lines 16-176 for one stock. *)
Record row : Type := mkRow {
  rowKey : string;
  rowClass : string;
  particulars : string;
  exchangeColor : string;
  exchange : string;
  symbol : string;
  purchasePrice : string;
  quantity : string;
  investment : string;
  portfolioText : string;
  portfolioPercent : number;
  cmp : string;
  presentValue : string;
  gainLoss : gain_loss_view;
  peRatio : string;
  latestEarnings : string
}.

Definition render_row (index : nat) (s : Stock.t) : completion row :=
  pe ← pe_cell (qnum (Stock.peRatio s));
  Normal {| rowKey := Stock.symbol s;
            rowClass := rowClassName index;
            particulars := Stock.particulars s;
            exchangeColor := exchange_color (Stock.exchange s);
            exchange := Stock.exchange s;
            symbol := Stock.symbol s;
            purchasePrice := formatCurrency (NFin (Stock.purchasePrice s));
            quantity := toLocaleString (NFin (Stock.quantity s));
            investment := formatCurrency (NFin (Stock.investment s));
            portfolioText := Stock.portfolioPercentage s;
            portfolioPercent := portfolio_progress (Stock.portfolioPercentage s);
            cmp := formatCurrency (NFin (Stock.cmp s));
            presentValue := formatCurrency (NFin (Stock.presentValue s));
            gainLoss := gain_loss_cell (Stock.gainLoss s) s;
            peRatio := pe;
            latestEarnings := formatCurrency (NFin (Stock.latestEarnings s)) |}.

Fixpoint render_rows (index : nat) (stocks : list Stock.t) : completion (list row) :=
  match stocks with
  | [] => Normal []
  | s :: rest => r ← render_row index s; rs ← render_rows (S index) rest; Normal (r :: rs)
  end.

(** Lines 12-236: the header texts and the rows (the chart above the table
    is [StockPerformanceChart]). *)
Record table_view : Type := mkTable {
  title : string;
  subtitle : string;
  totalStocks : nat;
  rows : list row
}.

Definition SectorStocksTable (stocks : list Stock.t) (sectorName : string) : completion table_view :=
  rs ← render_rows 0 stocks;
  Normal {| title := sectorName ++ " Stocks";
            subtitle := show_N (N.of_nat (length stocks)) ++ " stocks in this sector";
            totalStocks := length stocks;
            rows := rs |}.

(** ** Lemmas *)

Lemma replace_pct_digits (s t : string) :
  all_digits s = true -> replace_first "%" "" (s ++ t) = s ++ replace_first "%" "" t.
Proof.
  induction s as [|c s IH]; intros Hs; [done|].
  simpl in Hs. apply andb_true_iff in Hs as [Hc Hs]. rewrite string_app_cons.
  cbn [replace_first]. destruct (String.prefix "%" (String c (s ++ t))) eqn:Hp.
  - exfalso. cbn [String.prefix] in Hp. destruct (ascii_dec "%" c) as [<-|]; [discriminate Hc|done].
  - rewrite IH by done. reflexivity.
Qed.

(** The share as the API sends it, digits with a point and a percent sign,
    loses only its percent sign. *)
Lemma replace_pct_literal (a b : string) :
  all_digits a = true -> all_digits b = true ->
  replace_first "%" "" (a ++ String "." (b ++ "%")) = a ++ String "." b.
Proof.
  intros Ha Hb. rewrite replace_pct_digits by done. f_equal.
  change (replace_first "%" "" (String "." (b ++ "%"))) with (String "." (replace_first "%" "" (b ++ "%"))).
  rewrite replace_pct_digits by done. f_equal. apply string_app_nil_r.
Qed.

(** The row class's test [index % 2 === 0] is the parity of the index. *)
Lemma parity_even (i : nat) : Nat.eqb (i mod 2) 0 = Nat.even i.
Proof.
  destruct (Nat.Even_or_Odd i) as [[m ->]|[m ->]].
  - rewrite Nat.mul_comm, Nat.Div0.mod_mul, Nat.even_mul, Bool.orb_true_r. reflexivity.
  - rewrite Nat.add_comm, Nat.even_add_mul_2, Nat.mul_comm, Nat.Div0.mod_add. reflexivity.
Qed.

Lemma render_row_normal (i : nat) (s : Stock.t) : exists r, render_row i s = Normal r.
Proof. by eexists. Qed.

Lemma render_row_class (i : nat) (s : Stock.t) (r : row) :
  render_row i s = Normal r -> rowClass r = rowClassName i.
Proof. unfold render_row. simpl. by intros [= <-]. Qed.

(** [render_rows k] renders the [i]-th stock as row [k + i], in order. *)
Lemma render_rows_spec (k : nat) (stocks : list Stock.t) :
  exists rs, render_rows k stocks = Normal rs /\ length rs = length stocks /\
    forall i s, stocks !! i = Some s -> exists r, rs !! i = Some r /\ render_row (k + i) s = Normal r.
Proof.
  revert k. induction stocks as [|s stocks IH]; intros k.
  - exists []. split; [done|]. split; [done|]. by intros i s ?.
  - destruct (IH (S k)) as (rs & Hrs & Hlen & Hat). destruct (render_row_normal k s) as [r0 Hr0].
    exists (r0 :: rs). split.
    { change (render_rows k (s :: stocks)) with
        (r ← render_row k s; rs ← render_rows (S k) stocks; Normal (r :: rs)).
      by rewrite Hr0, Hrs. } split; [simpl; by f_equal|].
    intros [|i] s' Hs; simpl in Hs.
    + injection Hs as <-. exists r0. by rewrite Nat.add_0_r.
    + destruct (Hat i s' Hs) as (r & Hr & Hrr). exists r. split; [done|].
      by replace (k + S i) with (S k + i) by lia.
Qed.

(** ** Theorems *)

(** C22. The P/E cell falls back to "N/A" exactly for a missing figure
    ([null] or [undefined]): a number, [0] and [NaN] included, is always
    shown as its [toFixed(2)] text, since that text is never empty. *)
Theorem pe_cell_na_iff (v : JsValue.value) :
  (pe_cell v = Normal "N/A" <-> nullish v = true) /\
  (forall n, pe_cell (VNum n) = Normal (toFixed n 2)).
Proof.
  assert (Hn : forall n, pe_cell (VNum n) = Normal (toFixed n 2)).
  { intros n. simpl. destruct (toFixed_not_NA n 2) as [He _].
    apply String.eqb_neq in He. by rewrite He. }
  split; [|done].
  destruct v as [| | b | n | s | es | ps]; try (simpl; split; done).
  rewrite Hn. destruct (toFixed_not_NA n 2) as [_ Hna]. simpl. split; [|done].
  intros E. injection E as E. done.
Qed.

(** C31. When the colour agrees with the sign of the gain (green exactly when
    it is not negative), the amount of the gain/loss cell carries exactly
    one sign, [+] or [-], then the rupee amount of [|gain|] to the paisa. *)
Theorem gain_loss_amount_sign (value : Q) (record : Stock.t) :
  (color_string (Stock.gainLossColor record) = "green" <-> 0 <= value)%Q ->
  exists t r, amountText (gain_loss_cell value record) =
      (if Qle_bool 0 value then "+" else "-") ++ rupee ++ t /\
    parseFloat (strip_commas t) = NFin r /\ (Qabs (r - Qabs value) <= 1 # 200)%Q.
Proof.
  intros Hc. destruct (formatCurrency_fin value) as (t & r & Hf & Hp & _ & He).
  exists t, r. split; [|done]. cbn [gain_loss_cell amountText]. rewrite Hf.
  destruct (Qle_bool 0 value) eqn:Hv.
  - apply Qle_bool_iff, Hc in Hv. rewrite Hv. cbn [String.eqb Ascii.eqb Bool.eqb].
    replace (Qltb value 0) with false; [reflexivity|].
    symmetry. apply not_true_iff_false. intros E%Qltb_iff.
    apply Hc in Hv. lra.
  - assert (Hneg : (value < 0)%Q) by (apply Qnot_le_lt; intros E%Qle_bool_iff; congruence).
    replace (String.eqb (color_string (Stock.gainLossColor record)) "green") with false
      by (symmetry; apply String.eqb_neq; intros E%Hc; lra).
    replace (Qltb value 0) with true by (symmetry; by apply Qltb_iff).
    reflexivity.
Qed.

(** C32. The progress bar of the portfolio share: for a share sent as digits,
    a point, digits and a percent sign, [Progress] receives exactly the
    number written, with no clamp to [[0, 100]]. *)
Theorem portfolio_progress_value (a b : string) (v : N) :
  a <> "" -> digits_value 0 (a ++ b) = Some v ->
  exists r, portfolio_progress (a ++ "." ++ b ++ "%") = NFin r /\
    (r == inject_Z (Z.of_N v) / inject_Z (10 ^ Z.of_nat (String.length b)))%Q.
Proof.
  intros Ha Hv. pose proof (digits_value_all _ _ _ Hv) as Hd.
  rewrite all_digits_app in Hd. apply andb_true_iff in Hd as [Hda Hdb].
  unfold portfolio_progress. change ("." ++ b ++ "%") with (String "." (b ++ "%")).
  rewrite replace_pct_literal by done.
  destruct (parse_unsigned_point _ _ _ Ha Hv) as (r & Hr & Hq).
  destruct (parseFloat_digits (a ++ String "." b)) as [Hp _]; [by apply starts_digit_app|].
  exists r. by rewrite Hp, Hr.
Qed.

(** A whole quantity is shown with all its digits, grouped by
    thousands, without a fraction or a sign. *)
Theorem quantity_integer_exact (i : nat) (s : Stock.t) (n : N) :
  Stock.quantity s = inject_Z (Z.of_N n) ->
  exists r, render_row i s = Normal r /\
    quantity r = group_with group_thousands_rev (show_N n) /\
    strip_commas (quantity r) = show_N n.
Proof.
  intros Hq. eexists. split; [reflexivity|]. cbn [quantity]. rewrite Hq, toLocaleString_nat.
  split; [done|]. rewrite group_thousands_strip. apply strip_commas_digits, show_N_digits.
Qed.

(** C23. The table always renders, with one row per stock in the order of
    [stocks]: row [i] is the render of the [i]-th stock, keyed by its
    symbol, and striped by index parity (even rows [bg-gray-50/50], odd
    rows [bg-white], each after the hover classes); the header counts the
    stocks and names the sector. *)
Theorem table_rows (stocks : list Stock.t) (sectorName : string) :
  exists v, SectorStocksTable stocks sectorName = Normal v /\ length (rows v) = length stocks /\
    (forall i s, stocks !! i = Some s -> exists r, rows v !! i = Some r /\ render_row i s = Normal r /\
       rowKey r = Stock.symbol s /\
       rowClass r = "hover:bg-blue-50 transition-colors duration-200 " ++
                    (if Nat.even i then "bg-gray-50/50" else "bg-white")) /\
    totalStocks v = length stocks /\ title v = sectorName ++ " Stocks".
Proof.
  destruct (render_rows_spec 0 stocks) as (rs & Hrs & Hlen & Hat).
  eexists. unfold SectorStocksTable. rewrite Hrs. split; [reflexivity|]. split; [done|].
  split; [|done]. intros i s Hs. destruct (Hat i s Hs) as (r & Hr & Hrr). exists r.
  split; [done|]. split; [done|]. split; [unfold render_row in Hrr; simpl in Hrr; by injection Hrr as <-|].
  rewrite (render_row_class _ _ _ Hrr). unfold rowClassName. by rewrite parity_even.
Qed.

(** ** Witnesses *)

Definition ex_stock_row : Stock.t :=
  Stock.mk "HDFC Bank" "HDFCBANK" 1490 50 74500 "120.00%" "NSE" 1700 85000 10500 green 18 2450.

Lemma portfolio_progress_value_witness :
  "120" <> "" /\ digits_value 0 ("120" ++ "00") = Some 12000%N /\
  portfolio_progress "120.00%" ≡n NFin 120 /\
  exists r, portfolio_progress ("120" ++ "." ++ "00" ++ "%") = NFin r /\
    (r == inject_Z (Z.of_N 12000) / inject_Z (10 ^ Z.of_nat (String.length "00")))%Q.
Proof.
  split; [discriminate|]. split; [reflexivity|]. split; [vm_compute; reflexivity|].
  apply portfolio_progress_value; [discriminate|reflexivity].
Defined.

Lemma gain_loss_amount_sign_witness :
  (color_string (Stock.gainLossColor ex_stock_row) = "green" <-> 0 <= 10500)%Q /\
  amountText (gain_loss_cell 10500 ex_stock_row) = "+₹10,500.00" /\
  exists t r, amountText (gain_loss_cell 10500 ex_stock_row) =
      (if Qle_bool 0 10500 then "+" else "-") ++ rupee ++ t /\
    parseFloat (strip_commas t) = NFin r /\ (Qabs (r - Qabs 10500) <= 1 # 200)%Q.
Proof.
  assert (Hc : (color_string (Stock.gainLossColor ex_stock_row) = "green" <-> 0 <= 10500)%Q).
  { split; [intros _; discriminate|reflexivity]. }
  split; [exact Hc|]. split; [vm_compute; reflexivity|].
  apply gain_loss_amount_sign. exact Hc.
Defined.

Lemma quantity_integer_exact_witness :
  Stock.quantity ex_stock_row = inject_Z (Z.of_N 50) /\
  exists r, render_row 0 ex_stock_row = Normal r /\
    quantity r = group_with group_thousands_rev (show_N 50) /\
    strip_commas (quantity r) = show_N 50.
Proof. split; [reflexivity|]. apply quantity_integer_exact. reflexivity. Defined.
