(* ===== verification/Charts.v ===== *)
(** The three ECharts components: [PortfolioDistributionChart]
    (components/portfolio-distribution-chart.tsx), [SectorPerformanceChart]
    (components/sector-performance-chart.tsx) and [StockPerformanceChart]
    (components/stock-performance-chart.tsx).  Each is modelled as the data
    it puts into the chart option: the series values, names and the colours
    chosen per item; ChartOptions.v builds the whole option object from it.
    The first two read the page's data as JSON, so their property reads may
    throw. *)

From S2P Require Import Prelude JsValue Portfolio Dashboard NumberFormat Cards.
From Stdlib Require Import QArith Ascii.
Local Close Scope Q_scope.
Local Open Scope string_scope.
Local Open Scope js_scope.

(** ** Portfolio distribution (pie) *)

(** portfolio-distribution-chart.tsx, lines 17-28. *)
Definition colorPalette : list string :=
  ["#0191B4"; "#52c41a"; "#f5222d"; "#fa8c16"; "#722ed1";
   "#13c2c2"; "#eb2f96"; "#1890ff"; "#faad14"; "#a0d911"].

(** [colorPalette[index % colorPalette.length]] (line 70). *)
Definition palette_color (index : nat) : string :=
  default "" (colorPalette !! (index mod length colorPalette)).

Record pie_item : Type := mkPie {
  pieValue : value;
  pieName : string;
  pieColor : string
}.

(** Lines 12-15: [{ value: sectorData.summary.totalInvestment, name }]. *)
Definition pie_entry (p : string * value) : completion (value * string) :=
  let '(sectorName, sectorData) := p in
  summary ← get sectorData "summary";
  v ← get summary "totalInvestment";
  Normal (v, sectorName).

(** Lines 5-97: the sectors of [data], their pie data, and the data of the
    series with a palette colour per index. *)
Definition PortfolioDistributionChart (data : value) : completion (list pie_item) :=
  entries ← object_entries data;
  let sectors := filter (fun p => is_sector_key p.1 = true) entries in
  pieData ← js_map pie_entry sectors;
  Normal (imap (fun index item => mkPie item.1 item.2 (palette_color index)) pieData).

(** Line 43, as the source file holds it: the rupee sign's UTF-8 bytes read
    as Windows-1252 and written back as UTF-8. *)
Definition pie_tooltip_formatter : string := "{a} <br/><b>{b}</b>: â‚¹{c} ({d}%)".

(** ** Sector performance (bars) *)

Record bar_chart : Type := mkBars {
  sectorNames : list string;
  investments : list value;
  presentValues : list value;
  gainLoss : list value
}.

(** [sectorData.summary.<field>] for one entry (lines 12-20). *)
Definition summary_field (field : string) (p : string * value) : completion value :=
  summary ← get p.2 "summary"; get summary field.

(** sector-performance-chart.tsx, lines 6-20: four maps over the sectors,
    in the order the code runs them. *)
Definition SectorPerformanceChart (data : value) : completion bar_chart :=
  entries ← object_entries data;
  let sectors := filter (fun p => is_sector_key p.1 = true) entries in
  let sectorNames := map fst sectors in
  investments ← js_map (summary_field "totalInvestment") sectors;
  presentValues ← js_map (summary_field "totalPresentValue") sectors;
  gainLoss ← js_map (summary_field "totalGainLoss") sectors;
  Normal (mkBars sectorNames investments presentValues gainLoss).

(** Lines 145 and 150: the colour of a gain/loss bar, from its value. *)
Definition gain_bar_color (v : number) : string :=
  if num_ge v (NFin 0) then "#52c41a" else "#ff4d4f".

Definition gain_bar_emphasis (v : number) : string :=
  if num_ge v (NFin 0) then "#389e0d" else "#cf1322".

(** ** Stock performance (bars) *)

Record stock_bar : Type := mkStockBar {
  barValue : Q;
  barColor : string
}.

(** stock-performance-chart.tsx, lines 8-15. *)
Definition StockPerformanceChart (stocks : list Stock.t) : list string * list stock_bar :=
  (map Stock.particulars stocks,
   map (fun stock => mkStockBar (Stock.gainLoss stock)
          (if String.eqb (color_string (Stock.gainLossColor stock)) "green"
           then "#52c41a" else "#ff4d4f")) stocks).

Definition dq : string := String (ascii_of_nat 34) EmptyString.
Definition nl : string := String (ascii_of_nat 10) EmptyString.

(** Line 33: the tooltip's colour, from the value's sign. *)
Definition tooltip_color (value : number) : string :=
  if num_ge value (NFin 0) then "#52c41a" else "#ff4d4f".

(** Lines 30-41: the tooltip of a bar, for its name and value. *)
Definition stock_tooltip (name : string) (value : number) : string :=
  let color := tooltip_color value in
  let icon := if num_ge value (NFin 0) then "▲" else "▼" in
  "<div style=" ++ dq ++ "padding: 8px;" ++ dq ++ ">" ++ nl ++
  "          <strong>" ++ name ++ "</strong><br/>" ++ nl ++
  "          <span style=" ++ dq ++ "color: " ++ color ++ ";" ++ dq ++ ">" ++ icon ++
  " Gain/Loss: ₹" ++ toLocaleString (math_abs value) ++ "</span>" ++ nl ++
  "        </div>".

(** ** Lemmas *)

(** The summary record of a sector or of the portfolio. *)
Definition entry_summary (e : entry) : SectorSummary.t :=
  match e with SectorEntry _ sum => sum | SummaryEntry sum => sum end.

(** The sectors of a well-formed response, as the charts see them. *)
Lemma wf_chart_sectors (r : PortfolioResponse) :
  object_entries (response_to_value r) = Normal (own_entries (map_values entry_to_value r)) /\
  filter (fun p => is_sector_key p.1 = true) (own_entries (map_values entry_to_value r)) =
    map_values entry_to_value (response_sectors r).
Proof.
  split; [reflexivity|]. unfold response_sectors. by rewrite own_entries_map_values, filter_map_values.
Qed.

Lemma js_map_sector_values {B} (f : string * value -> completion B) (g : string * entry -> B)
    (r : PortfolioResponse) :
  wf_response r ->
  (forall k e, is_sector_entry e = true -> f (k, entry_to_value e) = Normal (g (k, e))) ->
  js_map f (map_values entry_to_value (response_sectors r)) = Normal (map g (response_sectors r)).
Proof.
  intros Hwf Hf. pose proof (wf_response_sectors r Hwf) as Hs.
  induction Hs as [|[k e] l He _ IH]; [done|]. simpl in *.
  rewrite Hf by done. fold (map_values entry_to_value l). by rewrite IH.
Qed.

(** The side condition of [js_map_sector_values] for a callback that
    computes on the JSON of a sector entry. *)
Ltac sector_entry_case := intros ? [? ?|?] ?; [reflexivity|discriminate].

Lemma imap_palette (A : Type) (k : nat) (l : list A) :
  imap (fun i _ => palette_color (k + i)) l = map palette_color (seq k (length l)).
Proof.
  revert k. induction l as [|x l IH]; intros k; [done|]. rewrite imap_cons. simpl.
  rewrite Nat.add_0_r. f_equal. rewrite <- IH. apply imap_ext. intros i y _. simpl. f_equal. lia.
Qed.

(** The palette has ten distinct colours: indices [0..n) get distinct
    colours exactly when [n <= 10]. *)
Lemma palette_NoDup_iff (n : nat) : NoDup (map palette_color (seq 0 n)) <-> n <= 10.
Proof.
  split.
  - intros Hn. destruct (decide (n <= 10)) as [|Hgt]; [done|exfalso].
    replace n with (11 + (n - 11)) in Hn by lia.
    rewrite seq_app, map_app in Hn. apply NoDup_app in Hn as [Hn _].
    revert Hn. apply (bool_decide_unpack _). vm_compute. reflexivity.
  - intros Hn. do 11 (destruct n as [|n]; [apply (bool_decide_unpack _); vm_compute; reflexivity|]).
    lia.
Qed.

Lemma pie_entry_throws_iff (p : string * value) :
  is_normal (pie_entry p) = false <->
  nullish p.2 = true \/ (exists s, get p.2 "summary" = Normal s /\ nullish s = true).
Proof.
  destruct p as [k v]. unfold pie_entry. simpl.
  destruct (nullish v) eqn:Hv.
  - destruct v; try discriminate; simpl; split; auto.
  - destruct (get_not_nullish v "summary" Hv) as [s Hs]. rewrite Hs. simpl.
    destruct (nullish s) eqn:Hn.
    + destruct s; try discriminate; simpl; split; eauto.
    + destruct (get_not_nullish s "totalInvestment" Hn) as [x ->]. simpl.
      split; [done|]. intros [?|(s' & [= <-] & ?)]; congruence.
Qed.

(** ** Theorems *)

(** C19. For a well-formed response the pie has one slice per sector, in
    [Object.entries] order, valued at the sector's [totalInvestment], named
    after the sector, coloured by the palette entry of its index. *)
Theorem distribution_chart_wf (r : PortfolioResponse) :
  wf_response r ->
  PortfolioDistributionChart (response_to_value r) =
    Normal (imap (fun i p => mkPie (qnum (SectorSummary.totalInvestment (entry_summary p.2))) p.1
                                   (palette_color i)) (response_sectors r)).
Proof.
  intros Hwf. destruct (wf_chart_sectors r) as [He Hf].
  unfold PortfolioDistributionChart. rewrite He. simpl. rewrite Hf.
  rewrite (js_map_sector_values pie_entry
             (fun p => (qnum (SectorSummary.totalInvestment (entry_summary p.2)), p.1)) r Hwf)
    by sector_entry_case.
  simpl. by rewrite imap_fmap.
Qed.

(** C34. Whatever the data, the slices have distinct colours exactly when
    there are at most ten sectors: the eleventh repeats the first colour. *)
Theorem pie_colors_distinct_iff (data : value) (items : list pie_item) :
  PortfolioDistributionChart data = Normal items ->
  NoDup (map pieColor items) <-> length items <= 10.
Proof.
  unfold PortfolioDistributionChart. destruct (object_entries data); [|discriminate]. simpl.
  destruct (js_map pie_entry _) as [pd|]; [|discriminate]. simpl. intros [= <-].
  rewrite length_imap, <- palette_NoDup_iff, <- (imap_palette _ 0 pd).
  assert (E : map pieColor (imap (fun index item => mkPie item.1 item.2 (palette_color index)) pd)
              = imap (fun i (_ : value * string) => palette_color (0 + i)) pd).
  { change (pieColor <$> imap (fun index item => mkPie item.1 item.2 (palette_color index)) pd
            = imap (fun i (_ : value * string) => palette_color (0 + i)) pd).
    rewrite fmap_imap. by apply imap_ext. }
  by rewrite E.
Qed.

(** C33. On object data the pie throws exactly when some non-summary entry
    is [null] or [undefined] or has a [null] or [undefined] [summary]. *)
Theorem distribution_chart_throws_iff (ps : list (string * value)) :
  is_normal (PortfolioDistributionChart (VObj ps)) = false <->
  exists k v, (k, v) ∈ ps /\ is_sector_key k = true /\
    (nullish v = true \/ exists s, get v "summary" = Normal s /\ nullish s = true).
Proof.
  pose proof (sectors_map_throw_iff pie_entry ps) as Hiff.
  unfold PortfolioDistributionChart. simpl.
  setoid_rewrite <- (pie_entry_throws_iff (_, _)).
  destruct (js_map pie_entry _); cbn [is_normal] in Hiff |- *; done.
Qed.

(** C20. For a well-formed response the bar chart's four series are
    aligned: the sector names in [Object.entries] order and, for each, its
    investment, present value and gain/loss. *)
Theorem sector_chart_wf (r : PortfolioResponse) :
  wf_response r ->
  SectorPerformanceChart (response_to_value r) =
    Normal (mkBars (map fst (response_sectors r))
      (map (fun p => qnum (SectorSummary.totalInvestment (entry_summary p.2))) (response_sectors r))
      (map (fun p => qnum (SectorSummary.totalPresentValue (entry_summary p.2))) (response_sectors r))
      (map (fun p => qnum (SectorSummary.totalGainLoss (entry_summary p.2))) (response_sectors r))).
Proof.
  intros Hwf. destruct (wf_chart_sectors r) as [He Hf].
  unfold SectorPerformanceChart. rewrite He. simpl. rewrite Hf.
  rewrite (js_map_sector_values (summary_field "totalInvestment")
             (fun p => qnum (SectorSummary.totalInvestment (entry_summary p.2))) r Hwf)
    by sector_entry_case.
  rewrite (js_map_sector_values (summary_field "totalPresentValue")
             (fun p => qnum (SectorSummary.totalPresentValue (entry_summary p.2))) r Hwf)
    by sector_entry_case.
  rewrite (js_map_sector_values (summary_field "totalGainLoss")
             (fun p => qnum (SectorSummary.totalGainLoss (entry_summary p.2))) r Hwf)
    by sector_entry_case.
  simpl. unfold map_values. by rewrite map_map.
Qed.

Lemma num_ge_zero (x : Q) : num_ge (NFin x) (NFin 0) = true <-> (0 <= x)%Q.
Proof.
  unfold num_ge, num_lt. rewrite negb_true_iff. split.
  - intros H. apply Qnot_lt_le. intros E%Qltb_iff. congruence.
  - intros H. apply not_true_iff_false. intros E%Qltb_iff. by apply (Qle_not_lt 0 x).
Qed.

(** A colour chosen by a test agrees with a colour chosen by the sign
    exactly when the test agrees with the sign. *)
Lemma colors_agree_iff (b : bool) (x : Q) :
  ((if num_ge (NFin x) (NFin 0) then "#52c41a" else "#ff4d4f") =
     (if b then "#52c41a" else "#ff4d4f")) <-> (b = true <-> (0 <= x)%Q).
Proof.
  rewrite <- num_ge_zero. destruct b, (num_ge _ _); intuition congruence.
Qed.

(** C28. The charts colour a gain by its sign, the cards and the stock bars
    by the API's [gainLossColor]: the sector bar has the sector card's
    colour, and a stock bar the colour of its tooltip, exactly when the
    colour agrees with the sign (green exactly when the gain is not
    negative). *)
Theorem chart_colors_agree_iff (s : SectorSummary.t) (st : Stock.t) :
  (gain_bar_color (NFin (SectorSummary.totalGainLoss s)) =
     (if isPositive s then "#52c41a" else "#ff4d4f")
   <-> (isPositive s = true <-> 0 <= SectorSummary.totalGainLoss s)%Q) /\
  (map barColor (StockPerformanceChart [st]).2 = [tooltip_color (NFin (Stock.gainLoss st))]
   <-> (color_string (Stock.gainLossColor st) = "green" <-> 0 <= Stock.gainLoss st)%Q).
Proof.
  split; [apply colors_agree_iff|]. simpl. unfold tooltip_color.
  rewrite <- String.eqb_eq, <- (colors_agree_iff _ (Stock.gainLoss st)).
  split; [intros [= ->]|intros ->]; done.
Qed.

(** The tooltip of a stock with a whole gain [z] shows the icon ▲
    exactly when [z >= 0] (▼ otherwise) and the amount [|z|] with all its
    digits, grouped by thousands and without a sign. *)
Theorem stock_tooltip_amount (name : string) (z : Z) :
  exists pre, stock_tooltip name (NFin (inject_Z z)) =
    pre ++ (if (0 <=? z)%Z then "▲" else "▼") ++ " Gain/Loss: ₹" ++
    group_with group_thousands_rev (show_N (Z.abs_N z)) ++ "</span>" ++ nl ++ "        </div>".
Proof.
  eexists. unfold stock_tooltip. cbv zeta.
  replace (math_abs (NFin (inject_Z z))) with (NFin (inject_Z (Z.of_N (Z.abs_N z))))
    by (simpl; by rewrite N2Z.inj_abs_N).
  rewrite toLocaleString_nat.
  replace (num_ge (NFin (inject_Z z)) (NFin 0)) with (0 <=? z)%Z.
  - rewrite !string_app_assoc. reflexivity.
  - destruct (Z.leb_spec 0 z) as [H|H]; symmetry.
    + apply num_ge_zero. change 0%Q with (inject_Z 0). by rewrite <- Zle_Qle.
    + apply not_true_iff_false. intros E%num_ge_zero.
      change 0%Q with (inject_Z 0) in E. rewrite <- Zle_Qle in E. lia.
Qed.

(** ** Witnesses *)

Lemma distribution_chart_wf_witness :
  wf_response ex_response /\
  PortfolioDistributionChart (response_to_value ex_response) =
    Normal (imap (fun i p => mkPie (qnum (SectorSummary.totalInvestment (entry_summary p.2))) p.1
                                   (palette_color i)) (response_sectors ex_response)).
Proof. split; [exact ex_response_wf|]. apply distribution_chart_wf, ex_response_wf. Defined.

Lemma pie_colors_distinct_iff_witness :
  exists items, PortfolioDistributionChart (response_to_value ex_response) = Normal items /\
    map pieColor items = ["#0191B4"; "#52c41a"] /\
    (NoDup (map pieColor items) <-> length items <= 10).
Proof.
  exists (match PortfolioDistributionChart (response_to_value ex_response) with
          | Normal items => items | Throw _ => [] end).
  split; [vm_compute; reflexivity|]. split; [vm_compute; reflexivity|].
  apply (pie_colors_distinct_iff (response_to_value ex_response)). vm_compute. reflexivity.
Defined.

Lemma sector_chart_wf_witness :
  wf_response ex_response /\
  SectorPerformanceChart (response_to_value ex_response) =
    Normal (mkBars (map fst (response_sectors ex_response))
      (map (fun p => qnum (SectorSummary.totalInvestment (entry_summary p.2))) (response_sectors ex_response))
      (map (fun p => qnum (SectorSummary.totalPresentValue (entry_summary p.2))) (response_sectors ex_response))
      (map (fun p => qnum (SectorSummary.totalGainLoss (entry_summary p.2))) (response_sectors ex_response))).
Proof. split; [exact ex_response_wf|]. apply sector_chart_wf, ex_response_wf. Defined.

(** The tooltip's currency sign is the mangled text, not the rupee sign. *)
Lemma pie_tooltip_mojibake :
  pie_tooltip_formatter <> "{a} <br/><b>{b}</b>: " ++ rupee ++ "{c} ({d}%)".
Proof. discriminate. Qed.
