(* ===== verification/ChartOptions.v ===== *)
(** The option objects the three chart components hand to ECharts
    (components/portfolio-distribution-chart.tsx, lines 30-97;
    components/sector-performance-chart.tsx, lines 22-155;
    components/stock-performance-chart.tsx, lines 9-15 and 17-110), written
    out field by field as the code writes them.  An option is a tree of JSON
    values, arrays and objects, and the callbacks ECharts calls: a colour
    from a bar's value, a tooltip from the hovered bar's name and value, an
    animation delay from an index.  The theorems state what ECharts relies
    on: the legend names the series, and each series has one datum per
    category of the axis. *)

From S2P Require Import Prelude JsValue Portfolio Dashboard NumberFormat Cards Charts.
From Stdlib Require Import QArith Ascii.
Local Close Scope Q_scope.
Local Open Scope string_scope.
Local Open Scope js_scope.

(** ** Options *)

Local Set Warnings "-register-all".

Inductive opt : Type :=
  | OJson (v : value)
  | OArr (xs : list opt)
  | OObj (props : list (string * opt))
  | OColor (f : number -> string)              (** [(params) => colour], of [params.value] *)
  | OFormatter (f : string -> number -> string) (** [(params) => html], of [params[0]] *)
  | ODelay (f : nat -> Z).                      (** [(idx) => ms] *)

Definition ostr (s : string) : opt := OJson (VStr s).
Definition onum (z : Z) : opt := OJson (num_of_Z z).
Definition obool (b : bool) : opt := OJson (VBool b).

(** Property access and array indexing on an option. *)
Definition oget (o : opt) (k : string) : option opt :=
  match o with OObj ps => assoc_lookup k ps | _ => None end.

Definition onth (o : opt) (i : nat) : option opt :=
  match o with OArr xs => xs !! i | _ => None end.

Fixpoint oget_path (o : opt) (ks : list string) : option opt :=
  match ks with
  | [] => Some o
  | k :: ks' => match oget o k with Some o' => oget_path o' ks' | None => None end
  end.

(** The length of an array option. *)
Definition olength (o : opt) : option nat :=
  match o with OArr xs => Some (length xs) | _ => None end.

(** The shared styling pieces. *)
Definition title_style (size : Z) : opt :=
  OObj [("fontSize", onum size); ("fontWeight", ostr "600"); ("color", ostr "#262626")].

Definition line_color (c : string) : opt := OObj [("lineStyle", OObj [("color", ostr c)])].

Definition bar_radius : opt := OArr [onum 4; onum 4; onum 0; onum 0].

(** ** The pie of portfolio-distribution-chart.tsx *)

(** Lines 67-75: one datum, [{...item, itemStyle}]. *)
Definition pie_datum (item : pie_item) : opt :=
  OObj [("value", OJson (pieValue item)); ("name", ostr (pieName item));
        ("itemStyle", OObj [("color", ostr (pieColor item)); ("borderRadius", onum 8);
                            ("borderColor", ostr "#fff"); ("borderWidth", onum 2)])].

(** Lines 30-97. *)
Definition distribution_option (items : list pie_item) : opt :=
  OObj [
    ("title", OObj [("text", ostr "Portfolio Distribution by Sector"); ("left", ostr "center");
                    ("top", onum 20); ("textStyle", title_style 18)]);
    ("tooltip", OObj [("trigger", ostr "item"); ("formatter", ostr pie_tooltip_formatter);
                      ("backgroundColor", ostr "rgba(255, 255, 255, 0.95)");
                      ("borderColor", ostr "#d9d9d9"); ("borderWidth", onum 1);
                      ("textStyle", OObj [("color", ostr "#262626")])]);
    ("legend", OObj [("orient", ostr "horizontal"); ("bottom", onum 20); ("left", ostr "center");
                     ("itemGap", onum 20);
                     ("textStyle", OObj [("fontSize", onum 12); ("color", ostr "#595959")])]);
    ("series", OArr [OObj [
       ("name", ostr "Investment"); ("type", ostr "pie");
       ("radius", OArr [ostr "40%"; ostr "70%"]); ("center", OArr [ostr "50%"; ostr "55%"]);
       ("data", OArr (map pie_datum items));
       ("emphasis", OObj [("itemStyle", OObj [("shadowBlur", onum 15); ("shadowOffsetX", onum 0);
                                              ("shadowColor", ostr "rgba(0, 0, 0, 0.3)");
                                              ("borderWidth", onum 3)])]);
       ("labelLine", OObj [("show", obool false)]);
       ("label", OObj [("show", obool true); ("position", ostr "inside"); ("formatter", ostr "{d}%");
                       ("fontSize", onum 12); ("fontWeight", ostr "bold"); ("color", ostr "#fff")])]])].

Definition distribution_chart_option (data : value) : completion opt :=
  items ← PortfolioDistributionChart data; Normal (distribution_option items).

(** ** The bars of sector-performance-chart.tsx *)

(** Lines 112-125 and 126-139: a bar series with a fixed colour. *)
Definition plain_bar_series (name : string) (data : list value) (color emphasis : string) : opt :=
  OObj [("name", ostr name); ("type", ostr "bar"); ("data", OArr (map OJson data));
        ("itemStyle", OObj [("color", ostr color); ("borderRadius", bar_radius)]);
        ("emphasis", OObj [("itemStyle", OObj [("color", ostr emphasis)])])].

(** Lines 22-155. *)
Definition sector_option (b : bar_chart) : opt :=
  OObj [
    ("title", OObj [("text", ostr "Sector Performance Comparison"); ("left", ostr "center");
                    ("top", onum 20); ("textStyle", title_style 18)]);
    ("tooltip", OObj [("trigger", ostr "axis");
                      ("axisPointer", OObj [("type", ostr "cross");
                                            ("crossStyle", OObj [("color", ostr "#999")])]);
                      ("backgroundColor", ostr "rgba(255, 255, 255, 0.95)");
                      ("borderColor", ostr "#d9d9d9"); ("borderWidth", onum 1);
                      ("textStyle", OObj [("color", ostr "#262626")])]);
    ("legend", OObj [("data", OArr [ostr "Investment"; ostr "Present Value"; ostr "Gain/Loss"]);
                     ("top", onum 50); ("left", ostr "center"); ("itemGap", onum 30);
                     ("textStyle", OObj [("fontSize", onum 12); ("color", ostr "#595959")])]);
    ("grid", OObj [("left", ostr "3%"); ("right", ostr "4%"); ("bottom", ostr "15%");
                   ("top", ostr "20%"); ("containLabel", obool true)]);
    ("xAxis", OArr [OObj [
       ("type", ostr "category"); ("data", OArr (map ostr (sectorNames b)));
       ("axisPointer", OObj [("type", ostr "shadow")]);
       ("axisLabel", OObj [("interval", onum 0); ("rotate", onum 30); ("fontSize", onum 11);
                           ("color", ostr "#595959")]);
       ("axisLine", line_color "#d9d9d9")]]);
    ("yAxis", OArr [OObj [
       ("type", ostr "value"); ("name", ostr "Amount (₹)");
       ("nameTextStyle", OObj [("color", ostr "#595959"); ("fontSize", onum 12)]);
       ("axisLabel", OObj [("formatter", ostr "₹{value}"); ("fontSize", onum 11);
                           ("color", ostr "#595959")]);
       ("axisLine", line_color "#d9d9d9");
       ("splitLine", OObj [("lineStyle", OObj [("color", ostr "#f0f0f0"); ("type", ostr "dashed")])])]]);
    ("series", OArr [
       plain_bar_series "Investment" (investments b) "#0191B4" "#016a84";
       plain_bar_series "Present Value" (presentValues b) "#52c41a" "#389e0d";
       OObj [("name", ostr "Gain/Loss"); ("type", ostr "bar"); ("data", OArr (map OJson (gainLoss b)));
             ("itemStyle", OObj [("color", OColor gain_bar_color); ("borderRadius", bar_radius)]);
             ("emphasis", OObj [("itemStyle", OObj [("color", OColor gain_bar_emphasis)])])]])].

Definition sector_chart_option (data : value) : completion opt :=
  b ← SectorPerformanceChart data; Normal (sector_option b).

(** ** The bars of stock-performance-chart.tsx *)

(** Lines 9-15: one datum with its colour. *)
Definition stock_datum (bar : stock_bar) : opt :=
  OObj [("value", OJson (VNum (NFin (barValue bar))));
        ("itemStyle", OObj [("color", ostr (barColor bar)); ("borderRadius", bar_radius)])].

(** Lines 17-110. *)
Definition stock_option (chart : list string * list stock_bar) : opt :=
  let '(stockNames, gainLossData) := chart in
  OObj [
    ("title", OObj [("text", ostr "Individual Stock Performance"); ("left", ostr "center");
                    ("top", onum 10); ("textStyle", title_style 16)]);
    ("tooltip", OObj [("trigger", ostr "axis"); ("formatter", OFormatter stock_tooltip);
                      ("backgroundColor", ostr "rgba(255, 255, 255, 0.95)");
                      ("borderColor", ostr "#d9d9d9"); ("borderWidth", onum 1)]);
    ("grid", OObj [("left", ostr "3%"); ("right", ostr "4%"); ("bottom", ostr "20%");
                   ("top", ostr "15%"); ("containLabel", obool true)]);
    ("xAxis", OObj [("type", ostr "category"); ("data", OArr (map ostr stockNames));
                    ("axisLabel", OObj [("interval", onum 0); ("rotate", onum 45); ("fontSize", onum 10);
                                        ("color", ostr "#595959")]);
                    ("axisLine", line_color "#d9d9d9")]);
    ("yAxis", OObj [("type", ostr "value"); ("name", ostr "Gain/Loss (₹)");
                    ("nameTextStyle", OObj [("color", ostr "#595959"); ("fontSize", onum 12)]);
                    ("axisLabel", OObj [("formatter", ostr "₹{value}"); ("fontSize", onum 11);
                                        ("color", ostr "#595959")]);
                    ("axisLine", line_color "#d9d9d9");
                    ("splitLine", OObj [("lineStyle", OObj [("color", ostr "#f0f0f0");
                                                            ("type", ostr "dashed")])])]);
    ("series", OArr [OObj [
       ("name", ostr "Gain/Loss"); ("type", ostr "bar"); ("data", OArr (map stock_datum gainLossData));
       ("emphasis", OObj [("focus", ostr "series");
                          ("itemStyle", OObj [("shadowBlur", onum 10); ("shadowOffsetX", onum 0);
                                              ("shadowColor", ostr "rgba(0, 0, 0, 0.3)")])]);
       ("animationDelay", ODelay (fun idx => (Z.of_nat idx * 10)%Z))]]);
    ("animationEasing", ostr "elasticOut");
    ("animationDelayUpdate", ODelay (fun idx => (Z.of_nat idx * 5)%Z))].

Definition stock_chart_option (stocks : list Stock.t) : opt := stock_option (StockPerformanceChart stocks).

(** ** Lemmas *)

(** Every series in [series] has one datum per category in [cats]. *)
Definition series_aligned (cats : list opt) (series : list opt) : Prop :=
  Forall (fun s => exists d, oget s "data" = Some (OArr d) /\ length d = length cats) series.

(** The names the series carry, as ECharts reads them. *)
Definition series_names (series : list opt) : list (option opt) := map (fun s => oget s "name") series.

(** The four arrays the sector chart computes have one element per sector. *)
Lemma sector_chart_lengths (data : value) (b : bar_chart) :
  SectorPerformanceChart data = Normal b ->
  length (investments b) = length (sectorNames b) /\
  length (presentValues b) = length (sectorNames b) /\
  length (gainLoss b) = length (sectorNames b).
Proof.
  unfold SectorPerformanceChart. destruct (object_entries data) as [es|]; [|discriminate]. simpl.
  destruct (js_map (summary_field "totalInvestment") _) as [i|] eqn:Hi; [|discriminate]. simpl.
  destruct (js_map (summary_field "totalPresentValue") _) as [p|] eqn:Hp; [|discriminate]. simpl.
  destruct (js_map (summary_field "totalGainLoss") _) as [g|] eqn:Hg; [|discriminate]. simpl.
  intros [= <-]. simpl. rewrite length_map.
  apply js_map_length in Hi, Hp, Hg. lia.
Qed.

(** ** Theorems *)

(** C21. Whatever the data, when the sector chart renders, the option it
    gives ECharts is consistent: the legend lists exactly the names of the
    three series, in order (ECharts ties a legend item to a series by
    name), and every series has one bar per category of the x axis. *)
Theorem sector_option_consistent (data : value) (o : opt) :
  sector_chart_option data = Normal o ->
  exists legend series x cats,
    oget_path o ["legend"; "data"] = Some (OArr legend) /\
    oget o "series" = Some (OArr series) /\
    map Some legend = series_names series /\
    oget o "xAxis" = Some (OArr [x]) /\ oget x "data" = Some (OArr cats) /\
    series_aligned cats series.
Proof.
  unfold sector_chart_option. destruct (SectorPerformanceChart data) as [b|] eqn:Hb; [|discriminate].
  simpl. intros [= <-]. destruct (sector_chart_lengths _ _ Hb) as (H1 & H2 & H3).
  do 4 eexists. do 5 (split; [reflexivity|]).
  repeat constructor; eexists; (split; [reflexivity|]); rewrite !length_map; lia.
Qed.

(** ** Witnesses *)

Definition ex_sector_option : opt :=
  match sector_chart_option (response_to_value ex_response) with Normal o => o | Throw _ => OArr [] end.

Lemma sector_option_consistent_witness :
  exists legend series x cats,
    oget_path ex_sector_option ["legend"; "data"] = Some (OArr legend) /\
    oget ex_sector_option "series" = Some (OArr series) /\
    map Some legend = series_names series /\
    oget ex_sector_option "xAxis" = Some (OArr [x]) /\ oget x "data" = Some (OArr cats) /\
    series_aligned cats series.
Proof. apply (sector_option_consistent (response_to_value ex_response)). vm_compute. reflexivity. Defined.
