(* ===== verification/Session.v ===== *)
(** The token store of src/src/api/local-session-manager.ts: three static
    methods over [localStorage].  The storage is a map from keys to
    strings; [GLOBAL_CONFIGS.testingToken] comes from configs/global-config,
    which the repository does not contain, so it is a variable of the
    section, of any JSON value.  The theorems give the save/read round trip
    and show that a truthy testing token hides the storage entirely. *)

From S2P Require Import Prelude JsValue.
From stdpp Require Import gmap strings.
Local Open Scope string_scope.

(** [localStorage]: string keys to string values. *)
Definition storage : Type := gmap string string.

Definition token_key : string := "accessToken".

Section LocalSessionManager.
Context (testingToken : value).

(** Lines 4-6: [localStorage.setItem("accessToken", token)]. *)
Definition saveToken (token : string) (ls : storage) : storage := <[token_key := token]> ls.

(** Lines 7-12: the testing token when it is truthy, otherwise
    [localStorage.getItem("accessToken")], which is [null] when absent. *)
Definition readToken (ls : storage) : value :=
  if truthy testingToken then testingToken
  else match ls !! token_key with Some t => VStr t | None => VNull end.

(** Line 13: [localStorage.removeItem("accessToken")]. *)
Definition deleteToken (ls : storage) : storage := delete token_key ls.

(** ** Theorems *)

(** C30. Without a truthy testing token the store round-trips: a saved
    token is read back, and after a delete the read gives [null]; other
    keys of the storage are left alone. *)
Theorem token_roundtrip (token : string) (ls : storage) :
  truthy testingToken = false ->
  readToken (saveToken token ls) = VStr token /\ readToken (deleteToken ls) = VNull /\
  (forall k, k <> token_key -> saveToken token ls !! k = ls !! k /\ deleteToken ls !! k = ls !! k).
Proof.
  intros Ht. unfold readToken, saveToken, deleteToken, storage in *. rewrite Ht.
  split; [by simplify_map_eq|]. split; [by simplify_map_eq|].
  intros k Hk. split; by simplify_map_eq.
Qed.

(** A saved token is read back exactly when the testing token is falsy
    or happens to be that very token: a truthy testing token hides
    whatever was saved. *)
Theorem save_read_iff (token : string) (ls : storage) :
  readToken (saveToken token ls) = VStr token <->
  truthy testingToken = false \/ testingToken = VStr token.
Proof.
  unfold readToken, saveToken, storage. destruct (truthy testingToken) eqn:Ht.
  - split; [by right|]. intros [|]; [discriminate|done].
  - rewrite lookup_insert_eq. split; [intros _; by left|done].
Qed.
End LocalSessionManager.

(** ** Witnesses *)

Lemma token_roundtrip_witness :
  readToken (VStr "") (saveToken "abc" ∅) = VStr "abc" /\ readToken (VStr "") (deleteToken ∅) = VNull /\
  (forall k, k <> token_key -> saveToken "abc" ∅ !! k = (∅ : storage) !! k /\ deleteToken ∅ !! k = (∅ : storage) !! k).
Proof. apply (token_roundtrip (VStr "") "abc" ∅). reflexivity. Defined.
