(* ===== verification/App.v ===== *)
(** Theme and bootstrapping: src/src/configs/app-theme.ts (the colour
    constants and the antd theme built from them), src/src/App.tsx and
    src/src/main.tsx (the element tree that mounts the page).  The tree is
    a rose tree of tags; mounting it yields the cache events of the hooks
    it contains.  The one hook, [useGetPortfolioInfoQuery] in the page,
    subscribes on mount; under React's StrictMode in development React runs
    every effect, its cleanup, and the effect again (a library behaviour,
    not code of this repository), so the page subscribes, unsubscribes and
    subscribes.  The theorems show the theme's semantic colours are the ones
    the components hard-code, and, by induction on element trees, that
    mounting any tree holding the page issues exactly one request, with one
    subscriber per page, whether or not StrictMode replays the effects. *)

From S2P Require Import Prelude JsValue Portfolio Dashboard QueryCache CacheRuns NumberFormat Cards Charts.
From stdpp Require Import gmap.
From Stdlib Require Import QArith.
Local Open Scope string_scope.

(** ** app-theme.ts *)

(** Lines 3-15. *)
Record app_theme : Type := {
  primary : string;
  primaryLight : string;
  primaryChat : string;
  primaryChatLighter : string;
  highlight : string;
  secondary : string;
  secondaryDark : string;
  success : string;
  bgColor_primaryLight : string
}.

Definition AppTheme : app_theme := {|
  primary := "#0191B4";
  primaryLight := "#afdeaa";
  primaryChat := "#0191B4";
  primaryChatLighter := "#45B7D2";
  highlight := "#f8fafc";
  secondary := "#F9AD6A";
  secondaryDark := "#4a707a";
  success := "#52c41a";
  bgColor_primaryLight := "#ebf5ffc4"
|}.

Definition shadow : value := VStr "0 2px 8px rgba(0, 0, 0, 0.1)".

(** Lines 18-54: the antd [ThemeConfig], as the object the code builds. *)
Definition antdTheme : value :=
  VObj [
    ("token", VObj [("colorPrimary", VStr (primary AppTheme)); ("colorSuccess", VStr (success AppTheme));
                    ("colorError", VStr "#ff4d4f"); ("colorWarning", VStr "#faad14");
                    ("colorTextBase", VStr "#000"); ("colorTextSecondary", VStr "#595959")]);
    ("components", VObj [
       ("Card", VObj [("borderRadius", num_of_Z 8); ("boxShadow", shadow)]);
       ("Table", VObj [("borderRadius", num_of_Z 8); ("boxShadow", shadow); ("padding", num_of_Z 6);
                       ("headerBg", VStr (bgColor_primaryLight AppTheme))]);
       ("Button", VObj [("borderRadius", num_of_Z 8); ("boxShadow", shadow);
                        ("colorPrimary", VStr (primary AppTheme));
                        ("colorPrimaryBg", VStr (primaryLight AppTheme));
                        ("colorPrimaryBorderHover", VStr (primary AppTheme))]);
       ("Select", VObj [("borderRadius", num_of_Z 8); ("boxShadow", shadow); ("padding", num_of_Z 0);
                        ("margin", num_of_Z 0)])])].

(** A design token of the theme, as antd reads it. *)
Definition theme_token (k : string) : completion value := get_path antdTheme ["token"; k].

(** ** App.tsx and main.tsx *)

Local Set Warnings "-register-all".

(** An element: its tag, its props (JSON props only), its children. *)
Inductive element : Type :=
  | El (tag : string) (props : list (string * value)) (children : list element).

(** App.tsx, lines 6-15: the page inside the redux [Provider]; the store
    comes from ./redux/store, which the repository does not contain, so
    the provider's prop is not modelled. *)
Definition App : element := El "Provider" [] [El "PortfolioTable" [] []].

(** main.tsx, lines 7-15. *)
Definition main_root : element :=
  El "StrictMode" [] [El "ConfigProvider" [("theme", antdTheme)] [El "AntdApp" [] [App]]].

(** The cache events of mounting [el]: the page's hook subscribes to the
    portfolio query; inside StrictMode in development its effect is run,
    cleaned up and run again.  Effects run children first. *)
Fixpoint mount_in (dev strict : bool) (el : element) : list event :=
  match el with
  | El tag _ children =>
      let strict' := strict || String.eqb tag "StrictMode" in
      (flat_map (mount_in dev strict') children ++
       if String.eqb tag "PortfolioTable" then
         if dev && strict' then [ESubscribe portfolio_key; EUnsubscribe portfolio_key; ESubscribe portfolio_key]
         else [ESubscribe portfolio_key]
       else [])%list
  end.

Definition mount_events (dev : bool) (el : element) : list event := mount_in dev false el.

(** The number of pages ([PortfolioTable] elements) in a tree. *)
Fixpoint page_count (el : element) : nat :=
  match el with
  | El tag _ children =>
      list_sum (map page_count children) + (if String.eqb tag "PortfolioTable" then 1 else 0)
  end.

(** ** Lemmas *)

(** Induction on element trees, with the hypothesis on every child. *)
Lemma element_ind' (P : element -> Prop) :
  (forall tag props children, Forall P children -> P (El tag props children)) ->
  forall el, P el.
Proof.
  intros H. fix IH 1. intros [tag props children]. apply H.
  induction children as [|c cs IHcs]; constructor; [apply IH | exact IHcs].
Qed.

(** What one page's mount effect sends to the cache. *)
Definition page_block (b : list event) : Prop :=
  b = [ESubscribe portfolio_key] \/
  b = [ESubscribe portfolio_key; EUnsubscribe portfolio_key; ESubscribe portfolio_key].

Section Mounting.
Context (cfg : cache_config) (t : Z).

(** The cache after [n] pages have mounted at time [t]: one Loading entry
    with [n] subscribers, one request in flight. *)
Definition mounted (n : nat) : world :=
  match n with
  | O => empty_world t
  | S _ => mkWorld t (<[portfolio_key := mkEntry Loading None None n None None (Some (t + intervalMs cfg)%Z)]> ∅)
                   [portfolio_key]
  end.

Lemma run_app (w w1 w2 : world) (l1 l2 : list event) :
  run cfg w l1 w1 -> run cfg w1 l2 w2 -> run cfg w (l1 ++ l2) w2.
Proof.
  induction 1 as [|ev evs w0 w0' Hen _ IH]; simpl; [done|].
  intros Hrun. constructor; [done|]. by apply IH.
Qed.

(** Each page's effect, replayed or not, adds one subscriber and no
    request once the first request is in flight. *)
Lemma page_block_run (n : nat) (b : list event) :
  page_block b -> run cfg (mounted n) b (mounted (S n)).
Proof.
  intros Hb. apply run_events_sound.
  destruct n as [|n]; destruct Hb as [->| ->]; vm_compute; reflexivity.
Qed.

Lemma mount_in_run (dev : bool) (el : element) :
  forall strict n, run cfg (mounted n) (mount_in dev strict el) (mounted (n + page_count el)).
Proof.
  induction el as [tag props children IH] using element_ind'. intros strict n. simpl.
  set (strict' := strict || String.eqb tag "StrictMode").
  apply (run_app _ (mounted (n + list_sum (map page_count children)))).
  - clear props. revert n. induction IH as [|c cs Hc _ IHcs]; intros n; simpl.
    + rewrite Nat.add_0_r. constructor.
    + apply (run_app _ (mounted (n + page_count c))); [apply Hc|].
      rewrite Nat.add_assoc. apply IHcs.
  - destruct (String.eqb tag "PortfolioTable").
    + replace (n + (list_sum (map page_count children) + 1))%nat
        with (S (n + list_sum (map page_count children))) by lia.
      apply page_block_run. destruct (dev && strict'); [right|left]; reflexivity.
    + rewrite Nat.add_0_r. constructor.
Qed.
End Mounting.

(** ** Theorems *)

(** The colours the components hard-code for gains and losses are the
    theme's [colorSuccess] and [colorError] tokens (the sector gain bars,
    the stock tooltip, the sector card's badge and progress bar), and the
    first colour of the pie palette, which is also the Investment bars'
    colour, is the theme's [colorPrimary]. *)
Theorem semantic_colors_follow_theme :
  (forall v : number,
     theme_token (if num_ge v (NFin 0%Q) then "colorSuccess" else "colorError") = Normal (VStr (gain_bar_color v)) /\
     theme_token (if num_ge v (NFin 0%Q) then "colorSuccess" else "colorError") = Normal (VStr (tooltip_color v))) /\
  (forall (name : string) (s : SectorSummary.t),
     theme_token (if isPositive s then "colorSuccess" else "colorError")
       = Normal (VStr (SectorCard.badgeColor (SectorCard.render name s))) /\
     theme_token (if isPositive s then "colorSuccess" else "colorError")
       = Normal (VStr (SectorCard.strokeColor (SectorCard.render name s)))) /\
  theme_token "colorPrimary" = Normal (VStr (palette_color 0)).
Proof.
  split; [|split]; [intros v | intros name s | reflexivity].
  - unfold gain_bar_color, tooltip_color. by destruct (num_ge v (NFin 0%Q)).
  - unfold SectorCard.render. simpl. by destruct (isPositive s).
Qed.

(** C13. Mounting any element tree that contains the page issues exactly
    one request, whatever the nesting and whether or not StrictMode replays
    the effects (subscribe, unsubscribe, subscribe in development): the
    run ends with the cache holding one Loading entry whose subscribers are
    the pages of the tree, one request in flight, no eviction pending and
    the poll timer armed one interval after the mount. *)
Theorem mount_single_request (dev : bool) (el : element) (t : Z) :
  (0 < page_count el)%nat ->
  exists w, run portfolio_config (empty_world t) (mount_events dev el) w /\
    inflight w = [portfolio_key] /\
    entries w = <[portfolio_key := mkEntry Loading None None (page_count el) None None
                                     (Some (t + intervalMs portfolio_config)%Z)]> ∅.
Proof.
  intros Hpos. exists (mounted portfolio_config t (page_count el)).
  split; [exact (mount_in_run portfolio_config t dev el false 0)|].
  destruct (page_count el); [lia|]. done.
Qed.

Lemma mount_single_request_witness :
  (0 < page_count main_root)%nat /\
  exists w, run portfolio_config (empty_world 0) (mount_events true main_root) w /\
    inflight w = [portfolio_key] /\
    entries w = <[portfolio_key := mkEntry Loading None None (page_count main_root) None None
                                     (Some (0 + intervalMs portfolio_config)%Z)]> ∅.
Proof. split; [vm_compute; lia|]. apply mount_single_request. vm_compute. lia. Defined.
